(* ===== verification/_CoqProject ===== *)
-Q . S2P
Prelude.v
Models.v
Token.v
Realtime.v
Chat.v
Gateway.v
Posts.v
Auth.v
Social.v
Activity.v
Routes.v
System.v
