(* ===== verification/Prelude.v ===== *)
(** * A verification development for the event-management backend

    The program is an Express + Mongoose + Socket.IO server (src/server.js,
    the controllers under src/controllers and src/event_backend-main/controllers,
    the schemas under src/models and src/event_backend-main/models).  All of
    its state is in a MongoDB document store (users, posts, chats, messages,
    notifications, comments); the Socket.IO server keeps rooms that mirror
    chat membership.  HTTP handlers, authenticated by a bearer-token
    middleware, read and write the store; the socket gateway authenticates
    connections, joins rooms and relays messages; both write chats.

    ** Layout of the library (in dependency order)

    - [Prelude] (this file): ids, JavaScript request values ([JsVal]) and
      their truthiness, the HTTP result type [Res] (status and body, or
      status and message), the array operations the controllers use on id
      lists ([includes], [pull], [push]) and [map_find] ([findOne]), decimal
      printing and parsing ([N_to_dec], [Z_to_dec], [dec_to_N]) with their
      round trip and length lemmas, the hint databases [backend] (resolve)
      and [backend_simpl] (rewrite) and the development's tactics.
    - [Models]: the schemas as records ([User.t], [Post.t], [Chat.t],
      [Message.t], [Notification.t]; [Comment.t] from the specification, its
      file is not in the sources), Mongoose's string cast, message
      validation, the store [Db] with its queries and ObjectId generation
      ([new_id], fresh for every id of the store), and the class
      [ObjectIds] of Mongoose's ObjectId cast ([oid_ok]: whether an id
      that is not in the store is well-formed, answering "not found", or
      raises a [CastError]; the ids of the store always cast).
    - [Token]: the class [TokenService] (jsonwebtoken's sign and verify, with
      the law that a token verifies to its payload until it expires) and an
      instance [DecJwt], so that the examples compute.
    - [Realtime]: the Socket.IO state the code relies on (sockets with their
      user, room table, ordered log of emitted events) and [World], the
      store with it.
    - [Chat]: chatController.js: [joinPostGroupChat] and the read handlers.
    - [Gateway]: server.js: the socket middleware [io_auth], the connection
      handler ([on_connection], [join_snapshot]), [sendMessage] both atomic
      and as the resumable handler [send_step] (one step per await), and
      the server as a step relation [step] over [Sys] (world and pool of
      suspended handlers) in which connections, snapshots, resumptions, HTTP
      joins and disconnections interleave freely.
    - [Posts]: postController.js: creation and update with the casts and
      validation of a save, deletion, interest and attendance, the lists and
      the feed, [joinInterestGroup].
    - [Auth]: both authController.js files and authMiddleware.js:
      registration as a state machine per address ([reg_state], the
      automaton [reg_trans] of the specification), login, [protect].
    - [Social]: userController.js: profiles and the follow graph.
    - [Activity]: notificationController.js ([Notifications]) and
      commentController.js ([Comments]).
    - [Routes]: the Express application of server.js: the six routers of
      src/routes and src/event_backend-main/routes as tables of routes
      (method, path, [protect] or not, multer stage, controller function)
      mounted in the order of lines 114-119; Express's first-match dispatch
      on case-insensitive path segments; [serve], one request through
      [express.json()], the routers, [protect], multer and the controller,
      with failures of the parsers and of multer answered by the error
      handler of lines 121-124.
    - [System]: the process of server.js as a whole: [sys_step] lets HTTP
      requests served by [serve] interleave with every step of the
      gateway.

    Handlers are functions from the request and the store to the new store
    and a [Res]; values the code gets from outside (the current time, the
    seed of [crypto.randomInt], whose range [randomInt] keeps, the URLs
    Cloudinary returns, whether [sendEmail] succeeded) are arguments; the
    date-string parser, Mongoose's ObjectId cast and bcrypt are section
    variables or the class [ObjectIds], so the theorems hold for any of
    them.

    ** What is proved (by group)

    - Gateway: in every state reachable by any interleaving, a
      [receiveMessage] only reaches sockets of participants and rooms match
      chat membership (an invariant of [step], by induction on [rtc]); a
      non-participant's send persists nothing and answers only the sender;
      a participant's valid send saves the message and broadcasts it to
      the chat's room; from any state, a participant's suspended send is
      eventually delivered: four resumptions end it, save the message and
      emit it to every socket of the room (liveness, by induction on the
      awaits left); and for any two participants' sends suspended in the
      same chat, the server can interleave them so that the room receives
      the messages in the reverse of the save order and [lastMessage] is
      left on the older one (against the specification's ordering
      guarantee).  The four uninterrupted steps of a send compute the
      atomic handler ([send_run_sendMessage]).
    - Chat: joining is idempotent, subscribes the user, keeps one chat per
      post and duplicate-free participants, except when the author opens the
      chat of their own post (counterexample).
    - Posts: the interest counter equals the number of interested users and
      is never negative, toggling twice restores the store, attendance
      checks its guards and rejects duplicates, the feed, ownership, the
      example run; counterexamples: the attendance toggle has no guard,
      the body of [joinInterestGroup] (which always fails first) would
      break the counter of any post, a string "false" gives a non-event
      with an event date, whatever the other fields.
    - Auth: the handlers refine the registration automaton; e-mails stay
      unique and verified accounts complete; a rejected code is invalidated;
      every stored code has six digits, whatever the random source draws;
      tokens pass [protect] until they expire; login after verification;
      unknown addresses and wrong passwords are rejected alike.
    - Social: the follow graph stays symmetric and duplicate-free; follow
      then unfollow restores the store; the rejections; profile ownership; a
      profile edit can duplicate a username (counterexample).
    - Activity: creating a comment keeps the posts' comment counters exact.
    - Routes: a request without a valid token changes nothing and fails
      unless it reaches one of the three public routes; whatever request is
      served, every stored post still passes the schema's validation (the
      type invariant of the collection, from one lemma per handler); [GET]
      requests change nothing; no route of the table is shadowed by an
      earlier one, for all parameter values that no literal matches
      (checked by reflection: a symbolic matcher [pat_misses] proved sound,
      evaluated once on the table).
    - System: the gateway's safety invariant (a [receiveMessage] only
      reaches participants, rooms mirror chat membership) holds for the
      whole process, whatever HTTP requests interleave with the socket
      events: every handler either writes the store within a frame the
      gateway tolerates (no chat changes, no user disappears, new users
      take fresh ids) or is [joinPostGroupChat].

    Witnesses evaluate the models by [vm_compute] on small stores ([gw_db],
    [posts_db], [auth_db], [social_db], [routes_world]).  No fuel is needed: every
    definition is structurally recursive, [N_to_dec] runs on fuel
    [S (N.size n)], which [dec_to_N_N_to_dec] and [N_to_dec_length] show is
    enough.

    ** Not modelled

    Values and strings: request bodies are flat maps of primitive JSON
    values ([JsVal] has no arrays or objects: the handlers read only
    primitive fields), and strings are ASCII, so [trim] and [lower] treat
    ASCII white space and letters only (JavaScript's also treat Unicode
    ones).
    Inside Express: the percent-decoding of parameters, [HEAD] and
    [OPTIONS] requests and [cors()] headers (requests are taken with their
    pathname already split, and the four methods the routes use); the
    success bodies of [serve]'s replies (the status and error message are
    kept; the handlers' results are the subject of the component theorems).
    src/server.js requires its routers and middleware by paths under src/
    while some of the files sit under src/event_backend-main; the model
    mounts the files as the sources name them.  Multer's storage,
    Cloudinary and the e-mail sender (external I/O: whether multer accepts
    the files, the URLs it returns and whether the mail was sent are
    inputs); [populate], which only decorates
    responses; console logging; the [updatedAt] timestamps of posts and
    users, which no code reads; failures of the database itself: every
    store operation succeeds unless a validator, a cast or a unique index
    rejects it.  HTTP handlers run atomically: only the socket gateway,
    whose interleavings carry the ordering questions, is split at its
    awaits. *)

From stdpp Require Export base gmap strings list sets.
From Stdlib Require Export ZArith.

Open Scope string_scope.

(** Identifiers of documents and users: the code compares them through
    [toString()], so they are modelled by their string form. *)
Abbreviation Id := string (only parsing).

(** ** JavaScript values from request bodies *)

Inductive JsVal :=
  | JUndef
  | JNull
  | JBool (b : bool)
  | JNum (z : Z)
  | JStr (s : string).

(** Truthiness as used by [if (x)], [!x], [x ? a : b] and [||]. *)
Definition truthy (v : JsVal) : bool :=
  match v with
  | JUndef | JNull => false
  | JBool b => b
  | JNum z => negb (Z.eqb z 0)
  | JStr s => negb (String.eqb s "")
  end.

(** [v !== undefined] *)
Definition is_defined (v : JsVal) : bool :=
  match v with JUndef => false | _ => true end.

(** ** HTTP results

    [Ok code v] is a response [res.status(code).json(v)], [Err code msg]
    a response carrying [{ msg }]. *)

Inductive Res (A : Type) :=
  | Ok (code : Z) (v : A)
  | Err (code : Z) (msg : string).
Arguments Ok {A} _ _.
Arguments Err {A} _ _.

Definition res_code {A} (r : Res A) : Z :=
  match r with Ok c _ => c | Err c _ => c end.

Definition is_ok {A} (r : Res A) : bool :=
  match r with Ok _ _ => true | Err _ _ => false end.

(** ** JavaScript arrays of ids *)

(** [arr.includes(x)], also [arr.map(p => p.toString()).includes(x)] *)
Definition includes (l : list Id) (x : Id) : bool :=
  existsb (String.eqb x) l.

(** [arr.filter(id => id.toString() !== x)] *)
Definition pull (x : Id) (l : list Id) : list Id :=
  List.filter (fun y => negb (String.eqb y x)) l.

(** [arr.push(x)] *)
Definition push (l : list Id) (x : Id) : list Id := l ++ [x].

(** ** [Number.prototype.toString()] on non-negative integers

    Decimal digits, most significant first, produced by repeated division
    by ten; the fuel [S (N.size n)] (one more than the number of bits) is
    always enough, as [N_to_dec_spec] shows. *)

Definition digit_char (d : N) : Ascii.ascii := Ascii.ascii_of_N (48 + d).

Fixpoint dec_go (fuel : nat) (n : N) (acc : string) : string :=
  match fuel with
  | O => acc
  | S f =>
      let acc' := String (digit_char (n mod 10)) acc in
      if (n <? 10)%N then acc' else dec_go f (n / 10) acc'
  end.

Definition N_to_dec (n : N) : string := dec_go (S (N.to_nat (N.size n))) n "".

(** [String(z)] for an integer. *)
Definition Z_to_dec (z : Z) : string :=
  if (z <? 0)%Z then String.append "-" (N_to_dec (Z.to_N (- z)))
  else N_to_dec (Z.to_N z).

(** Reading a decimal string back ([Number(s)] on a string of digits). *)
Definition char_digit (c : Ascii.ascii) : option N :=
  let k := Ascii.N_of_ascii c in
  if (48 <=? k)%N && (k <? 58)%N then Some (k - 48)%N else None.

Fixpoint parse_dec_go (s : string) (acc : N) : option N :=
  match s with
  | EmptyString => Some acc
  | String c s' =>
      match char_digit c with
      | Some d => parse_dec_go s' (acc * 10 + d)%N
      | None => None
      end
  end.

Definition dec_to_N (s : string) : option N :=
  match s with EmptyString => None | _ => parse_dec_go s 0 end.

(** The character [' '] (code 32). *)
Definition space_char : Ascii.ascii := Ascii.ascii_of_N 32.

(** No space character: what [split(' ')] leaves in one piece. *)
Fixpoint no_space (s : string) : bool :=
  match s with
  | EmptyString => true
  | String c s' => negb (Ascii.eqb c space_char) && no_space s'
  end.

(** [Model.findOne(filter)] over a collection: the first document, in the
    collection's order, that the filter accepts. *)
Definition map_find {V} (f : Id * V -> bool) (m : gmap Id V) : option (Id * V) :=
  head (List.filter f (map_to_list m)).

Create HintDb backend.
Create Rewrite HintDb backend_simpl.
Set Warnings "-clear-no-such-hyp".

Section ArrayLemmas.
Implicit Types (l : list Id) (x y : Id).

Lemma includes_spec l x : includes l x = true <-> x ∈ l.
Proof.
  unfold includes. rewrite existsb_exists, list_elem_of_In. split.
  - intros (y & Hy & E). apply String.eqb_eq in E. by subst.
  - intros H. exists x. by rewrite String.eqb_refl.
Qed.

Lemma includes_false l x : includes l x = false <-> x ∉ l.
Proof.
  rewrite <- includes_spec. destruct (includes l x); split; congruence.
Qed.

Lemma elem_of_pull x y l : y ∈ pull x l <-> y ∈ l /\ y <> x.
Proof.
  unfold pull. rewrite !list_elem_of_In, filter_In, negb_true_iff,
    String.eqb_neq. done.
Qed.

Lemma pull_not_elem x l : x ∉ pull x l.
Proof. rewrite elem_of_pull. tauto. Qed.

Lemma pull_id x l : x ∉ l -> pull x l = l.
Proof.
  intros Hx. induction l as [|y l IH]; [done|].
  rewrite elem_of_cons in Hx. simpl.
  destruct (String.eqb_spec y x) as [->|Hne]; [tauto|].
  simpl. f_equal. apply IH. tauto.
Qed.

Lemma elem_of_push x y l : y ∈ push l x <-> y ∈ l \/ y = x.
Proof. unfold push. rewrite elem_of_app, list_elem_of_singleton. done. Qed.

Lemma length_push l x : length (push l x) = S (length l).
Proof. unfold push. rewrite length_app. simpl. lia. Qed.

Lemma NoDup_push l x : NoDup l -> x ∉ l -> NoDup (push l x).
Proof.
  intros Hl Hx. unfold push. apply NoDup_app. split; [done|].
  split; [|apply NoDup_singleton]. intros y Hy Hy'.
  apply list_elem_of_singleton in Hy'. by subst.
Qed.

Lemma NoDup_pull x l : NoDup l -> NoDup (pull x l).
Proof.
  intros Hl. unfold pull. rewrite NoDup_ListNoDup in *.
  by apply List.NoDup_filter.
Qed.

(** Removing an element of a duplicate-free list shortens it by one. *)
Lemma length_pull_NoDup x l :
  NoDup l -> x ∈ l -> length (pull x l) = pred (length l).
Proof.
  induction l as [|y l IH]; intros Hl Hx; [by apply elem_of_nil in Hx|].
  apply NoDup_cons in Hl as [Hy Hl]. simpl.
  destruct (String.eqb_spec y x) as [->|Hne]; simpl.
  - by rewrite pull_id.
  - rewrite elem_of_cons in Hx. destruct Hx as [->|Hx]; [done|].
    rewrite IH by done. destruct l; [by apply elem_of_nil in Hx|]. done.
Qed.

Lemma pull_push_fresh x l : x ∉ l -> pull x (push l x) = l.
Proof.
  intros Hx. unfold pull, push. rewrite List.filter_app. simpl.
  rewrite String.eqb_refl. simpl. rewrite app_nil_r. by apply pull_id.
Qed.
End ArrayLemmas.

(** Two elements of a list whose images under [f] are pairwise distinct
    are equal as soon as their images are. *)
Lemma NoDup_map_eq_elem {A B} (f : A -> B) (l : list A) x y :
  NoDup (map f l) -> x ∈ l -> y ∈ l -> f x = f y -> x = y.
Proof.
  induction l as [|z l IH]; simpl; intros Hnd Hx Hy Hf;
    [by apply elem_of_nil in Hx|].
  apply NoDup_cons in Hnd as [Hz Hnd]. rewrite elem_of_cons in Hx, Hy.
  destruct Hx as [->|Hx], Hy as [->|Hy]; [done| | |by apply IH].
  - exfalso. apply Hz. rewrite Hf. apply list_elem_of_fmap. eauto.
  - exfalso. apply Hz. rewrite <- Hf. apply list_elem_of_fmap. eauto.
Qed.

#[export] Hint Resolve NoDup_push NoDup_pull pull_not_elem : backend.
#[export] Hint Rewrite includes_spec includes_false elem_of_pull elem_of_push
  length_push : backend_simpl.

(** Turn every [includes] test in the hypotheses into membership. *)
Ltac includes_to_elem :=
  repeat match goal with
  | H : includes _ _ = true |- _ => apply includes_spec in H
  | H : includes _ _ = false |- _ => apply includes_false in H
  end.

(** Case on an [includes] test of the goal, reflected as membership. *)
Ltac case_includes :=
  match goal with
  | |- context [includes ?l ?x] =>
      let E := fresh "Hinc" in
      destruct (includes l x) eqn:E; includes_to_elem
  end.

(** Close a decidable proposition about a concrete state by evaluation. *)
Ltac decide_by_eval := apply (bool_decide_unpack _); vm_compute; exact I.

(** ** Decimal strings *)

Lemma string_app_cons c (s t : string) : String c s ++ t = String c (s ++ t).
Proof. reflexivity. Qed.

Lemma string_app_nil_l (s : string) : "" ++ s = s.
Proof. reflexivity. Qed.

Lemma string_app_nil_r (s : string) : s ++ "" = s.
Proof. induction s; rewrite ?string_app_cons, ?string_app_nil_l; congruence. Qed.

Lemma string_app_assoc (s1 s2 s3 : string) : (s1 ++ s2) ++ s3 = s1 ++ (s2 ++ s3).
Proof. induction s1; rewrite ?string_app_cons, ?string_app_nil_l; congruence. Qed.

Lemma string_length_app (s1 s2 : string) :
  String.length (s1 ++ s2) = String.length s1 + String.length s2.
Proof. induction s1; rewrite ?string_app_cons, ?string_app_nil_l; simpl; congruence. Qed.

Lemma char_digit_digit_char d : (d < 10)%N -> char_digit (digit_char d) = Some d.
Proof.
  intros Hd. unfold char_digit, digit_char.
  rewrite Ascii.N_ascii_embedding by lia.
  replace ((48 <=? 48 + d)%N && (48 + d <? 58)%N) with true; [f_equal; lia|].
  symmetry. apply andb_true_intro. split; [apply N.leb_le|apply N.ltb_lt]; lia.
Qed.

Lemma dec_go_app f n acc : dec_go f n acc = dec_go f n "" ++ acc.
Proof.
  revert n acc. induction f as [|f IH]; intros n acc; simpl; [done|].
  destruct (n <? 10)%N; [done|].
  rewrite (IH _ (String _ acc)), (IH _ (String _ "")), string_app_assoc. done.
Qed.

Lemma parse_dec_go_app s1 s2 a :
  parse_dec_go (s1 ++ s2) a = match parse_dec_go s1 a with
                              | Some b => parse_dec_go s2 b | None => None end.
Proof.
  revert a. induction s1 as [|c s1 IH]; intros a; [done|].
  rewrite string_app_cons. simpl. destruct (char_digit c); [apply IH|done].
Qed.

(** Printing then parsing gives the number back, whatever the prefix
    already read. *)
Lemma parse_dec_go_dec f n a :
  (n < 10 ^ N.of_nat f)%N ->
  parse_dec_go (dec_go f n "") a =
    Some (a * 10 ^ N.of_nat (String.length (dec_go f n "")) + n)%N.
Proof.
  revert n a. induction f as [|f IH]; intros n a Hn; simpl.
  - f_equal. simpl in Hn. lia.
  - pose proof (N.div_mod n 10 ltac:(lia)) as Hdm.
    pose proof (N.mod_lt n 10 ltac:(lia)) as Hm.
    destruct (N.ltb_spec n 10) as [Hlt|Hge]; simpl.
    + rewrite char_digit_digit_char by lia. simpl. f_equal.
      rewrite N.mod_small by lia. lia.
    + rewrite dec_go_app, parse_dec_go_app, IH.
      * simpl. rewrite char_digit_digit_char by done. simpl. f_equal.
        rewrite string_length_app. simpl.
        rewrite Nat.add_1_r, Nat2N.inj_succ, N.pow_succ_r'. nia.
      * apply N.Div0.div_lt_upper_bound.
        rewrite Nat2N.inj_succ, N.pow_succ_r' in Hn. lia.
Qed.

Lemma dec_go_nonempty f n : dec_go (S f) n "" <> "".
Proof.
  simpl. destruct (n <? 10)%N; [discriminate|].
  rewrite dec_go_app. by destruct (dec_go f _ "").
Qed.

Lemma N_lt_pow10_size n : (n < 10 ^ N.of_nat (S (N.to_nat (N.size n))))%N.
Proof.
  pose proof (N.size_gt n) as H.
  assert (2 ^ N.size n <= 10 ^ N.size n)%N by (apply N.pow_le_mono_l; lia).
  assert (10 ^ N.size n < 10 ^ N.succ (N.size n))%N
    by (apply N.pow_lt_mono_r; lia).
  rewrite Nat2N.inj_succ, N2Nat.id. lia.
Qed.

(** Round trip: [dec_to_N] reads back what [N_to_dec] prints. *)
Lemma dec_to_N_N_to_dec n : dec_to_N (N_to_dec n) = Some n.
Proof.
  unfold dec_to_N, N_to_dec.
  pose proof (dec_go_nonempty (N.to_nat (N.size n)) n).
  destruct (dec_go _ n "") eqn:E; [done|]. rewrite <- E.
  rewrite parse_dec_go_dec by apply N_lt_pow10_size. f_equal; lia.
Qed.

Lemma no_space_app s t : no_space (s ++ t) = no_space s && no_space t.
Proof. induction s as [|c s IH]; [done|]. simpl. rewrite IH. apply andb_assoc. Qed.

Lemma digit_char_not_space d : (d < 10)%N -> Ascii.eqb (digit_char d) space_char = false.
Proof.
  intros Hd. destruct (Ascii.eqb_spec (digit_char d) space_char) as [E|]; [|done].
  apply (f_equal Ascii.N_of_ascii) in E. unfold digit_char in E.
  rewrite Ascii.N_ascii_embedding in E by lia. discriminate E || (simpl in E; lia).
Qed.

(** The decimal form of a number has no space. *)
Lemma no_space_dec_go f n acc : no_space acc = true -> no_space (dec_go f n acc) = true.
Proof.
  revert n acc. induction f as [|f IH]; intros n acc Hacc; simpl; [done|].
  assert (no_space (String (digit_char (n mod 10)) acc) = true).
  { simpl. rewrite digit_char_not_space by (apply N.mod_lt; lia). done. }
  destruct (n <? 10)%N; [done|]. by apply IH.
Qed.

Lemma no_space_N_to_dec n : no_space (N_to_dec n) = true.
Proof. by apply no_space_dec_go. Qed.

(** A number with [k + 1] decimal digits is printed with [k + 1]
    characters, given more than [k] steps of fuel. *)
Lemma dec_go_length k f n :
  (10 ^ N.of_nat k <= n < 10 ^ N.of_nat (S k))%N -> (k < f)%nat ->
  String.length (dec_go f n "") = S k.
Proof.
  revert f n. induction k as [|k IH]; intros f n Hn Hf; destruct f as [|f]; try lia; simpl.
  - simpl in Hn. by destruct (N.ltb_spec n 10); [|lia].
  - destruct (N.ltb_spec n 10) as [Hlt|_].
    + rewrite Nat2N.inj_succ, N.pow_succ_r' in Hn.
      pose proof (N.pow_nonzero 10 (N.of_nat k) ltac:(lia)). lia.
    + rewrite dec_go_app, string_length_app, (IH f (n / 10)%N); [simpl; lia| |lia].
      rewrite !Nat2N.inj_succ, !N.pow_succ_r' in *. split.
      * apply N.div_le_lower_bound; lia.
      * apply N.Div0.div_lt_upper_bound. lia.
Qed.

Lemma N_to_dec_length k n :
  (10 ^ N.of_nat k <= n < 10 ^ N.of_nat (S k))%N -> String.length (N_to_dec n) = S k.
Proof.
  intros Hn. apply dec_go_length; [done|].
  assert (2 ^ N.of_nat k <= 10 ^ N.of_nat k)%N by (apply N.pow_le_mono_l; lia).
  pose proof (N.size_gt n).
  assert (N.of_nat k < N.size n)%N.
  { apply (N.pow_lt_mono_r_iff 2); lia. }
  lia.
Qed.

Lemma map_find_Some {V} (f : Id * V -> bool) m i v :
  map_find f m = Some (i, v) -> m !! i = Some v /\ f (i, v) = true.
Proof.
  unfold map_find. destruct (List.filter f _) as [|[i' v'] l] eqn:E; simpl; [done|].
  intros [= -> ->].
  assert (In (i, v) (List.filter f (map_to_list m))) as Hin by (rewrite E; left; done).
  apply filter_In in Hin as [Hin Hf]. split; [|done].
  apply elem_of_map_to_list. by apply list_elem_of_In.
Qed.

Lemma map_find_None {V} (f : Id * V -> bool) m :
  map_find f m = None -> forall i v, m !! i = Some v -> f (i, v) = false.
Proof.
  unfold map_find. destruct (List.filter f _) as [|iv l] eqn:E; simpl; [|done].
  intros _ i v Hi. destruct (f (i, v)) eqn:Hf; [|done].
  assert (In (i, v) (List.filter f (map_to_list m))) as Hin.
  { apply filter_In. split; [|done]. apply list_elem_of_In. by apply elem_of_map_to_list. }
  by rewrite E in Hin.
Qed.
