(* ===== verification/Models.v ===== *)
(** * Models: the Mongoose schemas and the document store

    One Module per schema of src/models and src/event_backend-main/models,
    each with its record [t], the defaults Mongoose fills in on creation and
    the validation the schema performs on [save()]; then the store [Db]
    (one collection per model) with the queries the controllers issue. *)

From Stdlib Require Import Ascii.
From S2P Require Import Prelude.

(** [String.prototype.trim], applied by every schema path with [trim: true]
    (ASCII white space). *)
Definition is_ws (c : Ascii.ascii) : bool :=
  match c with
  | " " | "009" | "010" | "011" | "012" | "013" => true
  | _ => false
  end%char.

Fixpoint trim_start (s : string) : string :=
  match s with
  | EmptyString => EmptyString
  | String c s' => if is_ws c then trim_start s' else s
  end.

Fixpoint trim_end (s : string) : string :=
  match s with
  | EmptyString => EmptyString
  | String c s' =>
      let r := trim_end s' in
      if is_ws c && String.eqb r "" then "" else String c r
  end.

Definition trim (s : string) : string := trim_end (trim_start s).

(** The [required] validator of a string path: present and non-empty after
    the [trim] setter ran. *)
Definition required_str (o : option string) : bool :=
  match o with
  | Some s => negb (String.eqb (trim s) "")
  | None => false
  end.

(** ** User (src/models/User.js) *)
(** Mongoose's cast to [String]: [None] is a cast error, [Some None] is
    [null]. *)
Definition cast_str (v : JsVal) : option (option string) :=
  match v with
  | JUndef | JNull => Some None
  | JStr s => Some (Some s)
  | JNum z => Some (Some (Z_to_dec z))
  | JBool b => Some (Some (if b then "true" else "false"))
  end.

(** A request value cast to a [String] path ([""] stands for a failed
    cast, which never happens on the truthy values the handlers pass). *)
Definition js_string (v : JsVal) : string :=
  match cast_str v with Some (Some s) => s | _ => "" end.

Module User.
Record t := mk {
  username : option string;
  email : string;
  password : option string;
  profileImageUrl : option string;
  bio : string;
  interestedEvents : list Id;
  followers : list Id;
  following : list Id;
  otp : option string;
  otpExpires : option Z;
  isVerified : bool
}.
End User.

(** ** Post (src/event_backend-main/models/Post.js) *)
Module Post.
Record t := mk {
  author : Id;
  title : string;
  description : string;
  mediaUrls : list string;
  interestedCount : Z;
  commentCount : Z;
  isEvent : bool;
  eventDateTime : option Z;
  location : option string;
  interestedUsers : list Id;
  attendedUsers : list Id;
  createdAt : Z
}.
End Post.

(** ** Chat (src/models/Chat.js) *)
Module Chat.
Record t := mk {
  postId : Id;
  isGroupChat : bool;
  groupName : string;
  participants : list Id;
  lastMessage : option Id;
  updatedAt : Z
}.

(** [chat.participants.push(u)] *)
Definition add_participant (u : Id) (c : t) : t :=
  mk (postId c) (isGroupChat c) (groupName c) (push (participants c) u)
     (lastMessage c) (updatedAt c).

(** [chat.lastMessage = m] *)
Definition set_lastMessage (m : Id) (c : t) : t :=
  mk (postId c) (isGroupChat c) (groupName c) (participants c)
     (Some m) (updatedAt c).

(** [save()] with [timestamps: true] refreshes [updatedAt]. *)
Definition touch (now : Z) (c : t) : t :=
  mk (postId c) (isGroupChat c) (groupName c) (participants c)
     (lastMessage c) now.

(** Schema validation: [groupName] is required (after [trim]); the
    uniqueness of [postId] is an index of the store, checked by [Db]. *)
Definition valid (c : t) : bool := required_str (Some (groupName c)).
End Chat.

(** ** Message (src/event_backend-main/models/Message.js) *)
Module Message.
Inductive mtype := Text | Image | Video.

#[export] Instance mtype_eq_dec : EqDecision mtype.
Proof. solve_decision. Defined.

(** The [enum: ['text', 'image', 'video']] validator. *)
Definition mtype_of_string (s : string) : option mtype :=
  if String.eqb s "text" then Some Text
  else if String.eqb s "image" then Some Image
  else if String.eqb s "video" then Some Video
  else None.

Record t := mk {
  chat : Id;
  sender : Id;
  content : option string;
  mediaUrl : option string;
  type : mtype;
  readBy : list Id;
  isEdited : bool;
  createdAt : Z
}.

(** [new Message({...}).save()]: the [type] string must be one of the
    enum, and [content] is required exactly when the type is text.  The
    [trim] setters apply to [content] and [mediaUrl]. *)
Definition build (chat sender : Id) (content : option string) (type : string)
    (mediaUrl : option string) (readBy : list Id) (now : Z) : option t :=
  match mtype_of_string type with
  | None => None
  | Some ty =>
      if bool_decide (ty = Text) && negb (required_str content) then None
      else Some (mk chat sender (option_map trim content)
                    (option_map trim mediaUrl) ty readBy false now)
  end.
End Message.

(** ** Notification (src/event_backend-main/models/Notification.js) *)
Module Notification.
Inductive ntype := PostLike | NewComment | Follow | NewMessage | EventReminder.

Record t := mk {
  recipient : Id;
  sender : option Id;
  type : ntype;
  message : string;
  relatedEntityId : option Id;
  isRead : bool;
  createdAt : Z
}.
End Notification.

(** ** Comment: the model file models/Comment.js is not among the sources;
    its fields are those the comment controller writes and the spec lists
    (content, author, parent post). *)
Module Comment.
Record t := mk {
  content : string;
  post : Id;
  author : Id;
  createdAt : Z
}.
End Comment.

(** ** The store

    Collections keyed by ObjectId.  Messages and comments are kept in
    insertion order, which is the order of their [createdAt] timestamps
    and the order the read handlers sort them in. *)
Record Db := mkDb {
  users : gmap Id User.t;
  posts : gmap Id Post.t;
  chats : gmap Id Chat.t;
  messages : list (Id * Message.t);
  notifications : gmap Id Notification.t;
  comments : list (Id * Comment.t)
}.

Definition set_chats (f : gmap Id Chat.t -> gmap Id Chat.t) (d : Db) : Db :=
  mkDb (users d) (posts d) (f (chats d)) (messages d) (notifications d) (comments d).

Definition set_posts (f : gmap Id Post.t -> gmap Id Post.t) (d : Db) : Db :=
  mkDb (users d) (f (posts d)) (chats d) (messages d) (notifications d) (comments d).

Definition set_users (f : gmap Id User.t -> gmap Id User.t) (d : Db) : Db :=
  mkDb (f (users d)) (posts d) (chats d) (messages d) (notifications d) (comments d).

(** [new Message(...).save()]: appended at the end of the collection. *)
Definition add_message (i : Id) (m : Message.t) (d : Db) : Db :=
  mkDb (users d) (posts d) (chats d) (messages d ++ [(i, m)])
       (notifications d) (comments d).

(** Every id present in the store. *)
Definition all_ids (d : Db) : gset Id :=
  dom (users d) ∪ dom (posts d) ∪ dom (chats d)
  ∪ list_to_set (map fst (messages d)) ∪ dom (notifications d)
  ∪ list_to_set (map fst (comments d)).

(** A new ObjectId: distinct from every id already in the store. *)
Definition new_id (d : Db) : Id := fresh (all_ids d).

(** The cast Mongoose applies to an id given as a string before it
    queries ([findById], or a filter on an ObjectId path): a string that
    is not an ObjectId raises a [CastError].  The ids of the store are
    ObjectIds, whose strings always cast, so the cast only decides the
    fate of an id the store does not have: [oid_ok] says whether it is
    well-formed (no document) or not (the error). *)
Class ObjectIds := oid_ok : Id -> bool.

(** The cast of the examples: every id is well-formed. *)
Definition any_oid : Id -> bool := fun _ => true.

(** [Chat.findOne({ postId })] *)
Definition find_chat_by_post (d : Db) (p : Id) : option (Id * Chat.t) :=
  head (List.filter (fun ic => String.eqb (Chat.postId ic.2) p)
          (map_to_list (chats d))).

(** [Chat.find({ participants: u }).select('_id')] *)
Definition chats_of_user (d : Db) (u : Id) : list Id :=
  map fst (List.filter (fun ic => includes (Chat.participants ic.2) u)
             (map_to_list (chats d))).

(** [Message.find({ chat })] in creation order. *)
Definition messages_of_chat (d : Db) (c : Id) : list (Id * Message.t) :=
  List.filter (fun im => String.eqb (Message.chat im.2) c) (messages d).

(** A verified user with a username and nothing else, for examples. *)
Definition demo_user (name : string) : User.t :=
  User.mk (Some name) (String.append name "@x.com") None None "" [] [] [] None None true.

(** ** Lemmas on the store *)

Lemma new_id_fresh d : new_id d ∉ all_ids d.
Proof. unfold new_id. exact (is_fresh (all_ids d)). Qed.

Lemma new_id_not_chat d : chats d !! new_id d = None.
Proof.
  apply not_elem_of_dom. pose proof (new_id_fresh d) as H.
  unfold all_ids in H. set_solver.
Qed.

Lemma new_id_not_user d : users d !! new_id d = None.
Proof.
  apply not_elem_of_dom. pose proof (new_id_fresh d) as H.
  unfold all_ids in H. set_solver.
Qed.

Lemma build_chat c u ct ty mu rb now m :
  Message.build c u ct ty mu rb now = Some m -> Message.chat m = c.
Proof. unfold Message.build. repeat case_match; intros; simplify_eq/=; done. Qed.

Lemma new_id_not_message d : new_id d ∉ map fst (messages d).
Proof.
  pose proof (new_id_fresh d) as H. unfold all_ids in H.
  rewrite <- (elem_of_list_to_set (C := gset string)). set_solver.
Qed.

Lemma find_chat_by_post_Some d p i c :
  find_chat_by_post d p = Some (i, c) ->
  chats d !! i = Some c /\ Chat.postId c = p.
Proof.
  unfold find_chat_by_post.
  destruct (List.filter _ _) as [|[i' c'] l] eqn:E; simpl; [done|].
  intros [= -> ->].
  assert (In (i, c) (List.filter (fun ic => String.eqb (Chat.postId ic.2) p)
                       (map_to_list (chats d)))) as Hin by (rewrite E; left; done).
  apply filter_In in Hin as [Hin Hp]. apply String.eqb_eq in Hp.
  split; [|done]. apply elem_of_map_to_list. by apply list_elem_of_In.
Qed.

Lemma find_chat_by_post_None d p :
  find_chat_by_post d p = None ->
  forall i c, chats d !! i = Some c -> Chat.postId c <> p.
Proof.
  unfold find_chat_by_post.
  destruct (List.filter _ _) as [|ic l] eqn:E; simpl; [|done].
  intros _ i c Hi Hp.
  assert (In (i, c) (List.filter (fun ic => String.eqb (Chat.postId ic.2) p)
                       (map_to_list (chats d)))) as Hin.
  { apply filter_In. split.
    - apply list_elem_of_In. by apply elem_of_map_to_list.
    - simpl. by apply String.eqb_eq. }
  rewrite E in Hin. done.
Qed.

Lemma elem_of_chats_of_user d u i :
  i ∈ chats_of_user d u <->
  exists c, chats d !! i = Some c /\ u ∈ Chat.participants c.
Proof.
  unfold chats_of_user. rewrite list_elem_of_fmap. split.
  - intros ([i' c] & -> & Hin). apply list_elem_of_In, filter_In in Hin as [Hin Hu].
    exists c. split; [by apply elem_of_map_to_list, list_elem_of_In|].
    by apply includes_spec.
  - intros (c & Hi & Hu). exists (i, c). split; [done|].
    apply list_elem_of_In, filter_In. split.
    + apply list_elem_of_In. by apply elem_of_map_to_list.
    + by apply includes_spec.
Qed.
