(* ===== verification/Token.v ===== *)
(** * Token: the interface of the JSON Web Token library

    [jsonwebtoken] is a library the sources only call: [jwt.sign(payload,
    secret, { expiresIn })] in src/controllers/authController.js and
    [jwt.verify(token, secret)] in the HTTP middleware and in the socket
    middleware of src/server.js.  Both clients are proved against the class
    [TokenService]: a signed token verifies to its payload until its expiry
    (seconds since the epoch, compared with [Math.floor(Date.now()/1000)]),
    and not afterwards.  [DecJwt] is an instance (a token is the decimal
    form of an encoding of the payload and its expiry), so the class is
    satisfiable and the examples compute. *)

From S2P Require Import Prelude.

(** The decoded payload, as far as the code reads it: [decoded.user.id]
    (the shape [generateToken] signs), [decoded._id] and [decoded.id]. *)
Record Payload := mkPayload {
  pl_user : option Id;
  pl__id : option Id;
  pl_id : option Id
}.

#[export] Instance payload_eq_dec : EqDecision Payload.
Proof. solve_decision. Defined.

#[export] Program Instance payload_countable : Countable Payload :=
  inj_countable' (fun p => (pl_user p, pl__id p, pl_id p))
                 (fun t => mkPayload t.1.1 t.1.2 t.2) _.
Next Obligation. by intros []. Qed.

Class TokenService := {
  (** [jwt.sign(payload, secret, { expiresIn: ttl })] at time [now] (ms). *)
  jwt_sign : Payload -> Z -> Z -> string;
  (** [jwt.verify(token, secret)] at time [now] (ms); [None] when it throws. *)
  jwt_verify : string -> Z -> option Payload;
  jwt_verify_sign p ttl now now' :
    jwt_verify (jwt_sign p ttl now) now' =
      if Z.ltb (now' / 1000) (now / 1000 + ttl) then Some p else None;
  (** A token is never the empty string. *)
  jwt_sign_nonempty p ttl now : jwt_sign p ttl now <> "";
  (** A token is base64url text and dots: it has no space. *)
  jwt_sign_no_space p ttl now : no_space (jwt_sign p ttl now) = true
}.

(** ** An instance *)

Definition dec_sign (p : Payload) (ttl now : Z) : string :=
  N_to_dec (Npos (encode (p, now / 1000 + ttl)%Z)).

Definition dec_verify (t : string) (now : Z) : option Payload :=
  match dec_to_N t with
  | Some (Npos e) =>
      match decode (A := Payload * Z) e with
      | Some (p, exp) => if Z.ltb (now / 1000) exp then Some p else None
      | None => None
      end
  | _ => None
  end.

Lemma dec_verify_sign p ttl now now' :
  dec_verify (dec_sign p ttl now) now' =
    if Z.ltb (now' / 1000) (now / 1000 + ttl) then Some p else None.
Proof. unfold dec_verify, dec_sign. by rewrite dec_to_N_N_to_dec, decode_encode. Qed.

Lemma dec_sign_nonempty p ttl now : dec_sign p ttl now <> "".
Proof.
  unfold dec_sign. intros E.
  pose proof (dec_to_N_N_to_dec (Npos (encode (p, now / 1000 + ttl)%Z))) as H.
  by rewrite E in H.
Qed.

#[export] Instance DecJwt : TokenService :=
  {| jwt_sign := dec_sign; jwt_verify := dec_verify; jwt_verify_sign := dec_verify_sign;
     jwt_sign_nonempty := dec_sign_nonempty;
     jwt_sign_no_space := fun p ttl now => no_space_N_to_dec _ |}.
