(* ===== verification/Realtime.v ===== *)
(** * Realtime: the Socket.IO server state the gateway relies on

    Socket.IO is a library, not code of this repository; what is modelled
    here is the behaviour of the calls the sources make on it:
    [socket.join(room)], [io.in(room).socketsJoin(room')],
    [socket.emit(ev, data)], [io.to(room).emit(ev, data)] and the removal of
    a disconnected socket from every room.  The state is the table of
    connected sockets, the room table and the ordered log of events
    emitted to sockets.  [World] pairs it with the document store. *)

From S2P Require Import Prelude Models.

Abbreviation SockId := N (only parsing).

(** A message as broadcast by [receiveMessage]: the saved document with
    [sender] populated with [username] and [profileImageUrl] ([None] when
    the sender document is missing: Mongoose populates [null]). *)
Record PopMessage := mkPop {
  pm_id : Id;
  pm_msg : Message.t;
  pm_sender : option (Id * option string * option string)
}.

Inductive Event :=
  | ReceiveMessage (m : PopMessage)
  | SendMessageError (msg : string).

(** The connection handler of src/server.js runs in two parts around its
    [await Chat.find(...)]: a socket is [Joining] until the snapshot of its
    chat rooms is joined and its [sendMessage] listener is registered, then
    [Ready].  [sock_user] is [socket.user.id] when the token carried a
    [user] object; a socket without it is connected but its handler threw
    before joining anything.  A disconnected socket stays in the table as
    [Closed]: Socket.IO never reuses a socket id, so the log of emitted
    events keeps naming the user each event went to. *)
Inductive Phase := Joining | Ready | Closed.

Record Sock := mkSock {
  sock_user : option Id;
  sock_phase : Phase
}.

Record Io := mkIo {
  sockets : gmap SockId Sock;
  rooms : gmap string (gset SockId);
  outbox : list (SockId * Event)
}.

Record World := mkWorld {
  db : Db;
  io : Io
}.

Definition members (o : Io) (r : string) : gset SockId :=
  default ∅ (rooms o !! r).

(** [socket.join(r)] *)
Definition io_join (s : SockId) (r : string) (o : Io) : Io :=
  mkIo (sockets o) (<[r := {[s]} ∪ members o r]> (rooms o)) (outbox o).

(** [socket.join(r)] for every room of a list, in order. *)
Definition io_join_all (s : SockId) (rs : list string) (o : Io) : Io :=
  fold_left (fun o' r => io_join s r o') rs o.

(** [io.in(from).socketsJoin(to)]: every socket of room [from] joins [to]. *)
Definition io_sockets_join (from to : string) (o : Io) : Io :=
  mkIo (sockets o) (<[to := members o from ∪ members o to]> (rooms o)) (outbox o).

(** [socket.emit(ev)] *)
Definition io_emit (s : SockId) (e : Event) (o : Io) : Io :=
  mkIo (sockets o) (rooms o) (outbox o ++ [(s, e)]).

(** [io.to(r).emit(ev)]: one copy to every socket of the room. *)
Definition io_emit_room (r : string) (e : Event) (o : Io) : Io :=
  mkIo (sockets o) (rooms o)
       (outbox o ++ map (fun s => (s, e)) (elements (members o r))).

Definition io_set_sock (s : SockId) (k : Sock) (o : Io) : Io :=
  mkIo (<[s := k]> (sockets o)) (rooms o) (outbox o).

(** Disconnection: the socket is closed and leaves every room. *)
Definition io_disconnect (s : SockId) (o : Io) : Io :=
  mkIo (alter (fun k => mkSock (sock_user k) Closed) s (sockets o))
       ((fun m => m ∖ {[s]}) <$> rooms o) (outbox o).

Definition set_db (d : Db) (w : World) : World := mkWorld d (io w).
Definition set_io (o : Io) (w : World) : World := mkWorld (db w) o.

(** ** Room membership after each library call *)

Lemma members_join s r o r' :
  members (io_join s r o) r' =
    if decide (r = r') then {[s]} ∪ members o r' else members o r'.
Proof.
  unfold members, io_join. simpl. rewrite lookup_insert.
  case_decide; subst; done.
Qed.

Lemma elem_of_members_join s r o r' s' :
  s' ∈ members (io_join s r o) r' <-> (s' = s /\ r = r') \/ s' ∈ members o r'.
Proof. rewrite members_join. case_decide; set_solver. Qed.

Lemma elem_of_members_join_all s rs o r' s' :
  s' ∈ members (io_join_all s rs o) r' <-> (s' = s /\ r' ∈ rs) \/ s' ∈ members o r'.
Proof.
  revert o. induction rs as [|r rs IH]; intros o; simpl.
  - set_solver.
  - rewrite IH, elem_of_members_join, elem_of_cons. naive_solver.
Qed.

Lemma elem_of_members_sockets_join from to o r s :
  s ∈ members (io_sockets_join from to o) r <->
  (r = to /\ s ∈ members o from) \/ s ∈ members o r.
Proof.
  unfold members, io_sockets_join. simpl. rewrite lookup_insert.
  case_decide; subst; simpl; [|naive_solver].
  fold (members o from) (members o r). set_solver.
Qed.

Lemma members_emit s e o r : members (io_emit s e o) r = members o r.
Proof. done. Qed.

Lemma members_emit_room r' e o r : members (io_emit_room r' e o) r = members o r.
Proof. done. Qed.

Lemma elem_of_members_disconnect s o r s' :
  s' ∈ members (io_disconnect s o) r <-> s' ∈ members o r /\ s' <> s.
Proof.
  unfold members, io_disconnect. simpl. rewrite lookup_fmap.
  destruct (rooms o !! r); simpl; set_solver.
Qed.

Lemma sockets_join_all s rs o : sockets (io_join_all s rs o) = sockets o.
Proof. revert o. induction rs; intros o; simpl; [done|]. by rewrite IHrs. Qed.

Lemma outbox_join_all s rs o : outbox (io_join_all s rs o) = outbox o.
Proof. revert o. induction rs; intros o; simpl; [done|]. by rewrite IHrs. Qed.

#[export] Hint Rewrite elem_of_members_join elem_of_members_join_all
  elem_of_members_sockets_join members_emit members_emit_room
  elem_of_members_disconnect sockets_join_all outbox_join_all : backend_simpl.

(** [socketsJoin] a second time changes nothing. *)
Lemma io_sockets_join_idem from to o :
  io_sockets_join from to (io_sockets_join from to o) = io_sockets_join from to o.
Proof.
  unfold io_sockets_join. simpl. f_equal. rewrite insert_insert_eq. f_equal.
  unfold members. simpl. rewrite lookup_insert_eq, lookup_insert.
  case_decide; simpl; set_solver.
Qed.
