(* ===== verification/Chat.v ===== *)
(** * Chat: src/event_backend-main/controllers/chatController.js

    The group chat of an event post: [joinPostGroupChat] creates it on the
    first join (author and joiner as participants), appends a new
    participant otherwise, and subscribes every live socket of the joiner
    to the chat's room.  The read handlers check participation.  An id
    the store does not have answers 404 when it casts to an ObjectId and
    500 otherwise (the [CastError] caught by the handler).  Theorems:
    the join is idempotent, it establishes membership and subscription, it
    keeps one chat per post and duplicate-free participant lists except
    when the author opens the chat of their own post. *)

From S2P Require Import Prelude Models Realtime.
From stdpp Require Import sorting.
Set Warnings "-clear-no-such-hyp".

(** [Chat.create({ postId, groupName, participants, isGroupChat: true })]:
    the schema validates [groupName] and the unique index on [postId]
    rejects a second chat for the same post. *)
Definition create_chat (d : Db) (postId groupName : Id) (participants : list Id)
    (now : Z) : option (Id * Chat.t) :=
  let c := Chat.mk postId true (trim groupName) participants None now in
  if negb (Chat.valid c) then None
  else match find_chat_by_post d postId with
       | Some _ => None
       | None => Some (new_id d, c)
       end.

(** [joinPostGroupChat] (lines 6-46).  The response carries the chat with
    its id; the populated participant profiles are not modelled. *)
Definition joinPostGroupChat (oid_ok : Id -> bool) (userId postId : Id) (now : Z) (w : World)
    : World * Res (Id * Chat.t) :=
  let d := db w in
  let finish d' cid chat :=
    (mkWorld d' (io_sockets_join userId cid (io w)), Ok 200 (cid, chat)) in
  match posts d !! postId with
  | None => if oid_ok postId then (w, Err 404 "Post not found") else (w, Err 500 "Server error")
  | Some post =>
      if negb (Post.isEvent post) then (w, Err 400 "This post does not have a group chat.")
      else match find_chat_by_post d postId with
           | Some (cid, chat) =>
               if includes (Chat.participants chat) userId then finish d cid chat
               else
                 let chat' := Chat.touch now (Chat.add_participant userId chat) in
                 finish (set_chats (<[cid := chat']>) d) cid chat'
           | None =>
               match create_chat d postId (Post.title post)
                       [Post.author post; userId] now with
               | None => (w, Err 500 "Server error")
               | Some (cid, chat) => finish (set_chats (<[cid := chat]>) d) cid chat
               end
           end
  end.

(** [getUserChats] (lines 49-64): the chats the user takes part in, most
    recently updated first. *)
Definition updated_later (a b : Id * Chat.t) : Prop :=
  (Chat.updatedAt b.2 <= Chat.updatedAt a.2)%Z.

#[export] Instance updated_later_dec : RelDecision updated_later.
Proof. intros a b. unfold updated_later. apply _. Defined.

Definition getUserChats (userId : Id) (d : Db) : Res (list (Id * Chat.t)) :=
  Ok 200 (merge_sort updated_later
            (List.filter (fun ic => includes (Chat.participants ic.2) userId)
               (map_to_list (chats d)))).

(** [getGroupMessages] (lines 67-90). *)
Definition getGroupMessages (oid_ok : Id -> bool) (userId chatId : Id) (d : Db)
    : Res (list (Id * Message.t)) :=
  match chats d !! chatId with
  | None => if oid_ok chatId then Err 404 "Chat not found" else Err 500 "Server error"
  | Some chat =>
      if negb (includes (Chat.participants chat) userId)
      then Err 403 "You are not a participant in this chat"
      else Ok 200 (messages_of_chat d chatId)
  end.

(** [getChatByPostId] (lines 93-113). *)
Definition getChatByPostId (oid_ok : Id -> bool) (userId postId : Id) (d : Db)
    : Res (Id * Chat.t) :=
  match find_chat_by_post d postId with
  | None =>
      if oid_ok postId then Err 404 "No group chat found for this post"
      else Err 500 "Server error"
  | Some (cid, chat) =>
      if negb (includes (Chat.participants chat) userId)
      then Err 403 "You do not have access to this chat."
      else Ok 200 (cid, chat)
  end.

(** ** Invariants of the chat collection *)

(** One chat per post (the unique index on [postId]). *)
Definition one_chat_per_post (d : Db) : Prop :=
  forall i j ci cj, chats d !! i = Some ci -> chats d !! j = Some cj ->
  Chat.postId ci = Chat.postId cj -> i = j.

(** No participant is listed twice. *)
Definition participants_nodup (d : Db) : Prop :=
  forall i c, chats d !! i = Some c -> NoDup (Chat.participants c).

(** A decidable check of [one_chat_per_post]: the post ids of the chats,
    listed in store order, are pairwise distinct. *)
Definition chat_posts_distinct (d : Db) : Prop :=
  NoDup (map (fun ic => Chat.postId ic.2) (map_to_list (chats d))).

#[export] Instance chat_posts_distinct_dec d : Decision (chat_posts_distinct d).
Proof. unfold chat_posts_distinct. apply _. Defined.

(** ** A concrete store for the examples: user [a] authored the event
    post [p1] (no chat yet), user [b] is another user. *)
Definition demo_post : Post.t :=
  Post.mk "a" "Meetup" "Monthly meetup" [] 0 0 true (Some 1000%Z) (Some "Hall")
    [] [] 0.

Definition demo_db : Db :=
  mkDb ∅ (<["p1" := demo_post]> ∅) ∅ [] ∅ [].

Definition demo_world : World := mkWorld demo_db (mkIo ∅ ∅ []).

(** The chat of [p1] after [b] opened it. *)
Definition demo_chat_b : Chat.t := Chat.mk "p1" true "Meetup" ["a"; "b"] None 5.

(** ** Lemmas *)

Lemma create_chat_Some d p g ps now cid c :
  create_chat d p g ps now = Some (cid, c) ->
  cid = new_id d /\ find_chat_by_post d p = None /\
  c = Chat.mk p true (trim g) ps None now.
Proof.
  unfold create_chat. case_match; [done|].
  destruct (find_chat_by_post d p); [done|]. by intros [= <- <-].
Qed.

Lemma chat_posts_distinct_one d : chat_posts_distinct d -> one_chat_per_post d.
Proof.
  unfold chat_posts_distinct. intros Hnd i j ci cj Hi Hj Hp.
  apply elem_of_map_to_list in Hi, Hj.
  pose proof (NoDup_map_eq_elem _ _ _ _ Hnd Hi Hj Hp) as E. by simplify_eq.
Qed.

(** Under the invariant, [Chat.findOne({ postId })] finds exactly the chat
    of the post. *)
Lemma find_chat_by_post_unique d p i c :
  one_chat_per_post d -> chats d !! i = Some c -> Chat.postId c = p ->
  find_chat_by_post d p = Some (i, c).
Proof.
  intros Hone Hi Hp. destruct (find_chat_by_post d p) as [[j c']|] eqn:Hf.
  - apply find_chat_by_post_Some in Hf as [Hj Hp'].
    assert (j = i) as -> by (eapply Hone; [exact Hj|exact Hi|congruence]).
    congruence.
  - exfalso. by eapply find_chat_by_post_None.
Qed.

Lemma one_chat_per_post_insert_same d i c c' :
  one_chat_per_post d -> chats d !! i = Some c -> Chat.postId c' = Chat.postId c ->
  one_chat_per_post (set_chats (<[i := c']>) d).
Proof.
  intros Hone Hi Hp j k cj ck. simpl. rewrite !lookup_insert.
  repeat case_decide; intros Hj Hk Hjk; simplify_eq; try done;
    (eapply Hone; [eassumption|eassumption|congruence]).
Qed.

Lemma one_chat_per_post_insert_new d i c :
  one_chat_per_post d -> find_chat_by_post d (Chat.postId c) = None ->
  one_chat_per_post (set_chats (<[i := c]>) d).
Proof.
  intros Hone Hnone j k cj ck. simpl. rewrite !lookup_insert.
  pose proof (find_chat_by_post_None _ _ Hnone) as Hn.
  repeat case_decide; intros Hj Hk Hjk; simplify_eq; try done;
    first [by eapply Hone | exfalso; eapply Hn; [eassumption|congruence]].
Qed.

Lemma set_chats_insert_id d i c :
  chats d !! i = Some c -> set_chats (<[i := c]>) d = d.
Proof. intros H. destruct d; unfold set_chats; simpl in *. by rewrite insert_id. Qed.

Section Join.
Variable oid_ok : Id -> bool.

(** ** What a join does, by branch *)

(** A failed join changes nothing. *)
Lemma joinPostGroupChat_err u p t w w' k m :
  joinPostGroupChat oid_ok u p t w = (w', Err k m) -> w' = w.
Proof.
  unfold joinPostGroupChat. intros E.
  repeat (case_match; simplify_eq/=; try done).
Qed.

(** A successful join stores the chat of the post with the user among its
    participants and subscribes the user's room to the chat's room; the
    chat is the existing one (unchanged, or with the user appended) or a new
    one with the author and the user. *)
Lemma joinPostGroupChat_ok u p t w w' k cid c :
  joinPostGroupChat oid_ok u p t w = (w', Ok k (cid, c)) ->
  exists post, posts (db w) !! p = Some post /\ Post.isEvent post = true /\
  k = 200%Z /\
  w' = mkWorld (set_chats (<[cid := c]>) (db w)) (io_sockets_join u cid (io w)) /\
  Chat.postId c = p /\ u ∈ Chat.participants c /\
  ((exists c0, find_chat_by_post (db w) p = Some (cid, c0) /\
      ((u ∈ Chat.participants c0 /\ c = c0) \/
       (u ∉ Chat.participants c0 /\ c = Chat.touch t (Chat.add_participant u c0)))) \/
   (find_chat_by_post (db w) p = None /\ cid = new_id (db w) /\
    c = Chat.mk p true (trim (Post.title post)) [Post.author post; u] None t)).
Proof.
  unfold joinPostGroupChat.
  destruct (posts (db w) !! p) as [post|] eqn:Hp; [|by destruct (oid_ok p)].
  destruct (Post.isEvent post) eqn:He; simpl; [|done].
  destruct (find_chat_by_post (db w) p) as [[i c0]|] eqn:Hf.
  - pose proof (find_chat_by_post_Some _ _ _ _ Hf) as [Hc0 Hpc0].
    case_includes; intros [= <- <- <- <-]; exists post; split_and!; try done.
    + by rewrite set_chats_insert_id.
    + left. eauto.
    + apply elem_of_push. by right.
    + left. eauto.
  - destruct (create_chat _ _ _ _ _) as [[i c']|] eqn:Hcr; [|done].
    apply create_chat_Some in Hcr as (-> & _ & ->).
    intros [= <- <- <- <-]. exists post. split_and!; try done.
    + set_solver.
    + by right.
Qed.

(** The error answer of a join does not depend on the clock. *)
Lemma joinPostGroupChat_err_time u p t t' w k m :
  joinPostGroupChat oid_ok u p t w = (w, Err k m) -> joinPostGroupChat oid_ok u p t' w = (w, Err k m).
Proof.
  unfold joinPostGroupChat, create_chat. simpl.
  destruct (posts (db w) !! p) as [post|]; [|done].
  destruct (Post.isEvent post); simpl; [|done].
  destruct (find_chat_by_post (db w) p) as [[i c]|].
  - by case_includes; intros H; discriminate H.
  - unfold Chat.valid, required_str. simpl.
    destruct (String.eqb (trim (trim (Post.title post))) ""); simpl;
      first [intros H; discriminate H | tauto].
Qed.

(** After a successful join, the store keeps one chat per post and the
    post's chat is the one returned. *)
Lemma joinPostGroupChat_ok_store u p t w w' k cid c :
  one_chat_per_post (db w) -> joinPostGroupChat oid_ok u p t w = (w', Ok k (cid, c)) ->
  one_chat_per_post (db w') /\ chats (db w') !! cid = Some c /\
  find_chat_by_post (db w') p = Some (cid, c).
Proof.
  intros Hone E.
  apply joinPostGroupChat_ok in E as (post & _ & _ & _ & -> & Hpc & _ & Hcase).
  assert (one_chat_per_post (set_chats (<[cid := c]>) (db w))) as Hone'.
  { destruct Hcase as [(c0 & Hf & Hc)|(Hf & _ & _)].
    - apply find_chat_by_post_Some in Hf as [Hc0 Hp0].
      eapply one_chat_per_post_insert_same; [done|done|]. congruence.
    - apply one_chat_per_post_insert_new; [done|]. by rewrite Hpc. }
  assert (chats (set_chats (<[cid := c]>) (db w)) !! cid = Some c) as Hc
    by apply lookup_insert_eq.
  split_and!; [done|done|]. by apply find_chat_by_post_unique.
Qed.

(** ** Properties of [joinPostGroupChat] *)

(** C2: joining the group chat of a post a second time
    (at any later time) changes nothing and gives the same answer: the
    participant is not appended twice and the store is not written. *)
Theorem joinPostGroupChat_idempotent u p t t' w :
  one_chat_per_post (db w) ->
  joinPostGroupChat oid_ok u p t' (joinPostGroupChat oid_ok u p t w).1 = joinPostGroupChat oid_ok u p t w.
Proof.
  intros Hone. destruct (joinPostGroupChat oid_ok u p t w) as [w1 [k [cid c]|k m]] eqn:E; simpl.
  - pose proof (joinPostGroupChat_ok_store _ _ _ _ _ _ _ _ Hone E) as (_ & _ & Hf).
    apply joinPostGroupChat_ok in E as (post & Hp & He & -> & -> & _ & Hu & _).
    cbn [db io] in Hf. unfold joinPostGroupChat at 1. cbn [db io]. rewrite Hf.
    change (posts (set_chats (<[cid:=c]>) (db w))) with (posts (db w)).
    rewrite Hp, He. cbn [negb]. apply includes_spec in Hu. rewrite Hu. cbn [negb].
    by rewrite io_sockets_join_idem.
  - pose proof (joinPostGroupChat_err _ _ _ _ _ _ _ E) as ->.
    by apply (joinPostGroupChat_err_time _ _ t).
Qed.

(** A successful join leaves the post's chat in the store
    with the user among its participants, and every live socket of the user
    (the sockets in the room named by the user id) subscribed to the chat's
    room. *)
Theorem joinPostGroupChat_member_subscribed u p t w w' k cid c :
  joinPostGroupChat oid_ok u p t w = (w', Ok k (cid, c)) ->
  chats (db w') !! cid = Some c /\ Chat.postId c = p /\
  u ∈ Chat.participants c /\ members (io w') u ⊆ members (io w') cid.
Proof.
  intros E. apply joinPostGroupChat_ok in E as (_ & _ & _ & _ & -> & Hp & Hu & _).
  split_and!; [apply lookup_insert_eq|done|done|]. cbn [io].
  intros s. rewrite !elem_of_members_sockets_join. naive_solver.
Qed.

(** C19: a join keeps at most one chat per post: it creates
    the chat only when the post has none. *)
Theorem joinPostGroupChat_one_chat_per_post u p t w :
  one_chat_per_post (db w) -> one_chat_per_post (db (joinPostGroupChat oid_ok u p t w).1).
Proof.
  intros Hone. destruct (joinPostGroupChat oid_ok u p t w) as [w' [k [cid c]|k m]] eqn:E.
  - by eapply joinPostGroupChat_ok_store.
  - by apply joinPostGroupChat_err in E as ->.
Qed.

(** C20: a join keeps every participant list free of
    duplicates, provided that when it creates the chat the joiner is not the
    post's author (the chat is created with [[post.author, userId]]). *)
Theorem joinPostGroupChat_participants_nodup u p t w :
  participants_nodup (db w) ->
  (forall post, posts (db w) !! p = Some post ->
     find_chat_by_post (db w) p = None -> Post.author post <> u) ->
  participants_nodup (db (joinPostGroupChat oid_ok u p t w).1).
Proof.
  intros Hnd Hauth. destruct (joinPostGroupChat oid_ok u p t w) as [w' [k [cid c]|k m]] eqn:E.
  - apply joinPostGroupChat_ok in E as (post & Hp & _ & _ & -> & _ & _ & Hcase).
    intros i ci. simpl. rewrite lookup_insert.
    case_decide as Hi; [intros [= <-]|by apply Hnd]. subst i.
    destruct Hcase as [(c0 & Hf & [[_ ->]|[Hu ->]])|(Hf & _ & ->)].
    + apply find_chat_by_post_Some in Hf as [Hc0 _]. by eapply Hnd.
    + apply find_chat_by_post_Some in Hf as [Hc0 _]. apply NoDup_push; [|done].
      by eapply Hnd.
    + simpl. apply NoDup_cons. split; [|apply NoDup_singleton].
      rewrite list_elem_of_singleton. by apply Hauth.
  - by apply joinPostGroupChat_err in E as ->.
Qed.

(** C21: the side condition is needed: whenever the author of an event
    post is the first to join its group chat, the chat is created and
    stored with the author listed twice, [[post.author, userId]] with
    [userId = post.author]. *)
Theorem joinPostGroupChat_author_duplicate p now w post :
  posts (db w) !! p = Some post -> Post.isEvent post = true ->
  find_chat_by_post (db w) p = None ->
  Chat.valid (Chat.mk p true (trim (Post.title post)) [] None now) = true ->
  let a := Post.author post in
  let c := Chat.mk p true (trim (Post.title post)) [a; a] None now in
  ((joinPostGroupChat oid_ok a p now w).2 = Ok 200 (new_id (db w), c) /\
   chats (db (joinPostGroupChat oid_ok a p now w).1) !! new_id (db w) = Some c /\
   ~ NoDup (Chat.participants c)).
Proof.
  intros Hp He Hf Hv a c. unfold joinPostGroupChat, create_chat.
  rewrite Hp, He, Hf. simpl. unfold Chat.valid in *. simpl in *. rewrite Hv. simpl.
  split_and!; [done|by rewrite lookup_insert_eq|].
  rewrite NoDup_cons, list_elem_of_singleton. tauto.
Qed.

End Join.

(** ** Examples *)

Lemma joinPostGroupChat_idempotent_witness :
  one_chat_per_post (db demo_world) /\
  joinPostGroupChat any_oid "b" "p1" 7 (joinPostGroupChat any_oid "b" "p1" 5 demo_world).1 =
  joinPostGroupChat any_oid "b" "p1" 5 demo_world.
Proof.
  assert (one_chat_per_post (db demo_world)) as H.
  { apply chat_posts_distinct_one. decide_by_eval. }
  split; [exact H|]. apply joinPostGroupChat_idempotent. exact H.
Defined.

Lemma joinPostGroupChat_member_subscribed_witness :
  let w' := (joinPostGroupChat any_oid "b" "p1" 5 demo_world).1 in
  chats (db w') !! "0" = Some demo_chat_b /\ Chat.postId demo_chat_b = "p1" /\
  "b" ∈ Chat.participants demo_chat_b /\ members (io w') "b" ⊆ members (io w') "0".
Proof.
  apply (joinPostGroupChat_member_subscribed any_oid "b" "p1" 5 demo_world _ 200).
  vm_compute. reflexivity.
Defined.

Lemma joinPostGroupChat_one_chat_per_post_witness :
  one_chat_per_post (db demo_world) /\
  one_chat_per_post (db (joinPostGroupChat any_oid "b" "p1" 5 demo_world).1).
Proof.
  assert (one_chat_per_post (db demo_world)) as H.
  { apply chat_posts_distinct_one. decide_by_eval. }
  split; [exact H|]. by apply joinPostGroupChat_one_chat_per_post.
Defined.

Lemma joinPostGroupChat_participants_nodup_witness :
  participants_nodup (db demo_world) /\
  participants_nodup (db (joinPostGroupChat any_oid "b" "p1" 5 demo_world).1).
Proof.
  assert (participants_nodup (db demo_world)) as H.
  { intros i c. simpl. by rewrite lookup_empty. }
  split; [exact H|]. apply joinPostGroupChat_participants_nodup; [exact H|].
  intros post Hp _. vm_compute in Hp.
  injection Hp as <-. discriminate.
Defined.

Lemma joinPostGroupChat_author_duplicate_witness :
  posts (db demo_world) !! "p1" = Some demo_post /\
  (joinPostGroupChat any_oid "a" "p1" 5 demo_world).2 =
    Ok 200 (new_id (db demo_world), Chat.mk "p1" true "Meetup" ["a"; "a"] None 5).
Proof.
  assert (Hp : posts (db demo_world) !! "p1" = Some demo_post) by reflexivity.
  split; [exact Hp|].
  exact (proj1 (joinPostGroupChat_author_duplicate any_oid "p1" 5 demo_world demo_post Hp
                  eq_refl eq_refl eq_refl)).
Defined.
