(* ===== verification/Gateway.v ===== *)
(** * Gateway: the real-time handlers of src/server.js

    The socket middleware authenticates a connection with the token of its
    handshake ([io_auth], lines 44-54); the connection handler joins the
    user's personal room (lines 57-61) and, once [Chat.find] returns, the
    room of every chat the user takes part in, then registers the
    [sendMessage] listener (lines 64-74).  [sendMessage] (lines 74-106)
    awaits four times; [send_step] is one resumption of the handler, and
    [sendMessage] is the same handler run without interruption.  [step] is
    the server as a transition system: connections, snapshots, handler
    resumptions of many concurrent sends, HTTP joins and disconnections in
    any interleaving.  [Chat.findById] of an id the store does not have
    answers "not found" when the id casts ([oid_ok]) and fails the
    handler otherwise (the [CastError] is caught).  Theorems: the safety
    invariant of the room table and of the event log (a [receiveMessage]
    only ever reaches a participant), the refinement of the atomic
    handler by the stepped one, the eventual delivery of a participant's
    send from any state, the error path of a non-participant, and the
    interleavings of any two sends in one chat that leave [lastMessage]
    pointing at the older message and deliver out of order. *)

From S2P Require Import Prelude Models Token Realtime Chat.
Set Warnings "-clear-no-such-hyp".

(** ** The socket middleware (lines 44-54) *)

Inductive Handshake :=
  | HsReject (msg : string)
  | HsAccept (user : option Id).

(** [socket.handshake.auth.token] is [token]; [socket.user = decoded.user]. *)
Definition io_auth `{TokenService} (token : option string) (now : Z) : Handshake :=
  match token with
  | None => HsReject "Authentication error: No token provided."
  | Some t =>
      if String.eqb t "" then HsReject "Authentication error: No token provided."
      else match jwt_verify t now with
           | None => HsReject "Authentication error: Invalid token."
           | Some p => HsAccept (pl_user p)
           end
  end.

(** ** The connection handler *)

(** Lines 57-61: the socket is registered and joins the room named by its
    user id.  When the token carried no [user], [socket.user.id] throws and
    the handler stops before joining anything. *)
Definition on_connection (s : SockId) (user : option Id) (o : Io) : Io :=
  let o1 := io_set_sock s (mkSock user Joining) o in
  match user with
  | Some u => io_join s u o1
  | None => o1
  end.

(** Lines 64-74, when [Chat.find({ participants: u })] returns: the socket
    joins the room of each chat of the snapshot, and the [sendMessage]
    listener is registered. *)
Definition join_snapshot (s : SockId) (u : Id) (w : World) : World :=
  let o := io_join_all s (chats_of_user (db w) u) (io w) in
  set_io (io_set_sock s (mkSock (Some u) Ready) o) w.

(** ** [sendMessage] (lines 74-106) *)

(** The event payload; [type] defaults to ['text'] and [mediaUrl] to
    [null] when absent (line 76). *)
Record SendData := mkSendData {
  chatRoomId : option string;
  content : option string;
  msgType : option string;
  mediaUrl : option string
}.

Definition msg_type (dt : SendData) : string := default "text" (msgType dt).

Definition err_not_participant : string :=
  "Chat not found or you are not a participant.".
Definition err_failed : string := "Failed to send message.".

(** [savedMessage.populate('sender', 'username profileImageUrl')] *)
Definition populate_sender (d : Db) (u : Id) : option (Id * option string * option string) :=
  match users d !! u with
  | Some usr => Some (u, User.username usr, User.profileImageUrl usr)
  | None => None
  end.

(** The handler run from start to end without interruption. *)
Definition sendMessage `{ObjectIds} (s : SockId) (senderId : Id) (dt : SendData) (now : Z)
    (w : World) : World :=
  let d := db w in
  let fail msg := set_io (io_emit s (SendMessageError msg) (io w)) w in
  match chatRoomId dt with
  | None => fail err_not_participant
  | Some cid =>
      match chats d !! cid with
      | None => if oid_ok cid then fail err_not_participant else fail err_failed
      | Some chat =>
          if negb (includes (Chat.participants chat) senderId) then fail err_not_participant
          else
            match Message.build cid senderId (content dt) (msg_type dt) (mediaUrl dt)
                    [senderId] now with
            | None => fail err_failed
            | Some m =>
                let mid := new_id d in
                let d1 := add_message mid m d in
                let d2 := set_chats (<[cid := Chat.touch now (Chat.set_lastMessage mid chat)]>) d1 in
                let pm := mkPop mid m (populate_sender d2 senderId) in
                mkWorld d2 (io_emit_room cid (ReceiveMessage pm) (io w))
            end
      end
  end.

(** Where a running handler is suspended: at [Chat.findById] (line 79), at
    [newMessage.save()] (line 93), at [chat.save()] (line 96), at
    [populate] (line 98). *)
Inductive SendPc :=
  | SFind
  | SSave (cid : Id) (chat : Chat.t)
  | SChatSave (cid : Id) (chat : Chat.t) (mid : Id) (m : Message.t)
  | SPopulate (cid : Id) (mid : Id) (m : Message.t).

Record SendTask := mkTask {
  t_sock : SockId;
  t_sender : Id;
  t_data : SendData;
  t_pc : SendPc
}.

(** One resumption of a suspended handler at time [now]: the awaited
    operation takes effect on the store, the handler runs to its next
    await ([Some]) or to its end ([None]).  [chat.save()] writes the paths
    the handler modified ([lastMessage], and [updatedAt]) onto the chat as
    it is in the store at that moment. *)
Definition send_step `{ObjectIds} (k : SendTask) (now : Z) (w : World) : World * option SendTask :=
  let s := t_sock k in
  let u := t_sender k in
  let dt := t_data k in
  let fail msg := (set_io (io_emit s (SendMessageError msg) (io w)) w, None) in
  let next pc := mkTask s u dt pc in
  match t_pc k with
  | SFind =>
      match chatRoomId dt with
      | None => fail err_not_participant
      | Some cid =>
          match chats (db w) !! cid with
          | None => if oid_ok cid then fail err_not_participant else fail err_failed
          | Some chat =>
              if negb (includes (Chat.participants chat) u) then fail err_not_participant
              else (w, Some (next (SSave cid chat)))
          end
      end
  | SSave cid chat =>
      match Message.build cid u (content dt) (msg_type dt) (mediaUrl dt) [u] now with
      | None => fail err_failed
      | Some m =>
          let mid := new_id (db w) in
          (set_db (add_message mid m (db w)) w, Some (next (SChatSave cid chat mid m)))
      end
  | SChatSave cid chat mid m =>
      match chats (db w) !! cid with
      | None => fail err_failed
      | Some cur =>
          let d' := set_chats (<[cid := Chat.touch now (Chat.set_lastMessage mid cur)]>) (db w) in
          (set_db d' w, Some (next (SPopulate cid mid m)))
      end
  | SPopulate cid mid m =>
      let pm := mkPop mid m (populate_sender (db w) u) in
      (set_io (io_emit_room cid (ReceiveMessage pm) (io w)) w, None)
  end.

(** The number of resumptions a handler still needs. *)
Definition pc_rank (pc : SendPc) : nat :=
  match pc with
  | SFind => 4
  | SSave _ _ => 3
  | SChatSave _ _ _ _ => 2
  | SPopulate _ _ _ => 1
  end.

(** Resuming the same handler [n] times in a row. *)
Fixpoint send_run `{ObjectIds} (n : nat) (k : SendTask) (now : Z) (w : World) : World :=
  match n with
  | O => w
  | S n' =>
      match send_step k now w with
      | (w', Some k') => send_run n' k' now w'
      | (w', None) => w'
      end
  end.

(** ** The server as a transition system *)

Record Sys := mkSys {
  world : World;
  tasks : gmap N SendTask
}.

(** A task is resumed: it moves to its next await or leaves the pool. *)
Definition resume `{ObjectIds} (i : N) (k : SendTask) (now : Z) (S : Sys) : Sys :=
  match send_step k now (world S) with
  | (w', Some k') => mkSys w' (<[i := k']> (tasks S))
  | (w', None) => mkSys w' (delete i (tasks S))
  end.

(** The transitions of the server other than handler resumptions. *)
Definition sys_connect (s : SockId) (u : option Id) (S : Sys) : Sys :=
  mkSys (set_io (on_connection s u (io (world S))) (world S)) (tasks S).

Definition sys_snapshot (s : SockId) (u : Id) (S : Sys) : Sys :=
  mkSys (join_snapshot s u (world S)) (tasks S).

(** A [sendMessage] event arrives: its handler starts, suspended at its first
    await, under a new pool index. *)
Definition sys_send (s : SockId) (u : Id) (dt : SendData) (S : Sys) : Sys :=
  mkSys (world S) (<[fresh (dom (tasks S)) := mkTask s u dt SFind]> (tasks S)).

(** [POST /api/chat/join/:postId], run as one atomic step. *)
Definition sys_join `{ObjectIds} (u p : Id) (now : Z) (S : Sys) : Sys :=
  mkSys (joinPostGroupChat oid_ok u p now (world S)).1 (tasks S).

Definition sys_disconnect (s : SockId) (S : Sys) : Sys :=
  mkSys (set_io (io_disconnect s (io (world S))) (world S)) (tasks S).

(** Connections are accepted only for tokens the middleware verifies; the
    server signs tokens only for stored users and never deletes a user, so
    the user of an accepted token, and the caller of an HTTP request, is a
    stored user. *)
Inductive step `{TokenService} `{ObjectIds} : Sys -> Sys -> Prop :=
  | step_connect S s tok now u :
      sockets (io (world S)) !! s = None ->
      io_auth tok now = HsAccept u ->
      (forall x, u = Some x -> is_Some (users (db (world S)) !! x)) ->
      step S (sys_connect s u S)
  | step_snapshot S s u :
      sockets (io (world S)) !! s = Some (mkSock (Some u) Joining) ->
      step S (sys_snapshot s u S)
  | step_send S s u dt :
      sockets (io (world S)) !! s = Some (mkSock (Some u) Ready) ->
      step S (sys_send s u dt S)
  | step_resume S i k now :
      tasks S !! i = Some k ->
      step S (resume i k now S)
  | step_join S u p now :
      is_Some (users (db (world S)) !! u) ->
      step S (sys_join u p now S)
  | step_disconnect S s :
      is_Some (sockets (io (world S)) !! s) ->
      step S (sys_disconnect s S).

(** ** The invariant *)

(** User ids and chat ids are distinct ObjectIds. *)
Definition ids_disjoint (d : Db) : Prop :=
  forall x, is_Some (users d !! x) -> chats d !! x = None.

(** Every authenticated socket belongs to a stored user. *)
Definition socks_users (w : World) : Prop :=
  forall s k u, sockets (io w) !! s = Some k -> sock_user k = Some u ->
  is_Some (users (db w) !! u).

(** A socket is in a room only as its personal room or as the room of a
    chat its user takes part in. *)
Definition rooms_ok (w : World) : Prop :=
  forall r s, s ∈ members (io w) r ->
  exists k u, sockets (io w) !! s = Some k /\ sock_user k = Some u /\
    (r = u \/ exists c, chats (db w) !! r = Some c /\ u ∈ Chat.participants c).

(** Every [receiveMessage] event went to a socket of a participant of the
    message's chat. *)
Definition outbox_ok (w : World) : Prop :=
  forall s pm, (s, ReceiveMessage pm) ∈ outbox (io w) ->
  exists k u c, sockets (io w) !! s = Some k /\ sock_user k = Some u /\
    chats (db w) !! Message.chat (pm_msg pm) = Some c /\ u ∈ Chat.participants c.

(** A suspended handler refers to an existing chat, and the message it
    saved belongs to that chat. *)
Definition task_ok (w : World) (k : SendTask) : Prop :=
  match t_pc k with
  | SFind => True
  | SSave cid _ => is_Some (chats (db w) !! cid)
  | SChatSave cid _ _ m | SPopulate cid _ m =>
      is_Some (chats (db w) !! cid) /\ Message.chat m = cid
  end.

Definition world_inv (w : World) : Prop :=
  ids_disjoint (db w) /\ socks_users w /\ rooms_ok w /\ outbox_ok w.

Definition sys_inv (S : Sys) : Prop :=
  world_inv (world S) /\ map_Forall (fun _ k => task_ok (world S) k) (tasks S).

(** Frames of a step: every socket keeps its user, every chat keeps its
    participants (and may gain more). *)
Definition socks_keep (o o' : Io) : Prop :=
  forall s k, sockets o !! s = Some k ->
  exists k', sockets o' !! s = Some k' /\ sock_user k' = sock_user k.

Definition chats_grow (d d' : Db) : Prop :=
  forall i c, chats d !! i = Some c ->
  exists c', chats d' !! i = Some c' /\ Chat.participants c ⊆ Chat.participants c'.

Definition reachable `{TokenService} `{ObjectIds} (S0 S : Sys) : Prop := rtc step S0 S.

(** A freshly started server over a given store: no socket, no room, no
    event, no running handler. *)
Definition init_sys (d : Db) : Sys := mkSys (mkWorld d (mkIo ∅ ∅ [])) ∅.

(** Resuming the handler with pool index [i], if there is one. *)
Definition resume_at `{ObjectIds} (i : N) (now : Z) (S : Sys) : Sys :=
  match tasks S !! i with
  | Some k => resume i k now S
  | None => S
  end.

(** The events a socket received, in order. *)
Definition events_to (o : Io) (s : SockId) : list Event :=
  map snd (List.filter (fun e => bool_decide (e.1 = s)) (outbox o)).

(** The messages a socket received by [receiveMessage], in order. *)
Definition received (o : Io) (s : SockId) : list PopMessage :=
  omap (fun e => match e with ReceiveMessage pm => Some pm | _ => None end)
       (events_to o s).

(** The examples cast every id. *)
#[local] Instance demo_oids : ObjectIds := any_oid.

(** ** A store for the examples: the author [a] of event post [p1], and
    users [b], [c], [d]. *)

Definition gw_db : Db :=
  mkDb (<["a" := demo_user "a"]> (<["b" := demo_user "b"]>
         (<["c" := demo_user "c"]> (<["d" := demo_user "d"]> ∅))))
       (<["p1" := demo_post]> ∅) ∅ [] ∅ [].

(** A token [generateToken] would sign for [u] at time 0. *)
Definition demo_token (u : Id) : string :=
  jwt_sign (mkPayload (Some u) None None) 7776000 0.

Definition gw_cid : Id := new_id gw_db.

Definition say (cid text : string) : SendData := mkSendData (Some cid) (Some text) None None.

(** The example of the specification: [b] and [c] join the chat of [p1]
    (created by the first join, with the author [a]), [b], [c] and [d] are
    connected, [b] sends a message and its handler runs to its end, then
    [d], who takes no part in the chat, sends one. *)
Definition scenario_sys : Sys :=
  resume_at 0 5 (sys_send 2 "d" (say gw_cid "hi")
  (resume_at 0 4 (resume_at 0 4 (resume_at 0 4 (resume_at 0 4
  (sys_send 0 "b" (say gw_cid "hello")
  (sys_join "c" "p1" 3 (sys_join "b" "p1" 2
  (sys_snapshot 2 "d" (sys_connect 2 (Some "d")
  (sys_snapshot 1 "c" (sys_connect 1 (Some "c")
  (sys_snapshot 0 "b" (sys_connect 0 (Some "b") (init_sys gw_db))))))))))))))).

(** The store and sockets after [b], then [c], joined the chat of [p1]. *)
Definition join_world : World :=
  world (sys_join "c" "p1" 3 (sys_join "b" "p1" 2 (init_sys gw_db))).

Definition gw_chat : Chat.t := Chat.mk "p1" true "Meetup" ["a"; "b"; "c"] None 3.

(** ** The handler, step by step and in one go *)

(** Resuming a [sendMessage] handler four times in a row, with
    nothing interleaved, computes exactly the uninterrupted handler. *)
Theorem send_run_sendMessage `{ObjectIds} s u dt now w :
  send_run 4 (mkTask s u dt SFind) now w = sendMessage s u dt now w.
Proof.
  unfold send_run, sendMessage. cbn [send_step t_pc t_sock t_sender t_data].
  destruct (chatRoomId dt) as [cid|]; [|done].
  destruct (chats (db w) !! cid) as [chat|] eqn:Hc; [|by destruct (oid_ok cid)].
  destruct (includes (Chat.participants chat) u); [|done]. cbn.
  destruct (Message.build _ _ _ _ _ _ _) as [m|]; [|done]. cbn.
  by rewrite Hc.
Qed.

(** Every resumption of a suspended handler either ends it or leaves it
    strictly closer to its end. *)
Lemma send_step_rank `{ObjectIds} k now w w' k' :
  send_step k now w = (w', Some k') -> pc_rank (t_pc k') < pc_rank (t_pc k).
Proof.
  destruct k as [s u dt pc]. unfold send_step. cbn [t_pc t_sock t_sender t_data].
  intros E. destruct pc; simplify_eq/=; repeat (case_match; simplify_eq/=); lia.
Qed.

(** ** Frame lemmas *)

Lemma socks_keep_same o o' : sockets o' = sockets o -> socks_keep o o'.
Proof. intros E s k H. rewrite E. eauto. Qed.

Lemma chats_grow_same d d' : chats d' = chats d -> chats_grow d d'.
Proof. intros E i c H. rewrite E. eauto. Qed.

Lemma chats_grow_insert d i c :
  (forall c0, chats d !! i = Some c0 -> Chat.participants c0 ⊆ Chat.participants c) ->
  chats_grow d (set_chats (<[i := c]>) d).
Proof.
  intros Hc j cj Hj. simpl. rewrite lookup_insert. case_decide; subst; eauto.
Qed.

Lemma chats_grow_is_Some d d' i :
  chats_grow d d' -> is_Some (chats d !! i) -> is_Some (chats d' !! i).
Proof. intros Hg [c Hc]. destruct (Hg _ _ Hc) as (c' & -> & _). eauto. Qed.

Lemma task_ok_grow w w' k :
  chats_grow (db w) (db w') -> task_ok w k -> task_ok w' k.
Proof.
  intros Hg. unfold task_ok.
  destruct (t_pc k); naive_solver eauto using chats_grow_is_Some.
Qed.

(** A step that keeps sockets and grows chats keeps the room table well
    formed when every new membership is itself well formed. *)
Lemma rooms_ok_step w w' :
  rooms_ok w -> socks_keep (io w) (io w') -> chats_grow (db w) (db w') ->
  (forall r s, s ∈ members (io w') r -> s ∈ members (io w) r \/
     exists k u, sockets (io w') !! s = Some k /\ sock_user k = Some u /\
       (r = u \/ exists c, chats (db w') !! r = Some c /\ u ∈ Chat.participants c)) ->
  rooms_ok w'.
Proof.
  intros Hr Hk Hg Hnew r s Hs. destruct (Hnew r s Hs) as [Hold|]; [|done].
  destruct (Hr r s Hold) as (k & u & Hsk & Hu & Hru).
  destruct (Hk _ _ Hsk) as (k' & Hsk' & Hu'). exists k', u. split_and!; [done|congruence|].
  destruct Hru as [->|(c & Hc & Hin)]; [by left|right].
  destruct (Hg _ _ Hc) as (c' & Hc' & Hsub'). eauto.
Qed.

(** The event log only grows, by events that are themselves well aimed. *)
Lemma outbox_ok_extend w w' new :
  outbox_ok w -> socks_keep (io w) (io w') -> chats_grow (db w) (db w') ->
  outbox (io w') = (outbox (io w) ++ new)%list ->
  (forall s pm, (s, ReceiveMessage pm) ∈ new ->
     exists k u c, sockets (io w') !! s = Some k /\ sock_user k = Some u /\
       chats (db w') !! Message.chat (pm_msg pm) = Some c /\ u ∈ Chat.participants c) ->
  outbox_ok w'.
Proof.
  intros Ho Hk Hg Hout Hnew s pm. rewrite Hout, elem_of_app. intros [Hin|Hin]; [|by apply Hnew].
  destruct (Ho _ _ Hin) as (k & u & c & Hsk & Hu & Hc & Hp).
  destruct (Hk _ _ Hsk) as (k' & Hsk' & Hu'). destruct (Hg _ _ Hc) as (c' & Hc' & Hsub).
  exists k', u, c'. split_and!; [done|congruence|done|by apply Hsub].
Qed.

Lemma tasks_ok_grow w w' (ts : gmap N SendTask) :
  chats_grow (db w) (db w') ->
  map_Forall (fun _ k => task_ok w k) ts -> map_Forall (fun _ k => task_ok w' k) ts.
Proof. intros Hg H. eapply map_Forall_impl; [exact H|]. eauto using task_ok_grow. Qed.

Lemma socks_keep_insert o o' s k' :
  sockets o' = <[s := k']> (sockets o) ->
  (forall k, sockets o !! s = Some k -> sock_user k' = sock_user k) ->
  socks_keep o o'.
Proof.
  intros Ho' Hk s0 k0 Hs0. rewrite Ho', lookup_insert. case_decide; subst; eauto.
Qed.

Lemma ids_disjoint_insert d i c :
  ids_disjoint d -> users d !! i = None \/ is_Some (chats d !! i) ->
  ids_disjoint (set_chats (<[i := c]>) d).
Proof.
  intros Hd Hi x Hx. simpl in *. rewrite lookup_insert. case_decide; subst; [|by apply Hd].
  destruct Hi as [Hi|Hi]; [by rewrite Hi in Hx; destruct Hx|].
  by rewrite (Hd _ Hx) in Hi; destruct Hi.
Qed.

(** A socket in the personal room of a stored user is that user's socket:
    no chat has a user's id. *)
Lemma rooms_ok_user_room w u s :
  world_inv w -> is_Some (users (db w) !! u) -> s ∈ members (io w) u ->
  exists k, sockets (io w) !! s = Some k /\ sock_user k = Some u.
Proof.
  intros (Hd & _ & Hr & _) Hu Hs. destruct (Hr _ _ Hs) as (k & x & Hk & Hx & [->|(c & Hc & _)]).
  - eauto.
  - by rewrite (Hd _ Hu) in Hc.
Qed.

(** A socket in the room of an existing chat is a participant's socket. *)
Lemma rooms_ok_chat_room w cid s :
  world_inv w -> is_Some (chats (db w) !! cid) -> s ∈ members (io w) cid ->
  exists k u c, sockets (io w) !! s = Some k /\ sock_user k = Some u /\
    chats (db w) !! cid = Some c /\ u ∈ Chat.participants c.
Proof.
  intros (Hd & Hsu & Hr & _) [c0 Hc0] Hs. destruct (Hr _ _ Hs) as (k & x & Hk & Hx & [->|Hc]).
  - destruct (Hsu _ _ _ Hk Hx) as [usr Hu]. by rewrite (Hd x) in Hc0.
  - destruct Hc as (c & Hc & Hp). eauto 10.
Qed.

(** An error reply to the sender keeps the invariant. *)
Lemma world_inv_emit_error w s msg :
  world_inv w -> world_inv (set_io (io_emit s (SendMessageError msg) (io w)) w).
Proof.
  intros Hw. pose proof Hw as (Hd & Hsu & Hr & Ho). split_and!; try done.
  eapply outbox_ok_extend; [exact Ho|by apply socks_keep_same|by apply chats_grow_same|done|].
  by intros ?? [=]%list_elem_of_singleton.
Qed.

(** A step that keeps the users and the sockets, grows the chats and keeps
    ids disjoint keeps the invariant. *)
Lemma world_inv_grow w w' :
  world_inv w -> users (db w') = users (db w) -> io w' = io w ->
  chats_grow (db w) (db w') -> ids_disjoint (db w') -> world_inv w'.
Proof.
  intros (Hd & Hsu & Hr & Ho) Hu Hio Hg Hd'. split_and!.
  - done.
  - intros s k x. rewrite Hu, Hio. apply Hsu.
  - apply (rooms_ok_step w); [done|by rewrite Hio; apply socks_keep_same|done|].
    rewrite Hio. by left.
  - eapply outbox_ok_extend; [exact Ho|by rewrite Hio; apply socks_keep_same|done| |].
    + by rewrite Hio, app_nil_r.
    + by intros ?? ?%not_elem_of_nil.
Qed.

Local Ltac send_fail :=
  intros [= <- <-]; split_and!;
  [by apply world_inv_emit_error | by apply chats_grow_same | done].

(** One resumption of a handler keeps the invariant, grows the chats, and
    leaves the handler (if it is still running) well formed. *)
Lemma send_step_inv `{ObjectIds} k now w w' ok' :
  world_inv w -> task_ok w k -> send_step k now w = (w', ok') ->
  world_inv w' /\ chats_grow (db w) (db w') /\
  (forall k', ok' = Some k' -> task_ok w' k').
Proof.
  intros Hw Ht. pose proof Hw as (Hd & Hsu & Hr & Ho).
  destruct k as [s u dt pc]. unfold send_step, task_ok in *.
  cbn [t_pc t_sock t_sender t_data] in *.
  destruct pc as [|cid chat|cid chat mid m|cid mid m].
  - repeat case_match; first [send_fail|intros [= <- <-]].
    split_and!; [done|by apply chats_grow_same|].
    intros ? [= <-]. simpl. eexists; eassumption.
  - destruct (Message.build _ _ _ _ _ _ _) as [m|] eqn:Hb; [|send_fail].
    intros [= <- <-]. split_and!.
    + by apply (world_inv_grow w); [| | |apply chats_grow_same|].
    + by apply chats_grow_same.
    + intros ? [= <-]. simpl. split; [done|]. by eapply build_chat.
  - destruct Ht as [[cur Hc] Hm]. rewrite Hc.
    assert (chats_grow (db w) (set_chats (<[cid := Chat.touch now (Chat.set_lastMessage mid cur)]>) (db w))).
    { apply chats_grow_insert. intros c0 Hc0. rewrite Hc in Hc0. by simplify_eq. }
    intros [= <- <-]. split_and!; [|done|].
    + apply (world_inv_grow w); try done. apply ids_disjoint_insert; eauto.
    + intros ? [= <-]. simpl. split; [|done]. rewrite lookup_insert_eq. eauto.
  - destruct Ht as [Hc Hm]. intros [= <- <-]. split_and!; [split_and!; try done| |done].
    + eapply outbox_ok_extend; [exact Ho|by apply socks_keep_same|by apply chats_grow_same|done|].
      intros s' pm (s'' & [= -> ->] & Hs'')%list_elem_of_fmap. simpl. rewrite Hm.
      apply elem_of_elements in Hs''. by apply rooms_ok_chat_room.
    + by apply chats_grow_same.
Qed.

(** ** Each kind of step keeps the invariant *)

Lemma sockets_on_connection s u o :
  sockets (on_connection s u o) = <[s := mkSock u Joining]> (sockets o).
Proof. by destruct u. Qed.

Lemma outbox_on_connection s u o : outbox (on_connection s u o) = outbox o.
Proof. by destruct u. Qed.

Lemma elem_of_members_on_connection s u o r s' :
  s' ∈ members (on_connection s u o) r <-> (s' = s /\ u = Some r) \/ s' ∈ members o r.
Proof.
  destruct u as [x|]; simpl; [|naive_solver].
  rewrite elem_of_members_join. unfold members; simpl. naive_solver.
Qed.

Lemma world_inv_connect w s u :
  world_inv w -> sockets (io w) !! s = None ->
  (forall x, u = Some x -> is_Some (users (db w) !! x)) ->
  world_inv (set_io (on_connection s u (io w)) w).
Proof.
  intros Hw Hs Hu. pose proof Hw as (Hd & Hsu & Hr & Ho).
  assert (Hk : socks_keep (io w) (on_connection s u (io w))).
  { eapply socks_keep_insert; [apply sockets_on_connection|]. by rewrite Hs. }
  split_and!; [done| | |].
  - intros s' k x. simpl. rewrite sockets_on_connection, lookup_insert.
    case_decide; [intros [= <-] Hx; by apply Hu|apply Hsu].
  - apply (rooms_ok_step w); [done|done|by apply chats_grow_same|].
    intros r s'. simpl. rewrite elem_of_members_on_connection.
    intros [[-> ->]|?]; [right|by left]. exists (mkSock (Some r) Joining), r.
    rewrite sockets_on_connection, lookup_insert_eq. eauto.
  - eapply outbox_ok_extend; [exact Ho|done|by apply chats_grow_same| |].
    + simpl. by rewrite outbox_on_connection, app_nil_r.
    + by intros ?? ?%not_elem_of_nil.
Qed.

Lemma world_inv_snapshot w s u :
  world_inv w -> sockets (io w) !! s = Some (mkSock (Some u) Joining) ->
  world_inv (join_snapshot s u w).
Proof.
  intros Hw Hs. pose proof Hw as (Hd & Hsu & Hr & Ho). unfold join_snapshot.
  assert (Hset : sockets (io_set_sock s (mkSock (Some u) Ready)
                   (io_join_all s (chats_of_user (db w) u) (io w)))
                 = <[s := mkSock (Some u) Ready]> (sockets (io w))).
  { simpl. by rewrite sockets_join_all. }
  assert (Hk : socks_keep (io w) (io_set_sock s (mkSock (Some u) Ready)
                 (io_join_all s (chats_of_user (db w) u) (io w)))).
  { eapply socks_keep_insert; [exact Hset|]. rewrite Hs. by intros ? [= <-]. }
  split_and!; [done| | |].
  - intros s' k x. simpl. rewrite sockets_join_all, lookup_insert.
    case_decide; [subst; intros [= <-] [= <-]; by eapply Hsu|apply Hsu].
  - apply (rooms_ok_step w); [done|done|by apply chats_grow_same|].
    intros r s'. unfold members; simpl. fold (members (io_join_all s (chats_of_user (db w) u) (io w)) r).
    rewrite elem_of_members_join_all, elem_of_chats_of_user.
    intros [[-> Hc]|?]; [right|by left]. exists (mkSock (Some u) Ready), u.
    simpl. rewrite sockets_join_all, lookup_insert_eq. eauto.
  - eapply outbox_ok_extend; [exact Ho|done|by apply chats_grow_same| |].
    + simpl. by rewrite outbox_join_all, app_nil_r.
    + by intros ?? ?%not_elem_of_nil.
Qed.

Lemma world_inv_join `{ObjectIds} w u p now :
  world_inv w -> is_Some (users (db w) !! u) ->
  world_inv (joinPostGroupChat oid_ok u p now w).1 /\
  chats_grow (db w) (db (joinPostGroupChat oid_ok u p now w).1).
Proof.
  intros Hw Hu. pose proof Hw as (Hd & Hsu & Hr & Ho).
  destruct (joinPostGroupChat oid_ok u p now w) as [w' [k [cid c]|k m]] eqn:E; simpl;
    [|apply joinPostGroupChat_err in E as ->; split; [done|by apply chats_grow_same]].
  apply joinPostGroupChat_ok in E as (post & _ & _ & _ & -> & _ & Hin & Hcase).
  assert (Hg : chats_grow (db w) (set_chats (<[cid := c]>) (db w))).
  { apply chats_grow_insert. intros c0 Hc0.
    destruct Hcase as [(c1 & Hf & [[_ ->]|[_ ->]])|(_ & -> & _)].
    - apply find_chat_by_post_Some in Hf as [Hf _]. by simplify_eq.
    - apply find_chat_by_post_Some in Hf as [Hf _]. simplify_eq.
      intros x Hx. simpl. apply elem_of_push. by left.
    - by rewrite new_id_not_chat in Hc0. }
  split; [|done]. split_and!.
  - apply ids_disjoint_insert; [done|].
    destruct Hcase as [(c1 & Hf & _)|(_ & -> & _)]; [right|left; apply new_id_not_user].
    apply find_chat_by_post_Some in Hf as [Hf _]. eauto.
  - intros s k0 x. simpl. apply Hsu.
  - apply (rooms_ok_step w); [done|by apply socks_keep_same|done|].
    intros r s. simpl. rewrite elem_of_members_sockets_join.
    intros [[-> Hs]|?]; [right|by left].
    destruct (rooms_ok_user_room w u s) as (k0 & Hk & Hku); [done..|].
    exists k0, u. split_and!; [done|done|]. right. exists c. by rewrite lookup_insert_eq.
  - eapply outbox_ok_extend; [exact Ho|by apply socks_keep_same|done| |].
    + simpl. by rewrite app_nil_r.
    + by intros ?? ?%not_elem_of_nil.
Qed.

Lemma world_inv_disconnect w s :
  world_inv w -> world_inv (set_io (io_disconnect s (io w)) w).
Proof.
  intros Hw. pose proof Hw as (Hd & Hsu & Hr & Ho).
  assert (Hk : socks_keep (io w) (io_disconnect s (io w))).
  { intros s' k Hs'. simpl. destruct (decide (s = s')) as [->|?].
    - rewrite lookup_alter_eq, Hs'. eauto.
    - rewrite lookup_alter_ne by done. eauto. }
  split_and!; [done| | |].
  - intros s' k x. simpl. rewrite lookup_alter_Some.
    intros [(-> & k0 & Hk0 & ->)|(_ & Hk0)]; simpl; eauto.
  - apply (rooms_ok_step w); [done|done|by apply chats_grow_same|].
    intros r s'. simpl. rewrite elem_of_members_disconnect. naive_solver.
  - eapply outbox_ok_extend; [exact Ho|done|by apply chats_grow_same| |].
    + simpl. by rewrite app_nil_r.
    + by intros ?? ?%not_elem_of_nil.
Qed.

Lemma sys_inv_resume `{ObjectIds} S i k now :
  sys_inv S -> tasks S !! i = Some k -> sys_inv (resume i k now S).
Proof.
  intros [Hw Ht] Hi. unfold resume.
  destruct (send_step k now (world S)) as [w' ok'] eqn:E.
  destruct (send_step_inv _ _ _ _ _ Hw (Ht _ _ Hi) E) as (Hw' & Hg & Hk').
  destruct ok' as [k'|]; split; simpl; try done.
  - apply map_Forall_insert_2; [by apply Hk'|]. by eapply tasks_ok_grow.
  - apply map_Forall_delete. by eapply tasks_ok_grow.
Qed.

Lemma sys_inv_step `{TokenService} `{ObjectIds} S S' : step S S' -> sys_inv S -> sys_inv S'.
Proof.
  intros Hstep [Hw Ht].
  destruct Hstep as [S s tok now u Hs _ Hu|S s u Hs|S s u dt _
    |S i k now Hi|S u p now Hu|S s _];
    unfold sys_connect, sys_snapshot, sys_send, sys_join, sys_disconnect.
  - split; [by apply world_inv_connect|]. eapply tasks_ok_grow; [|done].
    by apply chats_grow_same.
  - split; [by apply world_inv_snapshot|]. eapply tasks_ok_grow; [|done].
    by apply chats_grow_same.
  - split; [done|]. by apply map_Forall_insert_2.
  - by apply sys_inv_resume.
  - destruct (world_inv_join (world S) u p now) as [Hw' Hg]; [done..|].
    split; [done|]. by eapply tasks_ok_grow.
  - split; [by apply world_inv_disconnect|]. eapply tasks_ok_grow; [|done].
    by apply chats_grow_same.
Qed.

(** ** Reachable states *)

Lemma sys_inv_init d : ids_disjoint d -> sys_inv (init_sys d).
Proof.
  intros Hd. split; [split_and!|].
  - exact Hd.
  - intros s k u H. simpl in H. by rewrite lookup_empty in H.
  - intros r s. unfold members. simpl. rewrite lookup_empty. simpl. set_solver.
  - by intros ?? ?%not_elem_of_nil.
  - apply map_Forall_empty.
Qed.

Lemma rtc_sys_inv `{TokenService} `{ObjectIds} S S' : rtc step S S' -> sys_inv S -> sys_inv S'.
Proof. induction 1; eauto using sys_inv_step. Qed.

Lemma step_resume_at `{TokenService} `{ObjectIds} S i now :
  is_Some (tasks S !! i) -> step S (resume_at i now S).
Proof. intros [k Hk]. unfold resume_at. rewrite Hk. by constructor. Qed.

(** A suspended handler resumed [n >= pc_rank] times in a row leaves the
    pool, with the effect of running it to its end from where it stood. *)
Lemma task_completes `{TokenService} `{ObjectIds} n S i k now :
  tasks S !! i = Some k -> pc_rank (t_pc k) <= n ->
  exists S', rtc step S S' /\ tasks S' = delete i (tasks S) /\
             world S' = send_run n k now (world S).
Proof.
  revert S k. induction n as [|n IH]; intros S k Hk Hn.
  { destruct (t_pc k); simpl in Hn; lia. }
  assert (Hs : step S (resume i k now S)) by (by constructor).
  unfold resume in Hs. simpl.
  destruct (send_step k now (world S)) as [w' [k'|]] eqn:E.
  - pose proof (send_step_rank _ _ _ _ _ E) as Hr.
    destruct (IH (mkSys w' (<[i := k']> (tasks S))) k') as (S' & HS' & Ht & Hw);
      [simpl; by rewrite lookup_insert_eq|lia|].
    exists S'. split; [by eapply rtc_l|]. simpl in *.
    by rewrite Ht, delete_insert_eq.
  - exists (mkSys w' (delete i (tasks S))). split; [by apply rtc_once|done].
Qed.

(** C8: a message a participant sends is eventually delivered: from any
    state of the server where a [sendMessage] handler of a participant
    with a valid message is waiting at its first await, four resumptions
    of that handler (whatever ran before) end it, save the message under
    a new id, and emit it, with its sender populated, once to every socket
    in the chat's room. *)
Theorem send_delivered `{TokenService} `{ObjectIds} S i s u dt now cid chat m :
  tasks S !! i = Some (mkTask s u dt SFind) ->
  chatRoomId dt = Some cid -> chats (db (world S)) !! cid = Some chat ->
  u ∈ Chat.participants chat ->
  Message.build cid u (content dt) (msg_type dt) (mediaUrl dt) [u] now = Some m ->
  let d := db (world S) in
  exists S', rtc step S S' /\ tasks S' = delete i (tasks S) /\
    messages (db (world S')) = (messages d ++ [(new_id d, m)])%list /\
    outbox (io (world S')) = (outbox (io (world S)) ++
      map (fun s' => (s', ReceiveMessage (mkPop (new_id d) m (populate_sender d u))))
          (elements (members (io (world S)) cid)))%list.
Proof.
  intros Hk Hdt Hc Hu Hb d.
  destruct (task_completes 4 S i _ now Hk) as (S' & HS & Ht & Hw); [simpl; lia|].
  exists S'. rewrite Hw. apply includes_spec in Hu.
  unfold send_run, send_step. cbn [t_pc t_sock t_sender t_data]. rewrite Hdt, Hc, Hu.
  cbn. rewrite Hb. cbn. rewrite Hc. done.
Qed.

(** The four resumptions of a participant's valid send, one by one. *)
Lemma send_step_find `{ObjectIds} s u dt now w cid chat :
  chatRoomId dt = Some cid -> chats (db w) !! cid = Some chat -> u ∈ Chat.participants chat ->
  send_step (mkTask s u dt SFind) now w = (w, Some (mkTask s u dt (SSave cid chat))).
Proof.
  intros Hdt Hc Hu. unfold send_step. simpl. rewrite Hdt, Hc.
  apply includes_spec in Hu. by rewrite Hu.
Qed.

Lemma send_step_save `{ObjectIds} s u dt now w cid chat m :
  Message.build cid u (content dt) (msg_type dt) (mediaUrl dt) [u] now = Some m ->
  send_step (mkTask s u dt (SSave cid chat)) now w =
    (set_db (add_message (new_id (db w)) m (db w)) w,
     Some (mkTask s u dt (SChatSave cid chat (new_id (db w)) m))).
Proof. intros Hb. unfold send_step. simpl. by rewrite Hb. Qed.

Lemma send_step_chat_save `{ObjectIds} s u dt now w cid chat mid m cur :
  chats (db w) !! cid = Some cur ->
  send_step (mkTask s u dt (SChatSave cid chat mid m)) now w =
    (set_db (set_chats (<[cid := Chat.touch now (Chat.set_lastMessage mid cur)]>) (db w)) w,
     Some (mkTask s u dt (SPopulate cid mid m))).
Proof. intros Hc. unfold send_step. simpl. by rewrite Hc. Qed.

Lemma send_step_populate `{ObjectIds} s u dt now w cid mid m :
  send_step (mkTask s u dt (SPopulate cid mid m)) now w =
    (set_io (io_emit_room cid (ReceiveMessage (mkPop mid m (populate_sender (db w) u))) (io w)) w,
     None).
Proof. done. Qed.

Lemma resume_step `{TokenService} `{ObjectIds} S i k now w' ok :
  tasks S !! i = Some k -> send_step k now (world S) = (w', ok) ->
  step S (mkSys w' (match ok with Some k' => <[i := k']> (tasks S) | None => delete i (tasks S) end)).
Proof.
  intros Hk E. pose proof (step_resume S i k now Hk) as Hs. unfold resume in Hs.
  rewrite E in Hs. by destruct ok.
Qed.

(** Builds the trace of a concrete run, last step first. *)
Local Ltac run_trace :=
  repeat match goal with
  | |- rtc step _ (sys_connect ?s (Some ?x) ?S) =>
      eapply rtc_r; [|apply (step_connect S s (Some (demo_token x)) 0 (Some x));
        [vm_compute; reflexivity|vm_compute; reflexivity|intros ? [= <-]; decide_by_eval]]
  | |- rtc step _ (sys_snapshot ?s ?u ?S) =>
      eapply rtc_r; [|apply step_snapshot; vm_compute; reflexivity]
  | |- rtc step _ (sys_send ?s ?u ?dt ?S) =>
      eapply rtc_r; [|apply step_send; vm_compute; reflexivity]
  | |- rtc step _ (sys_join ?u ?p ?now ?S) =>
      eapply rtc_r; [|apply step_join; decide_by_eval]
  | |- rtc step _ (resume_at ?i ?now ?S) =>
      eapply rtc_r; [|apply step_resume_at; decide_by_eval]
  | |- rtc step ?S ?S => apply rtc_refl
  end.

Lemma scenario_reachable : reachable (init_sys gw_db) scenario_sys.
Proof. unfold reachable, scenario_sys. run_trace. Qed.

(** ** The socket middleware *)

(** The socket middleware accepts a token signed by the
    server exactly until it expires, and associates the connection with the
    [user] of the signed payload; an expired token is rejected as invalid. *)
Theorem io_auth_sign `{TokenService} p ttl now now' :
  io_auth (Some (jwt_sign p ttl now)) now' =
    if Z.ltb (now' / 1000) (now / 1000 + ttl) then HsAccept (pl_user p)
    else HsReject "Authentication error: Invalid token.".
Proof.
  unfold io_auth. destruct (String.eqb_spec (jwt_sign p ttl now) "") as [E|_].
  - by apply jwt_sign_nonempty in E.
  - rewrite jwt_verify_sign. by destruct (Z.ltb _ _).
Qed.

(** ** Safety of the server *)

(** In every state the server reaches from a fresh start over
    a store whose user ids and chat ids are distinct, whatever the
    interleaving of connections, joins, disconnections and concurrent
    [sendMessage] handlers, every [receiveMessage] event went to a socket of
    a participant of the message's chat, and every socket in a room is in
    its own user's room or in the room of a chat its user takes part in. *)
Theorem reachable_receive_participant `{TokenService} `{ObjectIds} d S :
  ids_disjoint d -> reachable (init_sys d) S -> outbox_ok (world S) /\ rooms_ok (world S).
Proof.
  intros Hd Hr. destruct (rtc_sys_inv _ _ Hr (sys_inv_init d Hd)) as [(_ & _ & Hro & Ho) _].
  done.
Qed.

Lemma reachable_receive_participant_witness :
  ids_disjoint gw_db /\ outbox_ok (world scenario_sys) /\ rooms_ok (world scenario_sys).
Proof.
  assert (Hd : ids_disjoint gw_db).
  { intros x Hx. apply lookup_empty. }
  split; [exact Hd|]. exact (reachable_receive_participant gw_db scenario_sys Hd scenario_reachable).
Defined.

(** ** [sendMessage] *)

(** C4: when the sender is not a participant of the chat, the
    first resumption of its handler ends it: the store is unchanged (no
    message is saved, no chat is updated) and the only event emitted is one
    [sendMessageError] to the sending socket. *)
Theorem send_step_not_participant `{ObjectIds} s u dt now w cid chat :
  chatRoomId dt = Some cid -> chats (db w) !! cid = Some chat ->
  u ∉ Chat.participants chat ->
  send_step (mkTask s u dt SFind) now w =
    (mkWorld (db w) (io_emit s (SendMessageError err_not_participant) (io w)), None).
Proof.
  intros Hdt Hc Hu. unfold send_step. cbn [t_pc t_sock t_sender t_data].
  rewrite Hdt, Hc. apply includes_false in Hu. by rewrite Hu.
Qed.

Lemma send_step_not_participant_witness :
  send_step (mkTask 3 "d" (say "0" "hi") SFind) 5 join_world =
    (mkWorld (db join_world)
       (io_emit 3 (SendMessageError err_not_participant) (io join_world)), None).
Proof.
  apply (send_step_not_participant 3 "d" (say "0" "hi") 5 join_world "0" gw_chat).
  - reflexivity.
  - vm_compute. reflexivity.
  - apply includes_false. vm_compute. reflexivity.
Defined.

(** C5: when the sender is a participant and the message is
    valid, the handler saves the message at the end of the collection under
    a new id, points the chat's [lastMessage] at it (refreshing
    [updatedAt]), and broadcasts it, with its sender populated, once to
    every socket in the chat's room. *)
Theorem sendMessage_ok `{ObjectIds} s u dt now w cid chat m :
  chatRoomId dt = Some cid -> chats (db w) !! cid = Some chat ->
  u ∈ Chat.participants chat ->
  Message.build cid u (content dt) (msg_type dt) (mediaUrl dt) [u] now = Some m ->
  let mid := new_id (db w) in
  let w' := sendMessage s u dt now w in
  messages (db w') = (messages (db w) ++ [(mid, m)])%list /\
  chats (db w') !! cid = Some (Chat.touch now (Chat.set_lastMessage mid chat)) /\
  outbox (io w') = (outbox (io w) ++
    map (fun s' => (s', ReceiveMessage (mkPop mid m (populate_sender (db w) u))))
        (elements (members (io w) cid)))%list.
Proof.
  intros Hdt Hc Hu Hb. unfold sendMessage. rewrite Hdt, Hc.
  apply includes_spec in Hu. rewrite Hu, Hb. simpl. split_and!; [done| |done].
  by rewrite lookup_insert_eq.
Qed.

Lemma sendMessage_ok_witness :
  Message.build "0" "b" (Some "hello") "text" None ["b"] 4
    = Some (Message.mk "0" "b" (Some "hello") None Message.Text ["b"] false 4) /\
  messages (db (sendMessage 0 "b" (say "0" "hello") 4 join_world)) =
    [(new_id (db join_world), Message.mk "0" "b" (Some "hello") None Message.Text ["b"] false 4)].
Proof.
  split; [reflexivity|].
  destruct (sendMessage_ok 0 "b" (say "0" "hello") 4 join_world "0" gw_chat
              (Message.mk "0" "b" (Some "hello") None Message.Text ["b"] false 4))
    as [-> _].
  - reflexivity.
  - vm_compute. reflexivity.
  - apply includes_spec. vm_compute. reflexivity.
  - vm_compute. reflexivity.
  - vm_compute. reflexivity.
Defined.

(** ** Runs of the server *)

(** The example run of the specification: after [b] and
    [c] joined the chat of event post [p1] and [b] sent "hello", each of the
    connected participants [b] and [c] received exactly one
    [receiveMessage] event, carrying the content and the populated sender;
    [d], connected but not a participant, received nothing but the scoped
    [sendMessageError] answering its own send, and only one message was
    saved. *)
Example scenario_delivery :
  reachable (init_sys gw_db) scenario_sys /\
  (exists pm, received (io (world scenario_sys)) 0 = [pm] /\
     received (io (world scenario_sys)) 1 = [pm] /\
     Message.content (pm_msg pm) = Some "hello" /\
     pm_sender pm = Some ("b", Some "b", None)) /\
  events_to (io (world scenario_sys)) 2 = [SendMessageError err_not_participant] /\
  length (messages (db (world scenario_sys))) = 1.
Proof.
  split; [exact scenario_reachable|].
  vm_compute. split; [|split; reflexivity]. eexists. split_and!; reflexivity.
Qed.

(** C6: the handlers of two participants' sends in the same chat can
    interleave so that the chat's [lastMessage] is left pointing at the
    older message and the room receives the messages in the opposite of
    the order in which they were saved: from any state where both are
    waiting at their first await, the first saves its message, then the
    second runs to its end, then the first finishes.  The code does not
    keep the ordering the specification promises. *)
Theorem interleaved_sends_reorder `{TokenService} `{ObjectIds} S i j s1 s2 u1 u2 dt1 dt2 now cid chat m1 m2 :
  i <> j ->
  tasks S !! i = Some (mkTask s1 u1 dt1 SFind) -> tasks S !! j = Some (mkTask s2 u2 dt2 SFind) ->
  chatRoomId dt1 = Some cid -> chatRoomId dt2 = Some cid ->
  chats (db (world S)) !! cid = Some chat ->
  u1 ∈ Chat.participants chat -> u2 ∈ Chat.participants chat ->
  Message.build cid u1 (content dt1) (msg_type dt1) (mediaUrl dt1) [u1] now = Some m1 ->
  Message.build cid u2 (content dt2) (msg_type dt2) (mediaUrl dt2) [u2] now = Some m2 ->
  let d := db (world S) in
  let mid1 := new_id d in
  let mid2 := new_id (add_message mid1 m1 d) in
  let ev mid m u := map (fun s => (s, ReceiveMessage (mkPop mid m (populate_sender d u))))
                        (elements (members (io (world S)) cid)) in
  exists S', rtc step S S' /\
    messages (db (world S')) = (messages d ++ [(mid1, m1); (mid2, m2)])%list /\
    mid1 <> mid2 /\
    (chats (db (world S')) !! cid ≫= Chat.lastMessage) = Some mid1 /\
    outbox (io (world S')) = (outbox (io (world S)) ++ ev mid2 m2 u2 ++ ev mid1 m1 u1)%list.
Proof.
  intros Hij Hi Hj Hdt1 Hdt2 Hc Hu1 Hu2 Hb1 Hb2 d mid1 mid2 ev.
  eexists. split.
  { eapply rtc_l; [eapply (resume_step _ i _ now); [exact Hi|by apply send_step_find]|].
    eapply rtc_l; [eapply (resume_step _ i _ now); [simpl; by simplify_map_eq|by apply send_step_save]|].
    eapply rtc_l; [eapply (resume_step _ j _ now);
      [simpl; by simplify_map_eq|by eapply send_step_find]|].
    eapply rtc_l; [eapply (resume_step _ j _ now); [simpl; by simplify_map_eq|by apply send_step_save]|].
    eapply rtc_l; [eapply (resume_step _ j _ now);
      [simpl; by simplify_map_eq|by apply send_step_chat_save]|].
    eapply rtc_l; [eapply (resume_step _ j _ now); [simpl; by simplify_map_eq|apply send_step_populate]|].
    eapply rtc_l; [eapply (resume_step _ i _ now);
      [simpl; by simplify_map_eq
      |apply send_step_chat_save; simpl; by simplify_map_eq]|].
    eapply rtc_l; [eapply (resume_step _ i _ now); [simpl; by simplify_map_eq|apply send_step_populate]|].
    apply rtc_refl. }
  simpl. split_and!.
  - by rewrite <- app_assoc.
  - pose proof (new_id_not_message (add_message mid1 m1 d)) as Hn. simpl in Hn.
    rewrite map_app in Hn. set_solver.
  - by rewrite lookup_insert_eq.
  - by rewrite <- app_assoc.
Qed.

Lemma send_delivered_witness :
  chats (db join_world) !! "0" = Some gw_chat /\
  exists S', rtc step (mkSys join_world {[0%N := mkTask 0 "b" (say "0" "hello") SFind]}) S' /\
    tasks S' = ∅.
Proof.
  assert (Hc : chats (db join_world) !! "0" = Some gw_chat) by (vm_compute; reflexivity).
  split; [exact Hc|].
  destruct (send_delivered (mkSys join_world {[0%N := mkTask 0 "b" (say "0" "hello") SFind]})
              0 0 "b" (say "0" "hello") 4 "0" gw_chat
              (Message.mk "0" "b" (Some "hello") None Message.Text ["b"] false 4)
              ltac:(simpl; apply lookup_singleton_eq) eq_refl Hc ltac:(decide_by_eval) eq_refl)
    as (S' & HS & Ht & _).
  exists S'. split; [exact HS|]. rewrite Ht. simpl. apply delete_singleton_eq.
Defined.

Lemma interleaved_sends_reorder_witness :
  chats (db join_world) !! "0" = Some gw_chat /\
  exists S', rtc step (mkSys join_world {[0%N := mkTask 0 "b" (say "0" "one") SFind;
                                          1%N := mkTask 1 "c" (say "0" "two") SFind]}) S' /\
    (chats (db (world S')) !! "0" ≫= Chat.lastMessage) = Some (new_id (db join_world)).
Proof.
  assert (Hc : chats (db join_world) !! "0" = Some gw_chat) by (vm_compute; reflexivity).
  split; [exact Hc|].
  destruct (interleaved_sends_reorder
              (mkSys join_world {[0%N := mkTask 0 "b" (say "0" "one") SFind;
                                  1%N := mkTask 1 "c" (say "0" "two") SFind]})
              0 1 0 1 "b" "c" (say "0" "one") (say "0" "two") 4 "0" gw_chat
              (Message.mk "0" "b" (Some "one") None Message.Text ["b"] false 4)
              (Message.mk "0" "c" (Some "two") None Message.Text ["c"] false 4)
              ltac:(discriminate) ltac:(vm_compute; reflexivity) ltac:(vm_compute; reflexivity)
              eq_refl eq_refl Hc ltac:(decide_by_eval) ltac:(decide_by_eval) eq_refl eq_refl)
    as (S' & HS & _ & _ & Hl & _).
  exists S'. split; [exact HS|exact Hl].
Defined.
