(* ===== verification/Posts.v ===== *)
(** * Posts: src/controllers/postController.js

    The post handlers over the store: creation and update with the casts
    and validation Mongoose applies to the request body, deletion, the
    interest toggle with its counter, attendance marking and the
    attendance toggle, the lists (all posts, interested, attended, feed)
    and [joinInterestGroup].  Request values are [JsVal]s as
    [express.json()] or [multer] deliver them.  The runtime's parser of
    date strings and Mongoose's ObjectId check are variables of the
    section [Handlers]: every theorem holds for any of them.

    Theorems: the interest toggle keeps the counter equal to the number of
    interested users and never negative, toggling twice restores the post;
    attendance marking checks its guards in the code's order and rejects a
    duplicate; the feed falls back to every post; every handler keeps the
    collection valid ([posts_valid], the schema's type invariant); and
    counterexamples for
    the attendance toggle (no guard at all), [joinInterestGroup] (always
    fails) and [createPost] (a non-event with an event date). *)

From S2P Require Import Prelude Models Realtime Chat.
From stdpp Require Import sorting.
Set Warnings "-clear-no-such-hyp".

(** ** Casts of request values *)

(** Mongoose's cast to [Boolean] ([convertToTrue] and [convertToFalse]).
    [null] is stored as [null], which every read of the code ([!isEvent],
    the query [isEvent: true]) treats as [false]. *)
Definition cast_bool (v : JsVal) : option bool :=
  match v with
  | JBool b => Some b
  | JNull => Some false
  | JNum z => if (z =? 1)%Z then Some true else if (z =? 0)%Z then Some false else None
  | JStr s =>
      if String.eqb s "true" || String.eqb s "1" || String.eqb s "yes" then Some true
      else if String.eqb s "false" || String.eqb s "0" || String.eqb s "no" then Some false
      else None
  | JUndef => None
  end.

(** [isEvent === 'true' || isEvent === true] (line 36). *)
Definition is_true_lit (v : JsVal) : bool :=
  match v with
  | JBool true => true
  | JStr s => String.eqb s "true"
  | _ => false
  end.

(** The request body of [createPost] and [updatePost]. *)
Record PostBody := mkPostBody {
  pb_title : JsVal;
  pb_description : JsVal;
  pb_isEvent : JsVal;
  pb_eventDateTime : JsVal;
  pb_location : JsVal;
  pb_clearExistingMedia : JsVal
}.

(** The schema's validators (src/event_backend-main/models/Post.js): the
    required, trimmed [title] of at most 100 characters and [description]
    of at most 1000, and the counters' [min: 0]. *)
Definition post_valid (p : Post.t) : bool :=
  negb (String.eqb (Post.title p) "") && (String.length (Post.title p) <=? 100)%nat &&
  negb (String.eqb (Post.description p) "") &&
  (String.length (Post.description p) <=? 1000)%nat &&
  (0 <=? Post.interestedCount p)%Z && (0 <=? Post.commentCount p)%Z.

(** [post.save()]: validation, then the write. *)
Definition save_post (pid : Id) (p : Post.t) (d : Db) : option Db :=
  if post_valid p then Some (set_posts (<[pid := p]>) d) else None.

(** Setters of a [Post.t]. *)
Definition set_interest (users : list Id) (count : Z) (p : Post.t) : Post.t :=
  Post.mk (Post.author p) (Post.title p) (Post.description p) (Post.mediaUrls p)
    count (Post.commentCount p) (Post.isEvent p) (Post.eventDateTime p)
    (Post.location p) users (Post.attendedUsers p) (Post.createdAt p).

Definition set_attended (users : list Id) (p : Post.t) : Post.t :=
  Post.mk (Post.author p) (Post.title p) (Post.description p) (Post.mediaUrls p)
    (Post.interestedCount p) (Post.commentCount p) (Post.isEvent p)
    (Post.eventDateTime p) (Post.location p) (Post.interestedUsers p) users
    (Post.createdAt p).

(** ** Orders of the lists *)

(** [.sort({ createdAt: -1 })] *)
Definition newer_first (a b : Id * Post.t) : Prop :=
  (Post.createdAt b.2 <= Post.createdAt a.2)%Z.

#[export] Instance newer_first_dec : RelDecision newer_first.
Proof. intros a b. unfold newer_first. apply _. Defined.

#[export] Instance newer_first_total : Total newer_first.
Proof. intros a b. unfold newer_first. lia. Qed.

(** MongoDB orders [null] before every date. *)
Definition date_le (a b : option Z) : Prop :=
  match a, b with
  | None, _ => True
  | Some _, None => False
  | Some x, Some y => (x <= y)%Z
  end.

#[export] Instance date_le_dec : RelDecision date_le.
Proof. intros [x|] [y|]; simpl; apply _. Defined.

(** [.sort({ eventDateTime: 1, createdAt: -1 })] *)
Definition interest_order (a b : Id * Post.t) : Prop :=
  date_le (Post.eventDateTime a.2) (Post.eventDateTime b.2) /\
  (Post.eventDateTime a.2 = Post.eventDateTime b.2 -> newer_first a b).

#[export] Instance interest_order_dec : RelDecision interest_order.
Proof. intros a b. unfold interest_order. apply _. Defined.

(** [.sort({ eventDateTime: -1 })] *)
Definition later_event_first (a b : Id * Post.t) : Prop :=
  date_le (Post.eventDateTime b.2) (Post.eventDateTime a.2).

#[export] Instance later_event_first_dec : RelDecision later_event_first.
Proof. intros a b. unfold later_event_first. apply _. Defined.

(** [Post.find(query)] with a filter. *)
Definition find_posts (f : Id * Post.t -> bool) (d : Db) : list (Id * Post.t) :=
  List.filter f (map_to_list (posts d)).

Section Handlers.

(** [new Date(s)] on a date string ([None]: an invalid date, which
    Mongoose rejects with a cast error). *)
Variable parse_date : string -> option Z.
(** [mongoose.Types.ObjectId.isValid], which [findById] applies to its
    argument before querying. *)
Variable oid_ok : Id -> bool.

(** Mongoose's cast to [Date]: [null], [undefined] and the empty string of
    an empty form field give [null]; a boolean is a cast error. *)
Definition cast_date (v : JsVal) : option (option Z) :=
  match v with
  | JUndef | JNull => Some None
  | JNum z => Some (Some z)
  | JStr s => if String.eqb s "" then Some None else option_map Some (parse_date s)
  | JBool _ => None
  end.

(** [v === s] for a string literal [s]. *)
Definition strict_eq_str (v : JsVal) (s : string) : bool :=
  match v with JStr s' => String.eqb s' s | _ => false end.

(** [if (v !== undefined) post.f = v] on a required string path: the
    setter trims; [null] fails the [required] validator at [save]. *)
Definition upd_str (v : JsVal) (cur : string) : option string :=
  if is_defined v then
    match cast_str v with Some (Some s) => Some (trim s) | _ => None end
  else Some cur.

(** The same on an optional string path ([location]). *)
Definition upd_opt_str (v : JsVal) (cur : option string) : option (option string) :=
  if is_defined v then option_map (option_map trim) (cast_str v) else Some cur.

Definition upd_bool (v : JsVal) (cur : bool) : option bool :=
  if is_defined v then cast_bool v else Some cur.

Definition upd_date (v : JsVal) (cur : option Z) : option (option Z) :=
  if is_defined v then cast_date v else Some cur.

(** [createPost] (lines 9-50).  [uploads] are the [secure_url]s Cloudinary
    returned for [req.files]; populating [author] only decorates the
    response and is not modelled. *)
Definition createPost (uid : Id) (b : PostBody) (uploads : list string) (now : Z)
    (d : Db) : Db * Res (Id * Post.t) :=
  if negb (truthy (pb_title b)) || negb (truthy (pb_description b)) then
    (d, Err 400 "Ti  tle and description are required.")
  else
    let ev := truthy (pb_isEvent b) in
    match cast_str (pb_title b), cast_str (pb_description b),
          (if ev then cast_date (pb_eventDateTime b) else Some None),
          (if ev then cast_str (pb_location b) else Some None) with
    | Some (Some t), Some (Some ds), Some edt, Some loc =>
        let p := Post.mk uid (trim t) (trim ds) (map trim uploads) 0 0
                   (is_true_lit (pb_isEvent b)) edt (option_map trim loc) [] [] now in
        let pid := new_id d in
        match save_post pid p d with
        | Some d' => (d', Ok 201 (pid, p))
        | None => (d, Err 500 "Server Error")
        end
    | _, _, _, _ => (d, Err 500 "Server Error")
    end.

(** [getAllPosts] (lines 54-65). *)
Definition getAllPosts (d : Db) : Res (list (Id * Post.t)) :=
  Ok 200 (merge_sort newer_first (map_to_list (posts d))).

(** [getPostById] (lines 68-85). *)
Definition getPostById (pid : Id) (d : Db) : Res (Id * Post.t) :=
  if negb (oid_ok pid) then Err 400 "Invalid Post ID"
  else match posts d !! pid with
       | None => Err 404 "Post not found"
       | Some p => Ok 200 (pid, p)
       end.

(** [updatePost] (lines 88-132): a cast error of [findById] reaches the
    generic [catch]. *)
Definition updatePost (uid pid : Id) (b : PostBody) (uploads : list string) (d : Db)
    : Db * Res (Id * Post.t) :=
  if negb (oid_ok pid) then (d, Err 500 "Server Error") else
  match posts d !! pid with
  | None => (d, Err 404 "Post not found")
  | Some p =>
      if negb (String.eqb (Post.author p) uid) then
        (d, Err 403 "Unauthorized: You are not the author.")
      else
        let media0 := if strict_eq_str (pb_clearExistingMedia b) "true" then [] else Post.mediaUrls p in
        let media := match uploads with [] => media0 | _ => map trim uploads end in
        match upd_str (pb_title b) (Post.title p), upd_str (pb_description b) (Post.description p),
              upd_bool (pb_isEvent b) (Post.isEvent p),
              upd_date (pb_eventDateTime b) (Post.eventDateTime p),
              upd_opt_str (pb_location b) (Post.location p) with
        | Some t, Some ds, Some ev, Some edt, Some loc =>
            let p' := Post.mk (Post.author p) t ds media (Post.interestedCount p)
                        (Post.commentCount p) ev edt loc (Post.interestedUsers p)
                        (Post.attendedUsers p) (Post.createdAt p) in
            match save_post pid p' d with
            | Some d' => (d', Ok 200 (pid, p'))
            | None => (d, Err 500 "Server Error")
            end
        | _, _, _, _, _ => (d, Err 500 "Server Error")
        end
  end.

(** [deletePost] (lines 134-155). *)
Definition deletePost (uid pid : Id) (d : Db) : Db * Res string :=
  if negb (oid_ok pid) then (d, Err 400 "Invalid Post ID") else
  match posts d !! pid with
  | None => (d, Err 404 "Post not found")
  | Some p =>
      if negb (String.eqb (Post.author p) uid) then
        (d, Err 403 "Unauthorized: You are not the author.")
      else (set_posts (delete pid) d, Ok 200 "Post deleted successfully.")
  end.

(** [post.eventDateTime && new Date() >= post.eventDateTime] *)
Definition event_started (edt : option Z) (now : Z) : bool :=
  match edt with Some t => (t <=? now)%Z | None => false end.

(** Lines 171-179: remove the user and decrement (never below 0), or
    append the user and increment. *)
Definition toggle_interest (uid : Id) (p : Post.t) : Post.t :=
  if includes (Post.interestedUsers p) uid
  then set_interest (pull uid (Post.interestedUsers p)) (Z.max (Post.interestedCount p - 1) 0) p
  else set_interest (push (Post.interestedUsers p) uid) (Post.interestedCount p + 1) p.

(** [togglePostInterest] (lines 158-195); the answer carries [msg],
    [interested] and the post. *)
Definition togglePostInterest (uid pid : Id) (now : Z) (d : Db)
    : Db * Res (string * bool * Post.t) :=
  if negb (oid_ok pid) then (d, Err 500 "Server Error") else
  match posts d !! pid with
  | None => (d, Err 404 "Post not found")
  | Some p =>
      if event_started (Post.eventDateTime p) now then
        (d, Err 400 "Cannot mark interest after event starts.")
      else
        let isInterested := includes (Post.interestedUsers p) uid in
        let p' := toggle_interest uid p in
        match save_post pid p' d with
        | Some d' =>
            (d', Ok 200 (if isInterested then "Interest removed" else "Interest added",
                         negb isInterested, p'))
        | None => (d, Err 500 "Server Error")
        end
  end.

(** [getInterestedPosts] (lines 198-209). *)
Definition getInterestedPosts (uid : Id) (d : Db) : Res (list (Id * Post.t)) :=
  Ok 200 (merge_sort interest_order
            (find_posts (fun ip => includes (Post.interestedUsers ip.2) uid) d)).

(** [now < post.eventDateTime]: a [null] date compares as [0]. *)
Definition before_start (now : Z) (edt : option Z) : bool :=
  match edt with Some t => (now <? t)%Z | None => (now <? 0)%Z end.

(** [markAttendance] (lines 211-245). *)
Definition markAttendance (uid pid : Id) (now : Z) (d : Db) : Db * Res (Id * Post.t) :=
  if negb (oid_ok pid) then (d, Err 500 "Server Error") else
  match posts d !! pid with
  | None => (d, Err 404 "Post not found")
  | Some p =>
      if negb (Post.isEvent p) || before_start now (Post.eventDateTime p) then
        (d, Err 400 "Cannot mark attendance before event starts")
      else if negb (includes (Post.interestedUsers p) uid) then
        (d, Err 403 "You must be interested before the event to mark attendance.")
      else if includes (Post.attendedUsers p) uid then
        (d, Err 400 "Already marked as attended")
      else
        let p' := set_attended (push (Post.attendedUsers p) uid) p in
        match save_post pid p' d with
        | Some d' => (d', Ok 200 (pid, p'))
        | None => (d, Err 500 "Server Error")
        end
  end.

(** [togglePostAttendance] (lines 247-276). *)
Definition togglePostAttendance (uid pid : Id) (d : Db) : Db * Res (Id * Post.t) :=
  if negb (oid_ok pid) then (d, Err 500 "Server error") else
  match posts d !! pid with
  | None => (d, Err 404 "Post not found")
  | Some p =>
      let p' := if includes (Post.attendedUsers p) uid
                then set_attended (pull uid (Post.attendedUsers p)) p
                else set_attended (push (Post.attendedUsers p) uid) p in
      match save_post pid p' d with
      | Some d' => (d', Ok 200 (pid, p'))
      | None => (d, Err 500 "Server error")
      end
  end.

(** [getAttendedPosts] (lines 279-296): [eventDateTime: { $lt: now }]
    matches no [null] date. *)
Definition getAttendedPosts (uid : Id) (now : Z) (d : Db) : Res (list (Id * Post.t)) :=
  Ok 200 (merge_sort later_event_first
            (find_posts (fun ip => Post.isEvent ip.2 && includes (Post.attendedUsers ip.2) uid &&
                           match Post.eventDateTime ip.2 with
                           | Some t => (t <? now)%Z
                           | None => false
                           end) d)).

(** The body of [joinInterestGroup] (lines 303-343) as written. *)
Definition joinInterestGroup_body (uid pid : Id) (now : Z) (d : Db)
    : Db * Res (Id * Chat.t) :=
  if negb (oid_ok pid) then (d, Err 400 "Invalid post ID format.") else
  match posts d !! pid with
  | Some p =>
      if negb (Post.isEvent p) then (d, Err 404 "Event post not found or is not an event.")
      else
        let r := match find_chat_by_post d pid with
                 | Some (cid, c) =>
                     if includes (Chat.participants c) uid then Some (d, (cid, c))
                     else let c' := Chat.touch now (Chat.add_participant uid c) in
                          Some (set_chats (<[cid := c']>) d, (cid, c'))
                 | None =>
                     match create_chat d pid (Post.title p) [uid] now with
                     | Some (cid, c) => Some (set_chats (<[cid := c]>) d, (cid, c))
                     | None => None
                     end
                 end in
        match r with
        | None => (d, Err 500 "Server error")
        | Some (d1, ch) =>
            if includes (Post.interestedUsers p) uid then (d1, Ok 200 ch)
            else match save_post pid (set_interest (push (Post.interestedUsers p) uid)
                                        (Post.interestedCount p) p) d1 with
                 | Some d2 => (d2, Ok 200 ch)
                 | None => (d1, Err 500 "Server error")
                 end
        end
  | None => (d, Err 404 "Event post not found or is not an event.")
  end.

(** postController.js never requires ['mongoose'] (lines 1-6), so the
    identifier is unbound in the handler. *)
Definition mongoose_bound : bool := false.

(** [joinInterestGroup] (lines 299-348): line 304 reads [mongoose] first;
    with the name unbound it throws a [ReferenceError], which the [catch]
    answers with 500. *)
Definition joinInterestGroup (uid pid : Id) (now : Z) (d : Db) : Db * Res (Id * Chat.t) :=
  if mongoose_bound then joinInterestGroup_body uid pid now d
  else (d, Err 500 "Server error").

(** [getFeedPosts] (lines 351-374). *)
Definition getFeedPosts (uid : Id) (d : Db) : Res (list (Id * Post.t)) :=
  if negb (oid_ok uid) then Err 500 "Server Error" else
  match users d !! uid with
  | None => Err 404 "User not found"
  | Some u =>
      let q := match User.following u with
               | [] => fun _ => true
               | fs => fun ip => includes fs (Post.author ip.2)
               end in
      Ok 200 (merge_sort newer_first (find_posts q d))
  end.

End Handlers.

(** ** Invariants *)

(** The counter of a post is the number of interested users, each listed
    once. *)
Definition interest_ok (p : Post.t) : Prop :=
  Post.interestedCount p = Z.of_nat (length (Post.interestedUsers p)) /\
  NoDup (Post.interestedUsers p).

Definition posts_interest_ok (d : Db) : Prop :=
  map_Forall (fun _ p => interest_ok p) (posts d).

(** The documents of the posts collection pass the schema's validation:
    the type invariant of the collection. *)
Definition posts_valid (d : Db) : Prop :=
  map_Forall (fun _ p => post_valid p = true) (posts d).

(** ** Examples: [b] and [c] are users; the body of an event post at time
    1000. *)

Definition posts_db : Db :=
  mkDb (<["b" := demo_user "b"]> (<["c" := demo_user "c"]> ∅)) ∅ ∅ [] ∅ [].

Definition event_body (isEvent : JsVal) : PostBody :=
  mkPostBody (JStr "Meetup") (JStr "Monthly meetup") isEvent (JNum 1000) (JStr " Hall ") JUndef.

(** The store with the event post [p] of [a] (from [Chat]), and the same
    post with [c] interested. *)
Definition demo_posts_db : Db := set_posts (<["p" := demo_post]>) posts_db.

Definition att_db : Db := set_posts (<["p" := set_interest ["c"] 1 demo_post]>) posts_db.

Definition no_date : string -> option Z := fun _ => None.

(** ** Lemmas *)

Lemma save_post_Some pid p d d' :
  save_post pid p d = Some d' -> d' = set_posts (<[pid := p]>) d /\ post_valid p = true.
Proof. unfold save_post. by case_match; intros [= <-]. Qed.

Lemma set_posts_insert_id d pid p :
  posts d !! pid = Some p -> set_posts (<[pid := p]>) d = d.
Proof. intros H. destruct d; unfold set_posts; simpl in *. by rewrite insert_id. Qed.

Lemma set_posts_insert_insert d pid p p' :
  set_posts (<[pid := p']>) (set_posts (<[pid := p]>) d) = set_posts (<[pid := p']>) d.
Proof. unfold set_posts. simpl. by rewrite insert_insert_eq. Qed.

Lemma post_valid_set_interest l c p :
  post_valid p = true -> (0 <= c)%Z -> post_valid (set_interest l c p) = true.
Proof.
  unfold post_valid, set_interest. simpl. rewrite !andb_true_iff, !Z.leb_le. intuition.
Qed.

Lemma post_valid_set_attended l p : post_valid (set_attended l p) = post_valid p.
Proof. done. Qed.

Lemma post_valid_nonneg p : post_valid p = true -> (0 <= Post.interestedCount p)%Z.
Proof. unfold post_valid. rewrite !andb_true_iff, !Z.leb_le. tauto. Qed.

#[export] Hint Resolve post_valid_set_interest post_valid_nonneg : backend.
#[export] Hint Rewrite post_valid_set_attended : backend_simpl.

Lemma elem_of_find_posts f d ip :
  ip ∈ find_posts f d <-> posts d !! ip.1 = Some ip.2 /\ f ip = true.
Proof.
  unfold find_posts. rewrite list_elem_of_In, filter_In, <- list_elem_of_In.
  destruct ip. by rewrite elem_of_map_to_list.
Qed.

Lemma before_start_mono now now' edt :
  (now <= now')%Z -> before_start now edt = false -> before_start now' edt = false.
Proof. destruct edt; simpl; rewrite !Z.ltb_ge; lia. Qed.

Section Props.
Context (oid_ok : Id -> bool).

(** What a successful interest toggle did. *)
Lemma togglePostInterest_Ok uid pid now d d' c v :
  togglePostInterest oid_ok uid pid now d = (d', Ok c v) ->
  exists p, posts d !! pid = Some p /\ event_started (Post.eventDateTime p) now = false /\
  d' = set_posts (<[pid := toggle_interest uid p]>) d /\ v.2 = toggle_interest uid p.
Proof.
  unfold togglePostInterest. destruct (oid_ok pid); simpl; [|done].
  destruct (posts d !! pid) as [p|]; [|done]. destruct (event_started _ _) eqn:He; [done|].
  destruct (save_post _ _ _) as [d1|] eqn:Hs; [|done].
  apply save_post_Some in Hs as [-> _]. intros [= <- <- <-]. eauto.
Qed.

Lemma togglePostInterest_Err uid pid now d d' c m :
  togglePostInterest oid_ok uid pid now d = (d', Err c m) -> d' = d.
Proof. unfold togglePostInterest. intros E. by repeat (case_match; simplify_eq/=; try done). Qed.

Lemma interest_ok_toggle uid p :
  interest_ok p ->
  interest_ok (toggle_interest uid p).
Proof.
  intros [Hc Hn]. unfold toggle_interest. case_includes; unfold interest_ok; simpl.
  - split; [|by apply NoDup_pull]. rewrite length_pull_NoDup by done.
    assert (length (Post.interestedUsers p) <> 0)
      by (intros E%length_zero_iff_nil; rewrite E in Hinc; set_solver).
    lia.
  - rewrite length_push. split; [lia|by apply NoDup_push].
Qed.

(** ** The interest toggle *)

(** C11: the interest toggle keeps, for every post of the store,
    the counter equal to the number of interested users and the list free
    of duplicates. *)
Theorem togglePostInterest_interest_ok uid pid now d :
  posts_interest_ok d ->
  posts_interest_ok (togglePostInterest oid_ok uid pid now d).1.
Proof.
  intros Hd. destruct (togglePostInterest _ _ _ _ _) as [d' [c v|c m]] eqn:E; simpl.
  - apply togglePostInterest_Ok in E as (p & Hp & _ & -> & _).
    apply map_Forall_insert_2; [|done]. apply interest_ok_toggle. exact (Hd _ _ Hp).
  - by apply togglePostInterest_Err in E as ->.
Qed.

(** The toggle on a valid stored post whose event has not started. *)
Lemma togglePostInterest_eq uid pid now d p :
  oid_ok pid = true -> posts d !! pid = Some p -> post_valid p = true ->
  event_started (Post.eventDateTime p) now = false ->
  togglePostInterest oid_ok uid pid now d =
    (set_posts (<[pid := toggle_interest uid p]>) d,
     Ok 200 (if includes (Post.interestedUsers p) uid then "Interest removed" else "Interest added",
             negb (includes (Post.interestedUsers p) uid), toggle_interest uid p)).
Proof.
  intros Ho Hp Hv He. unfold togglePostInterest. rewrite Ho, Hp, He. simpl.
  pose proof (post_valid_nonneg p Hv).
  unfold save_post, toggle_interest. by case_includes; rewrite post_valid_set_interest by (done || lia).
Qed.

(** C24: on a stored, valid post whose event has not started,
    the toggle always succeeds and leaves the counter non-negative:
    [Math.max(count - 1, 0)] keeps it within the schema's [min: 0], so the
    save never fails validation, even when the counter and the list
    disagree. *)
Theorem togglePostInterest_succeeds uid pid now d p :
  oid_ok pid = true -> posts d !! pid = Some p -> post_valid p = true ->
  event_started (Post.eventDateTime p) now = false ->
  exists d' v, togglePostInterest oid_ok uid pid now d = (d', Ok 200 v) /\
    (0 <= Post.interestedCount v.2)%Z.
Proof.
  intros Ho Hp Hv He. rewrite (togglePostInterest_eq uid pid now d p) by done.
  pose proof (post_valid_nonneg p Hv).
  eexists _, _. split; [reflexivity|]. unfold toggle_interest. simpl. case_includes; simpl; lia.
Qed.

(** C12: toggling interest twice, before the event, on a valid
    post the user was not interested in, gives back exactly the store of
    before: the user is appended then removed, the counter goes up by one
    and back. *)
Theorem togglePostInterest_twice uid pid now now' d p :
  oid_ok pid = true -> posts d !! pid = Some p -> post_valid p = true ->
  uid ∉ Post.interestedUsers p ->
  event_started (Post.eventDateTime p) now = false ->
  event_started (Post.eventDateTime p) now' = false ->
  (togglePostInterest oid_ok uid pid now' (togglePostInterest oid_ok uid pid now d).1).1 = d.
Proof.
  intros Ho Hp Hv Hu He He'. pose proof (post_valid_nonneg p Hv).
  rewrite (togglePostInterest_eq uid pid now d p) by done. simpl.
  assert (Hp1 : toggle_interest uid p =
                set_interest (push (Post.interestedUsers p) uid) (Post.interestedCount p + 1) p).
  { unfold toggle_interest. by rewrite (proj2 (includes_false _ _) Hu). }
  rewrite (togglePostInterest_eq uid pid now' _ (toggle_interest uid p)); rewrite ?Hp1; try done.
  - simpl. unfold toggle_interest. simpl.
    rewrite (proj2 (includes_spec _ _)) by (apply elem_of_push; by right).
    rewrite pull_push_fresh by done. rewrite set_posts_insert_insert.
    replace (Z.max _ 0) with (Post.interestedCount p) by lia.
    apply set_posts_insert_id. rewrite Hp. by destruct p.
  - simpl. by rewrite lookup_insert_eq.
  - by apply post_valid_set_interest; [|lia].
Qed.

(** ** Attendance *)

Lemma markAttendance_Ok uid pid now d d' c v :
  markAttendance oid_ok uid pid now d = (d', Ok c v) ->
  exists p, oid_ok pid = true /\ posts d !! pid = Some p /\ Post.isEvent p = true /\
    before_start now (Post.eventDateTime p) = false /\
    uid ∈ Post.interestedUsers p /\ (uid ∉ Post.attendedUsers p) /\ post_valid p = true /\
    c = 200%Z /\
    d' = set_posts (<[pid := set_attended (push (Post.attendedUsers p) uid) p]>) d /\
    v = (pid, set_attended (push (Post.attendedUsers p) uid) p).
Proof.
  unfold markAttendance, save_post.
  destruct (oid_ok pid) eqn:Ho; simpl; [|done].
  destruct (posts d !! pid) as [p|]; [|done]. rewrite post_valid_set_attended.
  destruct (Post.isEvent p) eqn:Hev, (before_start _ _) eqn:Hb; simpl; try done.
  destruct (includes (Post.interestedUsers p) uid) eqn:Hi; simpl; [|done].
  destruct (includes (Post.attendedUsers p) uid) eqn:Ha; [done|].
  destruct (post_valid p) eqn:Hv; [|done]. includes_to_elem.
  intros [= <- <- <-]. eexists. split_and!; done.
Qed.

(** C13: marking attendance succeeds exactly when the post
    exists, is an event that has started ([now < eventDateTime] false),
    the user is in the interested set and not yet in the attended set (and
    the stored post is valid); otherwise it answers an error. *)
Theorem markAttendance_ok_iff uid pid now d :
  is_ok (markAttendance oid_ok uid pid now d).2 = true <->
  oid_ok pid = true /\ exists p, posts d !! pid = Some p /\ Post.isEvent p = true /\
    before_start now (Post.eventDateTime p) = false /\
    uid ∈ Post.interestedUsers p /\ (uid ∉ Post.attendedUsers p) /\ post_valid p = true.
Proof.
  split.
  - destruct (markAttendance _ _ _ _ _) as [d' [c v|c m]] eqn:E; [|done]. intros _.
    apply markAttendance_Ok in E as (p & ? & ? & ? & ? & ? & ? & ? & _). naive_solver.
  - intros (Ho & p & Hp & Hev & Hb & Hi & Ha & Hv).
    unfold markAttendance, save_post. rewrite Ho, Hp. simpl. rewrite Hev, Hb. simpl.
    apply includes_spec in Hi. apply includes_false in Ha. rewrite Hi, Ha. simpl.
    by rewrite post_valid_set_attended, Hv.
Qed.

(** C14: marking attendance is protected against duplicates:
    after a successful mark, marking again (at the same time or later) is
    rejected with "Already marked as attended" and changes nothing. *)
Theorem markAttendance_duplicate uid pid now now' d d' v :
  markAttendance oid_ok uid pid now d = (d', Ok 200 v) -> (now <= now')%Z ->
  markAttendance oid_ok uid pid now' d' = (d', Err 400 "Already marked as attended").
Proof.
  intros E Hle. apply markAttendance_Ok in E as (p & Ho & Hp & Hev & Hb & Hi & Ha & Hv & _ & -> & _).
  unfold markAttendance at 1. rewrite Ho. simpl. rewrite lookup_insert_eq. simpl.
  rewrite Hev, (before_start_mono now now') by done. simpl.
  rewrite (proj2 (includes_spec _ _) Hi). simpl.
  by rewrite (proj2 (includes_spec _ _)) by (apply elem_of_push; by right).
Qed.

(** C22: the attendance toggle checks nothing but the
    existence of the post: for any user not yet in the attended set, it
    records attendance whether or not the post is an event, whether or not
    the event has started, and whether or not the user was interested. *)
Theorem togglePostAttendance_unguarded uid pid d p :
  oid_ok pid = true -> posts d !! pid = Some p -> post_valid p = true ->
  uid ∉ Post.attendedUsers p ->
  togglePostAttendance oid_ok uid pid d =
    (set_posts (<[pid := set_attended (push (Post.attendedUsers p) uid) p]>) d,
     Ok 200 (pid, set_attended (push (Post.attendedUsers p) uid) p)).
Proof.
  intros Ho Hp Hv Ha. unfold togglePostAttendance, save_post.
  rewrite Ho, Hp. simpl. apply includes_false in Ha. rewrite Ha.
  by rewrite post_valid_set_attended, Hv.
Qed.

(** ** Feed *)

(** C25: the feed of a stored user lists, newest first, exactly the
    stored posts whose author the user follows, or every stored post when
    the user follows no one. *)
Theorem getFeedPosts_spec uid d u :
  oid_ok uid = true -> users d !! uid = Some u ->
  exists l, getFeedPosts oid_ok uid d = Ok 200 l /\ Sorted newer_first l /\
    forall pid p, (pid, p) ∈ l <->
      posts d !! pid = Some p /\ (User.following u = [] \/ Post.author p ∈ User.following u).
Proof.
  intros Ho Hu. unfold getFeedPosts. rewrite Ho, Hu.
  eexists. split_and!; [reflexivity|apply Sorted_merge_sort; apply _|]. intros pid p.
  rewrite (merge_sort_Permutation _ _), elem_of_find_posts. cbn [fst snd].
  destruct (User.following u) as [|f fs]; cbn beta iota; [naive_solver|].
  rewrite includes_spec. naive_solver.
Qed.

End Props.

(** ** Ownership *)

Section Owner.
Context (parse_date : string -> option Z) (oid_ok : Id -> bool).

Lemma posts_valid_save pid p d d' :
  save_post pid p d = Some d' -> posts_valid d -> posts_valid d'.
Proof. intros [-> Hp]%save_post_Some Hv. by apply map_Forall_insert_2. Qed.

Lemma posts_valid_set_chats f d : posts_valid (set_chats f d) <-> posts_valid d.
Proof. done. Qed.

#[local] Hint Resolve posts_valid_save : backend.
#[local] Hint Rewrite posts_valid_set_chats : backend_simpl.

(** Each handler that writes the collection keeps it valid. *)
Local Ltac posts_valid_tac :=
  intros Hv; repeat (case_match; simplify_eq/=; autorewrite with backend_simpl in * );
  eauto with backend.

Lemma createPost_posts_valid uid b ups now d :
  posts_valid d -> posts_valid (createPost parse_date uid b ups now d).1.
Proof. unfold createPost. posts_valid_tac. Qed.

Lemma updatePost_posts_valid uid pid b ups d :
  posts_valid d -> posts_valid (updatePost parse_date oid_ok uid pid b ups d).1.
Proof. unfold updatePost. posts_valid_tac. Qed.

Lemma deletePost_posts_valid uid pid d :
  posts_valid d -> posts_valid (deletePost oid_ok uid pid d).1.
Proof. unfold deletePost. posts_valid_tac. by apply map_Forall_delete. Qed.

Lemma togglePostInterest_posts_valid uid pid now d :
  posts_valid d -> posts_valid (togglePostInterest oid_ok uid pid now d).1.
Proof. unfold togglePostInterest. posts_valid_tac. Qed.

Lemma markAttendance_posts_valid uid pid now d :
  posts_valid d -> posts_valid (markAttendance oid_ok uid pid now d).1.
Proof. unfold markAttendance. posts_valid_tac. Qed.

Lemma togglePostAttendance_posts_valid uid pid d :
  posts_valid d -> posts_valid (togglePostAttendance oid_ok uid pid d).1.
Proof. unfold togglePostAttendance. posts_valid_tac. Qed.

Lemma joinInterestGroup_body_posts_valid uid pid now d :
  posts_valid d -> posts_valid (joinInterestGroup_body oid_ok uid pid now d).1.
Proof. unfold joinInterestGroup_body. posts_valid_tac. Qed.

Lemma joinInterestGroup_posts_valid uid pid now d :
  posts_valid d -> posts_valid (joinInterestGroup oid_ok uid pid now d).1.
Proof.
  unfold joinInterestGroup. case_match; [apply joinInterestGroup_body_posts_valid|done].
Qed.


(** C26: only the author may update or delete a post: for any
    other user both handlers answer 403 and leave the store unchanged. *)
Theorem post_author_only uid pid b ups d p :
  oid_ok pid = true -> posts d !! pid = Some p -> Post.author p <> uid ->
  updatePost parse_date oid_ok uid pid b ups d = (d, Err 403 "Unauthorized: You are not the author.") /\
  deletePost oid_ok uid pid d = (d, Err 403 "Unauthorized: You are not the author.").
Proof.
  intros Ho Hp Ha. unfold updatePost, deletePost. rewrite Ho, Hp. simpl.
  by rewrite (proj2 (String.eqb_neq _ _) Ha).
Qed.

End Owner.

Lemma togglePostInterest_interest_ok_witness :
  posts_interest_ok demo_posts_db /\
  posts_interest_ok (togglePostInterest any_oid "c" "p" 0 demo_posts_db).1.
Proof.
  assert (H : posts_interest_ok demo_posts_db).
  { apply map_Forall_insert_2; [|apply map_Forall_empty]. split; [done|constructor]. }
  split; [exact H|]. exact (togglePostInterest_interest_ok any_oid "c" "p" 0 _ H).
Defined.


Lemma togglePostInterest_succeeds_witness :
  exists d' v, togglePostInterest any_oid "c" "p" 0 demo_posts_db = (d', Ok 200 v) /\
    (0 <= Post.interestedCount v.2)%Z.
Proof.
  apply (togglePostInterest_succeeds any_oid "c" "p" 0 demo_posts_db demo_post);
    vm_compute; reflexivity.
Defined.

Lemma togglePostInterest_twice_witness :
  (togglePostInterest any_oid "c" "p" 20
     (togglePostInterest any_oid "c" "p" 10 demo_posts_db).1).1 = demo_posts_db.
Proof.
  apply (togglePostInterest_twice any_oid "c" "p" 10 20 demo_posts_db demo_post);
    first [vm_compute; reflexivity | apply not_elem_of_nil].
Defined.

Lemma markAttendance_duplicate_witness :
  let v := ("p", set_attended ["c"] (set_interest ["c"] 1 demo_post)) in
  let d' := set_posts (<["p" := v.2]>) att_db in
  markAttendance any_oid "c" "p" 2000 att_db = (d', Ok 200 v) /\
  markAttendance any_oid "c" "p" 3000 d' = (d', Err 400 "Already marked as attended").
Proof.
  intros v d'.
  assert (E : markAttendance any_oid "c" "p" 2000 att_db = (d', Ok 200 v))
    by (vm_compute; reflexivity).
  split; [exact E|]. apply (markAttendance_duplicate any_oid "c" "p" 2000 3000 att_db d' v E).
  lia.
Defined.

Lemma togglePostAttendance_unguarded_witness :
  togglePostAttendance any_oid "c" "p" demo_posts_db =
    (set_posts (<["p" := set_attended ["c"] demo_post]>) demo_posts_db,
     Ok 200 ("p", set_attended ["c"] demo_post)).
Proof.
  apply (togglePostAttendance_unguarded any_oid "c" "p" demo_posts_db demo_post);
    first [vm_compute; reflexivity | apply not_elem_of_nil].
Defined.

Lemma getFeedPosts_spec_witness :
  exists l, getFeedPosts any_oid "c" demo_posts_db = Ok 200 l /\ Sorted newer_first l /\
    forall pid p, (pid, p) ∈ l <->
      posts demo_posts_db !! pid = Some p /\
      (User.following (demo_user "c") = [] \/ Post.author p ∈ User.following (demo_user "c")).
Proof.
  apply (getFeedPosts_spec any_oid "c" demo_posts_db (demo_user "c")); vm_compute; reflexivity.
Defined.

Lemma post_author_only_witness :
  updatePost no_date any_oid "c" "p" (event_body JUndef) [] demo_posts_db =
    (demo_posts_db, Err 403 "Unauthorized: You are not the author.") /\
  deletePost any_oid "c" "p" demo_posts_db =
    (demo_posts_db, Err 403 "Unauthorized: You are not the author.").
Proof.
  apply (post_author_only no_date any_oid "c" "p" (event_body JUndef) [] demo_posts_db demo_post).
  - reflexivity.
  - vm_compute. reflexivity.
  - discriminate.
Defined.

(** ** Counterexamples and runs *)

(** C27: a multipart form sends [isEvent] as the string "false";
    [createPost] stores a post that is not an event ([isEvent === 'true']
    fails) but keeps its event date and location, since
    [isEvent ? eventDateTime : null] tests the raw, truthy string: for any
    title, description, date and location that pass validation. *)
Theorem createPost_string_false_event_fields pd uid b ups now d t ds s tm l :
  pb_title b = JStr t -> pb_description b = JStr ds -> pb_isEvent b = JStr "false" ->
  pb_eventDateTime b = JStr s -> s <> "" -> pd s = Some tm -> pb_location b = JStr l ->
  t <> "" -> ds <> "" ->
  let p := Post.mk uid (trim t) (trim ds) (map trim ups) 0 0 false (Some tm)
             (Some (trim l)) [] [] now in
  post_valid p = true ->
  createPost pd uid b ups now d = (set_posts (<[new_id d := p]>) d, Ok 201 (new_id d, p)).
Proof.
  intros Ht Hds Hev Hs Hsne Hpd Hl Htne Hdsne p Hv.
  unfold createPost, cast_date, save_post.
  rewrite Ht, Hds, Hev, Hs, Hl. simpl.
  destruct (String.eqb_spec t ""); [done|]. destruct (String.eqb_spec ds ""); [done|].
  destruct (String.eqb_spec s ""); [done|]. simpl. rewrite Hpd. simpl.
  fold p. by rewrite Hv.
Qed.

Lemma createPost_string_false_event_fields_witness :
  no_date "x" = None /\
  createPost (fun _ => Some 1000%Z) "b" (event_body (JStr "false")) [] 0 posts_db =
    (set_posts (<[new_id posts_db := Post.mk "b" "Meetup" "Monthly meetup" [] 0 0 false
                  (Some 1000%Z) (Some "Hall") [] [] 0]>) posts_db,
     Ok 201 (new_id posts_db, Post.mk "b" "Meetup" "Monthly meetup" [] 0 0 false
                  (Some 1000%Z) (Some "Hall") [] [] 0)).
Proof.
  split; [reflexivity|].
  exact (createPost_string_false_event_fields (fun _ => Some 1000%Z) "b"
           (mkPostBody (JStr "Meetup") (JStr "Monthly meetup") (JStr "false") (JStr "1000")
              (JStr " Hall ") JUndef) [] 0 posts_db "Meetup" "Monthly meetup" "1000" 1000 " Hall "
           eq_refl eq_refl eq_refl eq_refl ltac:(discriminate) eq_refl eq_refl
           ltac:(discriminate) ltac:(discriminate) eq_refl).
Defined.

(** C23: the body of [joinInterestGroup] (unreachable as written, since
    line 304 throws) breaks the counter invariant: whenever it succeeds for
    a user not yet interested in a post whose counter agrees with its list,
    it stores the post with the user appended to [interestedUsers] and
    [interestedCount] unchanged, so the counter no longer agrees. *)
Theorem joinInterestGroup_broken oid uid pid now d p d' ch :
  posts d !! pid = Some p -> interest_ok p -> uid ∉ Post.interestedUsers p ->
  joinInterestGroup_body oid uid pid now d = (d', Ok 200 ch) ->
  posts d' !! pid = Some (set_interest (push (Post.interestedUsers p) uid)
                            (Post.interestedCount p) p) /\
  ~ interest_ok (set_interest (push (Post.interestedUsers p) uid) (Post.interestedCount p) p).
Proof.
  intros Hp [Hc _] Hu. unfold joinInterestGroup_body. rewrite Hp.
  rewrite (proj2 (includes_false _ _) Hu).
  split.
  - repeat (case_match; simplify_eq/=); try done;
      match goal with H : save_post _ _ _ = Some _ |- _ =>
        apply save_post_Some in H as [-> _] end; simpl; by rewrite lookup_insert_eq.
  - intros [Hc' _]. simpl in Hc'. rewrite length_push in Hc'. lia.
Qed.

(** The example run of the specification: [b] creates an
    event post starting at 1000; [c] toggles interest (the counter goes
    from 0 to 1); [c]'s attendance at 500 is rejected and changes nothing;
    at 2000 it is accepted; marking again at 2500 is rejected as a
    duplicate and changes nothing. *)
Theorem posts_scenario :
  let pid := new_id posts_db in
  let '(d1, r1) := createPost no_date "b" (event_body (JStr "true")) [] 0 posts_db in
  let '(d2, r2) := togglePostInterest any_oid "c" pid 10 d1 in
  let '(d3, r3) := markAttendance any_oid "c" pid 500 d2 in
  let '(d4, r4) := markAttendance any_oid "c" pid 2000 d3 in
  let '(d5, r5) := markAttendance any_oid "c" pid 2500 d4 in
  res_code r1 = 201%Z /\
  option_map Post.interestedCount (posts d1 !! pid) = Some 0%Z /\
  option_map Post.interestedCount (posts d2 !! pid) = Some 1%Z /\
  r3 = Err 400 "Cannot mark attendance before event starts" /\ d3 = d2 /\
  res_code r4 = 200%Z /\
  option_map Post.attendedUsers (posts d4 !! pid) = Some ["c"] /\
  r5 = Err 400 "Already marked as attended" /\ d5 = d4.
Proof. vm_compute. split_and!; reflexivity. Qed.

Lemma joinInterestGroup_broken_witness :
  posts demo_posts_db !! "p" = Some demo_post /\
  ~ interest_ok (set_interest ["c"] 0 demo_post).
Proof.
  assert (Hp : posts demo_posts_db !! "p" = Some demo_post) by reflexivity.
  split; [exact Hp|].
  destruct (joinInterestGroup_body any_oid "c" "p" 0 demo_posts_db) as [d' r] eqn:E.
  pose proof E as E0. vm_compute in E0. injection E0 as _ <-.
  exact (proj2 (joinInterestGroup_broken any_oid "c" "p" 0 demo_posts_db demo_post d' _ Hp
                  (conj eq_refl (NoDup_nil_2)) (not_elem_of_nil "c") E)).
Defined.
