(* ===== verification/Auth.v ===== *)
(** * Auth: registration, login and the HTTP token check

    src/controllers/authController.js (the controller src/routes/authRoutes.js
    mounts) and its older copy src/event_backend-main/controllers/authController.js,
    with the middleware src/event_backend-main/middleware/authMiddleware.js.
    Registration is a state machine per e-mail address: [registerUser]
    stores a pending one-time code, [verifyOtpAndRegister] turns a pending
    account into a verified one or clears the code, [loginUser] checks the
    password of a verified account.  The state of an address is read off the
    store by [reg_state].  Password hashing is a variable of the section
    (bcrypt's salt is abstracted: a hash matches the password it was made
    from); tokens go through the [TokenService] interface.

    Theorems: the abstract registration automaton of the specification is
    respected by every handler (refinement); the store keeps e-mails unique
    and verified accounts complete (invariant); a rejected code is
    invalidated; every code [registerUser] stores has six digits, whatever
    the random source draws; a token issued at verification passes
    [protect] until it expires; unknown addresses and wrong passwords are
    answered alike.  The two controllers agree by construction on valid
    requests, and the specification's registration run is an example.
    The older controller's [generateToken], [registerUser], [loginUser]
    and [getAuthUser] are the routed ones line for line ([*_legacy]). *)

From S2P Require Import Prelude Models Token.
Set Warnings "-clear-no-such-hyp".

(** ** E-mail addresses and codes *)

(** [String.prototype.toLowerCase] on ASCII text. *)
Definition lower_char (c : Ascii.ascii) : Ascii.ascii :=
  let n := Ascii.N_of_ascii c in
  if (65 <=? n)%N && (n <=? 90)%N then Ascii.ascii_of_N (n + 32) else c.

Fixpoint lower (s : string) : string :=
  match s with
  | EmptyString => EmptyString
  | String c s' => String (lower_char c) (lower s')
  end.

(** The [email] path is [lowercase: true, trim: true]; Mongoose applies
    the same setters to the values of a query on the path. *)
Definition norm_email (s : string) : string := lower (trim s).

(** [User.findOne({ email })] *)
Definition find_user_by_email (d : Db) (e : string) : option (Id * User.t) :=
  map_find (fun iu => String.eqb (User.email iu.2) e) (users d).

(** [User.findOne({ username })] *)
Definition find_user_by_username (d : Db) (n : string) : option (Id * User.t) :=
  map_find (fun iu => match User.username iu.2 with
                      | Some m => String.eqb m n
                      | None => false
                      end) (users d).

(** [crypto.randomInt(min, max)]: an integer of [[min, max)], from the
    value [seed] the random source produced. *)
Definition randomInt (min max seed : Z) : Z := (min + seed mod (max - min))%Z.

(** [n.toString()] *)
Definition otp_of (n : Z) : string := Z_to_dec n.

(** [10 * 60 * 1000] ms *)
Definition otp_ttl : Z := 10 * 60 * 1000.

(** [expiresIn: '90d'], in seconds. *)
Definition token_ttl : Z := 90 * 24 * 60 * 60.

(** [user.otpExpires < Date.now()]; an absent date compares as [NaN]. *)
Definition otp_expired (exp : option Z) (now : Z) : bool :=
  match exp with Some x => (x <? now)%Z | None => false end.

(** [user.otp !== otp] is false exactly for the same string. *)
Definition otp_matches (v : JsVal) (stored : option string) : bool :=
  match v, stored with
  | JStr s, Some s' => String.eqb s s'
  | JUndef, None => true
  | _, _ => false
  end.

Definition set_otp (otp : option string) (exp : option Z) (u : User.t) : User.t :=
  User.mk (User.username u) (User.email u) (User.password u) (User.profileImageUrl u)
    (User.bio u) (User.interestedEvents u) (User.followers u) (User.following u)
    otp exp (User.isVerified u).

(** [new User({ email, otp, otpExpires })] with the schema's defaults. *)
Definition new_user (e otp : string) (exp : Z) : User.t :=
  User.mk None e None None "" [] [] [] (Some otp) (Some exp) false.

(** Lines 99-104 of the routed controller (93-97 of the older one). *)
Definition verified_user (uname hash : string) (u : User.t) : User.t :=
  User.mk (Some uname) (User.email u) (Some hash) (User.profileImageUrl u)
    (User.bio u) (User.interestedEvents u) (User.followers u) (User.following u)
    None None true.

(** [.select('-password')] *)
Definition hide_password (u : User.t) : User.t :=
  User.mk (User.username u) (User.email u) None (User.profileImageUrl u)
    (User.bio u) (User.interestedEvents u) (User.followers u) (User.following u)
    (User.otp u) (User.otpExpires u) (User.isVerified u).

(** [{ email, otp, username, password, userType } = req.body] *)
Record AuthBody := mkAuthBody {
  ab_email : JsVal;
  ab_otp : JsVal;
  ab_username : JsVal;
  ab_password : JsVal;
  ab_userType : JsVal
}.

(** ** The registration automaton of the specification (section 4.1) *)

Inductive RegState :=
  | NoAccount
  | Unverified (code : option (string * Z))
  | Verified.

(** The state of one account. *)
Definition user_state (u : User.t) : RegState :=
  if User.isVerified u then Verified
  else Unverified (match User.otp u, User.otpExpires u with
                   | Some c, Some x => Some (c, x)
                   | _, _ => None
                   end).

(** The state of an address in a store. *)
Definition reg_state (d : Db) (e : string) : RegState :=
  match find_user_by_email d e with
  | None => NoAccount
  | Some (_, u) => user_state u
  end.

(** Request a code (a new one replaces a pending one), confirm it, have it
    rejected and cleared, or stay. *)
Inductive reg_trans : RegState -> RegState -> Prop :=
  | rt_request s c : s <> Verified -> reg_trans s (Unverified (Some c))
  | rt_confirm c : reg_trans (Unverified (Some c)) Verified
  | rt_reject c : reg_trans (Unverified c) (Unverified None)
  | rt_stay s : reg_trans s s.

(** ** The invariant of the user collection *)

(** The unique index on [email]. *)
Definition emails_unique (d : Db) : Prop :=
  forall i j u v, users d !! i = Some u -> users d !! j = Some v ->
  User.email u = User.email v -> i = j.

(** A verified account has a username and a password and no pending code;
    an unverified one has a code exactly when it has an expiry. *)
Definition user_ok (u : User.t) : Prop :=
  if User.isVerified u
  then User.username u <> None /\ User.password u <> None /\ User.otp u = None
  else (is_Some (User.otp u) <-> is_Some (User.otpExpires u)).

Definition auth_inv (d : Db) : Prop :=
  emails_unique d /\ map_Forall (fun _ u => user_ok u) (users d).

(** ** The bearer-token middleware *)

(** [s.split(' ')] *)
Fixpoint split_go (s cur : string) : list string :=
  match s with
  | EmptyString => [cur]
  | String c s' =>
      if Ascii.eqb c space_char then cur :: split_go s' ""
      else split_go s' (String.append cur (String c ""))
  end.

Definition split_space (s : string) : list string := split_go s "".

(** [a || b || c] on optional ids. *)
Fixpoint first_truthy (l : list (option Id)) : option Id :=
  match l with
  | [] => None
  | Some s :: l' => if String.eqb s "" then first_truthy l' else Some s
  | None :: l' => first_truthy l'
  end.

Section Handlers.
Context `{TokenService}.
(** [bcrypt.hash(password, 10)]; [bcrypt.compare(pw, h)] holds exactly when
    [h] was made from [pw]. *)
Variable bhash : string -> string.

(** [generateToken] (lines 7-13). *)
Definition generateToken (uid : Id) (now : Z) : string :=
  jwt_sign (mkPayload (Some uid) None None) token_ttl now.

(** [protect] (authMiddleware.js, lines 3-33), given the [Authorization]
    and [x-auth-token] headers: [Ok _ uid] is the call of [next()] with
    [req.user = { id: uid }]. *)
Definition protect (authorization x_auth : option string) (now : Z) : Res Id :=
  let token := match authorization with
               | Some h =>
                   if negb (String.eqb h "") && String.prefix "Bearer " h
                   then nth_error (split_space h) 1 else x_auth
               | None => x_auth
               end in
  match token with
  | None => Err 401 "No token, authorization denied"
  | Some t =>
      if String.eqb t "" then Err 401 "No token, authorization denied"
      else match jwt_verify t now with
           | None => Err 401 "Token is not valid or expired"
           | Some p =>
               match first_truthy [pl_user p; pl__id p; pl_id p] with
               | None => Err 401 "Invalid token payload"
               | Some uid => Ok 200 uid
               end
           end
  end.

(** [registerUser] (lines 16-65).  [r] is what the random source
    produced for [crypto.randomInt] and [sent] whether [sendEmail]
    succeeded.  The copy in
    src/event_backend-main differs only by [userType: 'personal'] in
    [new User(...)], a path UserSchema does not declare, which strict mode
    discards: both controllers are this definition. *)
Definition registerUser (email : JsVal) (r : Z) (sent : bool) (now : Z) (d : Db)
    : Db * Res string :=
  if negb (truthy email) then (d, Err 400 "Please provide an email") else
  let e := norm_email (js_string email) in
  let otp := otp_of (randomInt 100000 999999 r) in
  let exp := (now + otp_ttl)%Z in
  let finish d1 :=
    if sent then (d1, Ok 200 "OTP sent to your email. Please verify to complete registration.")
    else (d1, Err 500 "Server error during registration") in
  match find_user_by_email d e with
  | Some (i, u) =>
      if User.isVerified u then (d, Err 400 "User with this email already exists")
      else finish (set_users (<[i := set_otp (Some otp) (Some exp) u]>) d)
  | None =>
      (* [required: true] rejects an address that trims to nothing *)
      if String.eqb e "" then (d, Err 500 "Server error during registration")
      else finish (set_users (<[new_id d := new_user e otp exp]>) d)
  end.

(** The part of [verifyOtpAndRegister] the two controllers share (lines
    79-108 of the routed one, 75-101 of the older one).  The routed one
    also assigns [user.userType], a path the schema does not declare:
    strict mode discards the assignment. *)
Definition verify_core (b : AuthBody) (now : Z) (d : Db) : Db * Res (string * Id * User.t) :=
  let e := norm_email (js_string (ab_email b)) in
  match find_user_by_email d e with
  | None => (d, Err 400 "Invalid email or user already verified.")
  | Some (i, u) =>
      if User.isVerified u then (d, Err 400 "Invalid email or user already verified.")
      else if negb (otp_matches (ab_otp b) (User.otp u)) || otp_expired (User.otpExpires u) now then
        (set_users (<[i := set_otp None None u]>) d, Err 400 "Invalid or expired OTP.")
      else
        let uname := trim (js_string (ab_username b)) in
        match find_user_by_username d uname with
        | Some _ => (d, Err 400 "Username already taken.")
        | None =>
            match ab_password b with
            | JStr pw =>
                let u' := verified_user uname (bhash pw) u in
                (set_users (<[i := u']>) d, Ok 201 (generateToken i now, i, u'))
            | _ => (d, Err 500 "Server error during verification")
            end
        end
  end.

(** [verifyOtpAndRegister] of src/event_backend-main (lines 68-107). *)
Definition verifyOtpAndRegister_legacy (b : AuthBody) (now : Z) (d : Db)
    : Db * Res (string * Id * User.t) :=
  if negb (truthy (ab_email b)) || negb (truthy (ab_otp b)) ||
     negb (truthy (ab_username b)) || negb (truthy (ab_password b)) then
    (d, Err 400 "Please provide email, OTP, username, and password")
  else verify_core b now d.

(** [['personal', 'corporate'].includes(userType)] *)
Definition user_type_ok (v : JsVal) : bool :=
  match v with JStr s => String.eqb s "personal" || String.eqb s "corporate" | _ => false end.

(** [verifyOtpAndRegister] of src/controllers (lines 68-114). *)
Definition verifyOtpAndRegister (b : AuthBody) (now : Z) (d : Db)
    : Db * Res (string * Id * User.t) :=
  if negb (truthy (ab_email b)) || negb (truthy (ab_otp b)) ||
     negb (truthy (ab_username b)) || negb (truthy (ab_password b)) ||
     negb (truthy (ab_userType b)) then
    (d, Err 400 "Please provide email, OTP, username, password, and user type")
  else if negb (user_type_ok (ab_userType b)) then
    (d, Err 400 "Invalid user type. Must be personal or corporate.")
  else verify_core b now d.

(** [loginUser] (lines 117-150); it does not write. *)
Definition loginUser (email password : JsVal) (now : Z) (d : Db)
    : Res (string * Id * User.t) :=
  if negb (truthy email) || negb (truthy password) then
    Err 400 "Please provide email and password"
  else match find_user_by_email d (norm_email (js_string email)) with
  | None => Err 404 "Invalid credentials"
  | Some (i, u) =>
      if negb (User.isVerified u) then Err 403 "Please verify your email address first."
      else match User.password u with
      | None => Err 500 "User password not found in DB. Possible schema/config issue."
      | Some h =>
          if String.eqb h "" then
            Err 500 "User password not found in DB. Possible schema/config issue."
          else match password with
          | JStr pw =>
              if String.eqb (bhash pw) h then Ok 200 (generateToken i now, i, u)
              else Err 400 "Invalid credentials"
          | _ => Err 500 "Server error during login"
          end
      end
  end.

(** [getAuthUser] (lines 153-166). *)
Definition getAuthUser (uid : Id) (d : Db) : Res (Id * User.t) :=
  match users d !! uid with
  | None => Err 404 "User not found"
  | Some u => Ok 200 (uid, hide_password u)
  end.

(** The older controller, src/event_backend-main/controllers/authController.js,
    has line for line the same [generateToken] (lines 7-13),
    [registerUser] (lines 17-65: its [new User(...)] lacks the
    [userType: 'personal'] of the routed one, a path strict mode discards),
    [loginUser] (lines 110-143) and [getAuthUser] (lines 146-159). *)
Definition generateToken_legacy : Id -> Z -> string := generateToken.
Definition registerUser_legacy : JsVal -> Z -> bool -> Z -> Db -> Db * Res string :=
  registerUser.
Definition loginUser_legacy : JsVal -> JsVal -> Z -> Db -> Res (string * Id * User.t) :=
  loginUser.
Definition getAuthUser_legacy : Id -> Db -> Res (Id * User.t) := getAuthUser.

End Handlers.

(** ** Examples: an empty collection, a stand-in for bcrypt, a request. *)

Definition auth_db : Db := mkDb ∅ ∅ ∅ [] ∅ [].

Definition demo_hash (pw : string) : string := String.append "$2b$10$" pw.

Definition demo_body (otp : string) : AuthBody :=
  mkAuthBody (JStr "a@x.com") (JStr otp) (JStr "alice") (JStr "secret") (JStr "personal").

(** ** Lemmas on the user collection *)

Lemma find_user_by_email_Some d e i u :
  find_user_by_email d e = Some (i, u) -> users d !! i = Some u /\ User.email u = e.
Proof. intros (? & ?%String.eqb_eq)%map_find_Some. done. Qed.

Lemma find_user_by_email_None d e i u :
  find_user_by_email d e = None -> users d !! i = Some u -> User.email u <> e.
Proof. intros H Hi. apply String.eqb_neq. exact (map_find_None _ _ H _ _ Hi). Qed.

Lemma find_user_by_email_unique d e i u :
  emails_unique d -> users d !! i = Some u -> User.email u = e ->
  find_user_by_email d e = Some (i, u).
Proof.
  intros Hu Hi He. destruct (find_user_by_email d e) as [[j v]|] eqn:F.
  - apply find_user_by_email_Some in F as [Hj Hv].
    assert (j = i) as -> by (eapply Hu; [exact Hj|exact Hi|congruence]). congruence.
  - by apply (find_user_by_email_None _ _ _ _ F) in Hi.
Qed.

(** Writing a document whose address differs from [e] over one whose
    address differs from [e] leaves the answer for [e] alone. *)
Lemma find_user_by_email_insert_other d i u' e :
  emails_unique (set_users (<[i := u']>) d) -> User.email u' <> e ->
  (forall u, users d !! i = Some u -> User.email u <> e) ->
  find_user_by_email (set_users (<[i := u']>) d) e = find_user_by_email d e.
Proof.
  intros Hu' He' Hi. destruct (find_user_by_email d e) as [[j v]|] eqn:F.
  - apply find_user_by_email_Some in F as [Hj Hv].
    apply find_user_by_email_unique; [done| |done].
    simpl. rewrite lookup_insert. case_decide; subst; [by apply Hi in Hj|done].
  - destruct (find_user_by_email (set_users _ d) e) as [[j v]|] eqn:F'; [|done].
    apply find_user_by_email_Some in F' as [Hj Hv]. simpl in Hj.
    rewrite lookup_insert in Hj.
    case_decide; [simplify_eq; congruence|by apply (find_user_by_email_None _ _ _ _ F) in Hj].
Qed.

(** Writing one document of the collection keeps the invariant when the
    address stays the same, or is new to the collection. *)
Lemma auth_inv_insert d i u' :
  auth_inv d -> user_ok u' ->
  (exists u, users d !! i = Some u /\ User.email u' = User.email u) \/
  (users d !! i = None /\ forall j v, users d !! j = Some v -> User.email v <> User.email u') ->
  auth_inv (set_users (<[i := u']>) d).
Proof.
  intros [Hu Hok] Hu' Hcase. split; [|by apply map_Forall_insert_2].
  assert (Hnew : forall k w, k <> i -> users d !! k = Some w -> User.email u' = User.email w -> False).
  { intros k w Hk Hw E. destruct Hcase as [(u & Hi & He)|(Hi & Hfresh)].
    - apply Hk. symmetry. eapply Hu; [exact Hi|exact Hw|congruence].
    - by apply (Hfresh k w Hw). }
  intros j k v w Hj Hk Hvw. simpl in Hj, Hk.
  destruct (decide (j = i)) as [->|Hji]; destruct (decide (k = i)) as [->|Hki].
  - done.
  - rewrite lookup_insert_eq in Hj. rewrite lookup_insert_ne in Hk by done. simplify_eq.
    by destruct (Hnew k w Hki Hk Hvw).
  - rewrite lookup_insert_eq in Hk. rewrite lookup_insert_ne in Hj by done. simplify_eq.
    by destruct (Hnew j v Hji Hj (eq_sym Hvw)).
  - rewrite lookup_insert_ne in Hj, Hk by done. eapply Hu; eauto.
Qed.

Lemma reg_state_insert_same d i u u' :
  emails_unique (set_users (<[i := u']>) d) -> emails_unique d ->
  users d !! i = Some u -> User.email u' = User.email u ->
  reg_state (set_users (<[i := u']>) d) (User.email u) = user_state u'.
Proof.
  intros Hu' Hu Hi He. unfold reg_state.
  rewrite (find_user_by_email_unique _ _ i u'); [done|done| |done].
  simpl. by rewrite lookup_insert_eq.
Qed.

Lemma reg_state_insert_other d i u' e :
  emails_unique (set_users (<[i := u']>) d) -> User.email u' <> e ->
  (forall u, users d !! i = Some u -> User.email u <> e) ->
  reg_state (set_users (<[i := u']>) d) e = reg_state d e.
Proof. intros. unfold reg_state. by rewrite find_user_by_email_insert_other. Qed.

(** The state of every address after writing one document. *)
Lemma reg_state_insert d i u' e :
  emails_unique (set_users (<[i := u']>) d) ->
  (forall u, users d !! i = Some u -> User.email u' = User.email u) ->
  reg_state (set_users (<[i := u']>) d) e =
    if String.eqb (User.email u') e then user_state u' else reg_state d e.
Proof.
  intros Hu' Hold. destruct (String.eqb_spec (User.email u') e) as [<-|Hne].
  - unfold reg_state. rewrite (find_user_by_email_unique _ _ i u'); [done|done| |done].
    simpl. by rewrite lookup_insert_eq.
  - apply reg_state_insert_other; [done|done|]. intros u Hi. rewrite <- (Hold u Hi). done.
Qed.

Lemma reg_state_of d i u :
  emails_unique d -> users d !! i = Some u -> reg_state d (User.email u) = user_state u.
Proof. intros Hu Hi. unfold reg_state. by rewrite (find_user_by_email_unique _ _ i u). Qed.

Lemma split_go_no_space s cur :
  no_space s = true -> split_go s cur = [String.append cur s].
Proof.
  revert cur. induction s as [|c s IH]; intros cur Hs; simpl in *.
  - by rewrite string_app_nil_r.
  - apply andb_prop in Hs as [Hc Hs]. apply negb_true_iff in Hc. rewrite Hc, IH by done.
    by rewrite string_app_assoc.
Qed.

Section Props.
Context `{TokenService} (bhash : string -> string).

(** What [registerUser] writes: nothing, or one unverified account holding
    the new code, at the address of the request. *)
Lemma registerUser_store email r sent now d :
  let d' := (registerUser email r sent now d).1 in
  d' = d \/
  exists i u', d' = set_users (<[i := u']>) d /\
    user_state u' = Unverified (Some (otp_of (randomInt 100000 999999 r), (now + otp_ttl)%Z)) /\ user_ok u' /\
    User.email u' = norm_email (js_string email) /\
    ((exists u, users d !! i = Some u /\ User.isVerified u = false /\
                User.email u' = User.email u) \/
     (users d !! i = None /\ find_user_by_email d (User.email u') = None)).
Proof.
  unfold registerUser. destruct (truthy email); simpl; [|by left].
  destruct (find_user_by_email d _) as [[i u]|] eqn:F.
  - apply find_user_by_email_Some in F as [Hi He].
    destruct (User.isVerified u) eqn:Hv; [by left|].
    right. exists i, (set_otp (Some (otp_of (randomInt 100000 999999 r))) (Some (now + otp_ttl)%Z) u).
    split; [by destruct sent|]. unfold user_state, user_ok, set_otp. simpl. rewrite Hv.
    split_and!; [done|split; eauto|done|left; eauto].
  - destruct (String.eqb _ "") eqn:He; [by left|].
    right. eexists _, (new_user _ (otp_of (randomInt 100000 999999 r)) (now + otp_ttl)%Z).
    split; [by destruct sent|]. unfold user_state, user_ok, new_user. simpl.
    split_and!; [done|split; eauto|done|right].
    split; [apply new_id_not_user|done].
Qed.

(** What [verify_core] writes, given a present code: nothing, the account
    with its code cleared, or the account verified. *)
Lemma verify_core_store b now d :
  truthy (ab_otp b) = true ->
  let d' := (verify_core bhash b now d).1 in
  d' = d \/
  exists i u u', users d !! i = Some u /\ User.isVerified u = false /\
    User.email u' = User.email u /\ user_ok u' /\ d' = set_users (<[i := u']>) d /\
    ((u' = set_otp None None u) \/ (User.isVerified u' = true /\ is_Some (User.otp u))).
Proof.
  intros Ht. unfold verify_core.
  destruct (find_user_by_email d _) as [[i u]|] eqn:F; [|by left].
  apply find_user_by_email_Some in F as [Hi _].
  destruct (User.isVerified u) eqn:Hv; [by left|].
  destruct (negb (otp_matches (ab_otp b) (User.otp u)) || otp_expired (User.otpExpires u) now)
    eqn:Hm; simpl.
  - right. exists i, u, (set_otp None None u). unfold user_ok, set_otp. simpl. rewrite Hv.
    split_and!; first [done | by left | split; intros [? ?]; done].
  - apply orb_false_iff in Hm as [Hm _]. apply negb_false_iff in Hm.
    destruct (find_user_by_username d _); [by left|].
    destruct (ab_password b) as [| |?|?|pw]; try by left.
    right. exists i, u, (verified_user (trim (js_string (ab_username b))) (bhash pw) u).
    unfold user_ok, verified_user. simpl. split_and!; try done. right. split; [done|].
    destruct (ab_otp b), (User.otp u); simpl in *; try done; eauto.
Qed.

Lemma registerUser_inv email r sent now d :
  auth_inv d -> auth_inv (registerUser email r sent now d).1.
Proof.
  intros Hd. destruct (registerUser_store email r sent now d)
    as [->|(i & u' & -> & _ & Hok & _ & [(u & Hi & _ & He)|(Hi & F)])]; [done| |].
  - apply auth_inv_insert; eauto.
  - apply auth_inv_insert; [done|done|]. right. split; [done|].
    intros j v Hj. exact (find_user_by_email_None _ _ _ _ F Hj).
Qed.

Lemma verifyOtpAndRegister_cases b now d :
  (exists m, verifyOtpAndRegister bhash b now d = (d, Err 400 m) /\
     m <> "Invalid or expired OTP.") \/
  (truthy (ab_email b) = true /\ truthy (ab_otp b) = true /\ truthy (ab_password b) = true /\
   verifyOtpAndRegister bhash b now d = verify_core bhash b now d).
Proof.
  unfold verifyOtpAndRegister.
  destruct (truthy (ab_email b)) eqn:?, (truthy (ab_otp b)) eqn:?,
    (truthy (ab_username b)) eqn:?, (truthy (ab_password b)) eqn:?,
    (truthy (ab_userType b)) eqn:?; simpl; try (left; eexists; split; [reflexivity|done]).
  destruct (user_type_ok (ab_userType b)); simpl; [by right|].
  left; eexists; split; [reflexivity|done].
Qed.

Lemma verify_inv b now d :
  auth_inv d -> auth_inv (verifyOtpAndRegister bhash b now d).1.
Proof.
  intros Hd. destruct (verifyOtpAndRegister_cases b now d) as [(m & -> & _)|(_ & Ht & _ & ->)];
    [done|].
  destruct (verify_core_store b now d Ht) as [->|(i & u & u' & Hi & _ & He & Hok & -> & _)];
    [done|].
  apply auth_inv_insert; eauto.
Qed.

Lemma verify_core_invalid b now d d' :
  verify_core bhash b now d = (d', Err 400 "Invalid or expired OTP.") ->
  exists i u, find_user_by_email d (norm_email (js_string (ab_email b))) = Some (i, u) /\
    User.isVerified u = false /\ d' = set_users (<[i := set_otp None None u]>) d.
Proof.
  unfold verify_core. intros E.
  destruct (find_user_by_email d _) as [[i u]|]; [|done].
  destruct (User.isVerified u) eqn:Hv; [done|].
  destruct (_ || _); [simplify_eq; eauto|].
  by repeat (case_match; simplify_eq).
Qed.

Lemma verify_core_Ok b now d d' c t i u' :
  verify_core bhash b now d = (d', Ok c (t, i, u')) ->
  exists u pw, find_user_by_email d (norm_email (js_string (ab_email b))) = Some (i, u) /\
    User.isVerified u = false /\ ab_password b = JStr pw /\
    u' = verified_user (trim (js_string (ab_username b))) (bhash pw) u /\
    d' = set_users (<[i := u']>) d /\ t = generateToken i now.
Proof.
  unfold verify_core. intros E.
  destruct (find_user_by_email d _) as [[j u]|]; [|done].
  destruct (User.isVerified u) eqn:Hv; [done|].
  destruct (_ || _); [done|]. destruct (find_user_by_username _ _); [done|].
  destruct (ab_password b) as [| |?|?|pw]; try done. simplify_eq. eauto 10.
Qed.

(** C17: registration and verification keep the user collection
    well formed: one account per address, every verified account with a
    username and a password and no pending code, every unverified one with
    a code exactly when it has an expiry. *)
Theorem auth_handlers_inv email r sent b now d :
  auth_inv d ->
  auth_inv (registerUser email r sent now d).1 /\
  auth_inv (verifyOtpAndRegister bhash b now d).1.
Proof. intros Hd. split; [by apply registerUser_inv|by apply verify_inv]. Qed.

(** C15: on a well-formed store, every call of [registerUser]
    and of [verifyOtpAndRegister] moves each address along the automaton
    of the specification: a code is requested for an address without a
    verified account (replacing a pending one), a pending code is
    confirmed, or the code is cleared; every other address stays. *)
Theorem auth_reg_refinement email r sent b now d e :
  auth_inv d ->
  reg_trans (reg_state d e) (reg_state (registerUser email r sent now d).1 e) /\
  reg_trans (reg_state d e) (reg_state (verifyOtpAndRegister bhash b now d).1 e).
Proof.
  intros Hd. split.
  - pose proof (registerUser_inv email r sent now d Hd) as [Hu' _].
    destruct (registerUser_store email r sent now d)
      as [->|(i & u' & Hd' & Hst & _ & _ & Hcase)]; [apply rt_stay|].
    rewrite Hd' in Hu' |- *. rewrite reg_state_insert; [|done|].
    2:{ intros u Hi. destruct Hcase as [(u0 & Hi0 & _ & He)|(Hi0 & _)]; congruence. }
    destruct (String.eqb_spec (User.email u') e) as [<-|_]; [|apply rt_stay].
    rewrite Hst. apply rt_request.
    destruct Hcase as [(u0 & Hi0 & Hv & ->)|(_ & F)].
    + rewrite (reg_state_of _ _ _ (proj1 Hd) Hi0). unfold user_state. by rewrite Hv.
    + unfold reg_state. by rewrite F.
  - pose proof (verify_inv b now d Hd) as [Hu' _].
    destruct (verifyOtpAndRegister_cases b now d) as [(m & -> & _)|(_ & Ht & _ & E)];
      [apply rt_stay|]. rewrite E in Hu' |- *.
    destruct (verify_core_store b now d Ht)
      as [->|(i & u & u' & Hi & Hv & He & _ & Hd' & Hcase)]; [apply rt_stay|].
    rewrite Hd' in Hu' |- *. rewrite reg_state_insert; [|done|congruence].
    destruct (String.eqb_spec (User.email u') e) as [<-|_]; [|apply rt_stay].
    rewrite He, (reg_state_of _ _ _ (proj1 Hd) Hi).
    destruct Hcase as [->|(Hv' & Hotp)].
    + unfold user_state, set_otp. simpl. rewrite Hv. apply rt_reject.
    + unfold user_state at 2. rewrite Hv'. pose proof (proj2 Hd _ _ Hi) as Hok.
      unfold user_ok in Hok. rewrite Hv in Hok. unfold user_state. rewrite Hv.
      destruct Hotp as [c Hc]. destruct (proj1 Hok (ex_intro _ c Hc)) as [x Hx].
      rewrite Hc, Hx. apply rt_confirm.
Qed.

(** C16: a code rejected as invalid or expired is cleared:
    afterwards every verification attempt for the address fails, with the
    right code as with any other, until a new code is requested. *)
Theorem rejected_code_invalidated b b' now now' d d' :
  auth_inv d ->
  verifyOtpAndRegister bhash b now d = (d', Err 400 "Invalid or expired OTP.") ->
  norm_email (js_string (ab_email b')) = norm_email (js_string (ab_email b)) ->
  is_ok (verifyOtpAndRegister bhash b' now' d').2 = false.
Proof.
  intros Hd E He.
  destruct (verifyOtpAndRegister_cases b now d) as [(m & E' & Hm)|(_ & _ & _ & E')];
    rewrite E' in E; [by simplify_eq|].
  apply verify_core_invalid in E as (i & u & F & Hv & ->).
  apply find_user_by_email_Some in F as [Hi Hue].
  destruct (verifyOtpAndRegister_cases b' now' (set_users (<[i := set_otp None None u]>) d))
    as [(m & -> & _)|(_ & Ht & _ & ->)]; [done|].
  assert (Hinv : auth_inv (set_users (<[i := set_otp None None u]>) d)).
  { apply auth_inv_insert; [done| |left; eauto]. unfold user_ok, set_otp. simpl.
    rewrite Hv. split; intros [? ?]; done. }
  unfold verify_core. rewrite He, <- Hue.
  rewrite (find_user_by_email_unique _ _ i (set_otp None None u)); [|apply Hinv| |done].
  - simpl. rewrite Hv. destruct (ab_otp b'); done.
  - simpl. by rewrite lookup_insert_eq.
Qed.

(** C30: after a successful verification, logging in with the
    same address and password answers a token for the verified account. *)
Theorem verify_then_login b now now' d d' t i u' pw :
  auth_inv d ->
  verifyOtpAndRegister bhash b now d = (d', Ok 201 (t, i, u')) ->
  ab_password b = JStr pw -> bhash pw <> "" ->
  t = generateToken i now /\
  loginUser bhash (ab_email b) (JStr pw) now' d' = Ok 200 (generateToken i now', i, u').
Proof.
  intros Hd E Hpw Hh.
  destruct (verifyOtpAndRegister_cases b now d) as [(m & E' & _)|(Hte & _ & Htp & E')];
    rewrite E' in E; [done|].
  apply verify_core_Ok in E as (u & pw' & F & Hv & Hpw' & -> & -> & ->).
  rewrite Hpw in Hpw'. injection Hpw' as <-.
  apply find_user_by_email_Some in F as [Hi Hue]. split; [done|].
  assert (Hinv : auth_inv (set_users (<[i := verified_user (trim (js_string (ab_username b)))
                                                (bhash pw) u]>) d)).
  { apply auth_inv_insert; [done|by unfold user_ok|left; eauto]. }
  unfold loginUser. rewrite Hte, Hpw in *. simpl in Htp |- *. rewrite Htp. simpl.
  rewrite <- Hue. rewrite (find_user_by_email_unique _ _ i
    (verified_user (trim (js_string (ab_username b))) (bhash pw) u)); [|apply Hinv| |done].
  - simpl. rewrite (proj2 (String.eqb_neq _ _) Hh), String.eqb_refl. done.
  - simpl. by rewrite lookup_insert_eq.
Qed.

(** The routed controller and the older copy agree on every
    request with a valid [userType]: the same store, the same status, and
    the same answer except for the wording of the missing-field message;
    any other request is rejected with 400 and changes nothing.  The
    [userType] itself is never stored. *)
Theorem verify_controllers_agree b now d :
  (user_type_ok (ab_userType b) = true ->
   (verifyOtpAndRegister bhash b now d).1 = (verifyOtpAndRegister_legacy bhash b now d).1 /\
   res_code (verifyOtpAndRegister bhash b now d).2 =
     res_code (verifyOtpAndRegister_legacy bhash b now d).2 /\
   (is_ok (verifyOtpAndRegister_legacy bhash b now d).2 = true ->
    verifyOtpAndRegister bhash b now d = verifyOtpAndRegister_legacy bhash b now d)) /\
  (user_type_ok (ab_userType b) = false ->
   exists m, verifyOtpAndRegister bhash b now d = (d, Err 400 m)).
Proof.
  unfold verifyOtpAndRegister, verifyOtpAndRegister_legacy. split; intros Hu.
  - assert (truthy (ab_userType b) = true) as ->.
    { destruct (ab_userType b) as [| |?|?|s]; try done. simpl in *.
      apply orb_true_iff in Hu as [E|E]; apply String.eqb_eq in E; by subst. }
    rewrite Hu. simpl. rewrite orb_false_r. by destruct (_ || _).
  - rewrite Hu. simpl. by destruct (_ || _); eexists.
Qed.

(** C31: a login with an unknown address answers 404 and one
    with a wrong password 400, both "Invalid credentials". *)
Theorem loginUser_bad_credentials email pw now d :
  truthy email = true -> pw <> "" ->
  (find_user_by_email d (norm_email (js_string email)) = None ->
   loginUser bhash email (JStr pw) now d = Err 404 "Invalid credentials") /\
  (forall i u h, find_user_by_email d (norm_email (js_string email)) = Some (i, u) ->
   User.isVerified u = true -> User.password u = Some h -> h <> "" -> bhash pw <> h ->
   loginUser bhash email (JStr pw) now d = Err 400 "Invalid credentials").
Proof.
  intros He Hpw. unfold loginUser. rewrite He. simpl.
  replace (negb (negb (String.eqb pw ""))) with false
    by (by rewrite (proj2 (String.eqb_neq _ _) Hpw)).
  split; [by intros ->|]. intros i u h -> Hv Hp Hh Hb. rewrite Hv, Hp. simpl.
  by rewrite (proj2 (String.eqb_neq _ _) Hh), (proj2 (String.eqb_neq _ _) Hb).
Qed.

(** C28: the middleware accepts a token issued by [generateToken]
    exactly until it expires, through the [Authorization: Bearer] header
    as through [x-auth-token], and identifies the user it was issued for. *)
Theorem protect_generateToken uid now now' :
  uid <> "" ->
  protect (Some (String.append "Bearer " (generateToken uid now))) None now' =
    protect None (Some (generateToken uid now)) now' /\
  protect None (Some (generateToken uid now)) now' =
    if Z.ltb (now' / 1000) (now / 1000 + token_ttl) then Ok 200 uid
    else Err 401 "Token is not valid or expired".
Proof.
  intros Hu. unfold protect, generateToken.
  pose proof (jwt_sign_no_space (mkPayload (Some uid) None None) token_ttl now) as Hs.
  pose proof (jwt_sign_nonempty (mkPayload (Some uid) None None) token_ttl now) as Hn.
  set (t := jwt_sign _ _ _) in *. split.
  - simpl. change (String.append "" t) with t. rewrite (split_go_no_space t "" Hs).
    by destruct t.
  - rewrite (proj2 (String.eqb_neq _ _) Hn). unfold t. rewrite jwt_verify_sign.
    destruct (Z.ltb _ _); [|done]. simpl. by rewrite (proj2 (String.eqb_neq _ _) Hu).
Qed.
End Props.

(** ** Codes *)

Lemma otp_of_digits n :
  (100000 <= n < 999999)%Z ->
  String.length (otp_of n) = 6 /\ dec_to_N (otp_of n) = Some (Z.to_N n).
Proof.
  intros Hr. unfold otp_of, Z_to_dec.
  replace (n <? 0)%Z with false by (symmetry; apply Z.ltb_ge; lia).
  split; [|apply dec_to_N_N_to_dec].
  apply (N_to_dec_length 5). change (10 ^ N.of_nat 5)%N with 100000%N.
  change (10 ^ N.of_nat 6)%N with 1000000%N. lia.
Qed.

Lemma user_state_otp u c x : user_state u = Unverified (Some (c, x)) -> User.otp u = Some c.
Proof. unfold user_state. by repeat case_match; intros; simplify_eq. Qed.

Section Codes.
Context `{TokenService}.

(** C29: whatever the random source produces, the code [registerUser]
    stores for an address is a string of exactly six digits, reading back
    as a number of [[100000, 999999)]. *)
Theorem otp_six_digits email r sent now d :
  let d' := (registerUser email r sent now d).1 in
  d' = d \/
  exists i u c, d' = set_users (<[i := u]>) d /\ User.otp u = Some c /\
    String.length c = 6 /\ exists n, dec_to_N c = Some n /\ (100000 <= n < 999999)%N.
Proof.
  destruct (registerUser_store email r sent now d) as [E|(i & u & E & Hs & _)];
    [by left|right].
  pose proof (Z.mod_pos_bound r (999999 - 100000) ltac:(lia)).
  destruct (otp_of_digits (randomInt 100000 999999 r)) as [Hl Hd]; [unfold randomInt; lia|].
  exists i, u, (otp_of (randomInt 100000 999999 r)).
  split_and!; [done|by eapply user_state_otp|done|].
  eexists. split; [done|]. unfold randomInt. lia.
Qed.

End Codes.

Lemma auth_inv_empty : auth_inv auth_db.
Proof.
  split; [|apply map_Forall_empty].
  intros i j u v Hi. simpl in Hi. by rewrite lookup_empty in Hi.
Qed.

(** ** Witnesses *)

Lemma auth_handlers_inv_witness :
  auth_inv (registerUser (JStr "a@x.com") 23456 true 0 auth_db).1 /\
  auth_inv (verifyOtpAndRegister demo_hash (demo_body "123456") 1000 auth_db).1.
Proof. apply (auth_handlers_inv demo_hash (JStr "a@x.com") 23456 true _ 0 auth_db). exact auth_inv_empty. Defined.

Lemma auth_reg_refinement_witness :
  reg_trans (reg_state auth_db "a@x.com")
    (reg_state (registerUser (JStr "a@x.com") 23456 true 0 auth_db).1 "a@x.com") /\
  reg_trans (reg_state auth_db "a@x.com")
    (reg_state (verifyOtpAndRegister demo_hash (demo_body "123456") 0 auth_db).1 "a@x.com").
Proof. apply (auth_reg_refinement demo_hash). exact auth_inv_empty. Defined.

Definition reg_db : Db := (registerUser (JStr "a@x.com") 554321 true 0 auth_db).1.

Lemma reg_db_inv : auth_inv reg_db.
Proof. apply registerUser_inv, auth_inv_empty. Qed.

Lemma rejected_code_invalidated_witness :
  verifyOtpAndRegister demo_hash (demo_body "111111") 1000 reg_db =
    ((verifyOtpAndRegister demo_hash (demo_body "111111") 1000 reg_db).1,
     Err 400 "Invalid or expired OTP.") /\
  is_ok (verifyOtpAndRegister demo_hash (demo_body "654321") 2000
           (verifyOtpAndRegister demo_hash (demo_body "111111") 1000 reg_db).1).2 = false.
Proof.
  assert (E : verifyOtpAndRegister demo_hash (demo_body "111111") 1000 reg_db =
    ((verifyOtpAndRegister demo_hash (demo_body "111111") 1000 reg_db).1,
     Err 400 "Invalid or expired OTP.")) by (vm_compute; reflexivity).
  split; [exact E|].
  exact (rejected_code_invalidated demo_hash _ (demo_body "654321") 1000 2000 reg_db _
           reg_db_inv E eq_refl).
Defined.

Lemma verify_then_login_witness :
  exists d' t i u',
    verifyOtpAndRegister demo_hash (demo_body "654321") 4000 reg_db = (d', Ok 201 (t, i, u')) /\
    t = generateToken i 4000 /\
    loginUser demo_hash (JStr "a@x.com") (JStr "secret") 5000 d' =
      Ok 200 (generateToken i 5000, i, u').
Proof.
  destruct (verifyOtpAndRegister demo_hash (demo_body "654321") 4000 reg_db) as [d' r] eqn:E.
  pose proof E as E0. vm_compute in E0.
  destruct r as [c [[t i] u']|c m]; [|discriminate E0].
  injection E0 as _ <- _ _ _. exists d', t, i, u'. split; [done|].
  apply (verify_then_login demo_hash (demo_body "654321") 4000 5000 reg_db d' t i u' "secret").
  - exact reg_db_inv.
  - exact E.
  - reflexivity.
  - discriminate.
Defined.

Lemma verify_controllers_agree_witness :
  user_type_ok (ab_userType (demo_body "654321")) = true /\
  (verifyOtpAndRegister demo_hash (demo_body "654321") 0 reg_db).1 =
    (verifyOtpAndRegister_legacy demo_hash (demo_body "654321") 0 reg_db).1.
Proof.
  split; [reflexivity|].
  apply (proj1 (verify_controllers_agree demo_hash (demo_body "654321") 0 reg_db)). reflexivity.
Defined.

Lemma loginUser_bad_credentials_witness :
  loginUser demo_hash (JStr "z@x.com") (JStr "pw") 0 auth_db = Err 404 "Invalid credentials".
Proof.
  apply (loginUser_bad_credentials demo_hash (JStr "z@x.com") "pw" 0 auth_db);
    [reflexivity|discriminate|reflexivity].
Defined.

Lemma protect_generateToken_witness :
  protect None (Some (generateToken "b" 0)) 1000 = Ok 200 "b".
Proof. exact (proj2 (protect_generateToken "b" 0 1000 ltac:(discriminate))). Defined.

(** ** The registration run of the specification *)

(** [a@x.com] registers and receives a six-digit code; a
    wrong code is rejected, and the right one is then rejected too; after
    a new request the new code verifies the account as [alice], the token
    answered passes the middleware, and [alice] logs in (with the address
    in another case and padded). *)
Example registration_scenario :
  let d1 := (registerUser (JStr "a@x.com") 23456 true 0 auth_db).1 in
  let '(d2, r2) := verifyOtpAndRegister demo_hash (demo_body "111111") 1000 d1 in
  let '(d3, r3) := verifyOtpAndRegister demo_hash (demo_body "123456") 2000 d2 in
  let d4 := (registerUser (JStr "a@x.com") 554321 true 3000 d3).1 in
  let '(d5, r5) := verifyOtpAndRegister demo_hash (demo_body "654321") 4000 d4 in
  String.length (otp_of 123456) = 6 /\
  r2 = Err 400 "Invalid or expired OTP." /\ r3 = Err 400 "Invalid or expired OTP." /\
  match r5 with
  | Ok c (t, i, u) =>
      c = 201%Z /\ User.isVerified u = true /\ User.username u = Some "alice" /\
      protect None (Some t) 5000 = Ok 200 i /\
      is_ok (loginUser demo_hash (JStr "A@x.com ") (JStr "secret") 6000 d5) = true
  | Err _ _ => False
  end.
Proof. vm_compute. split_and!; reflexivity. Qed.
