(* ===== verification/Social.v ===== *)
(** * Social: src/event_backend-main/controllers/userController.js

    Profiles and the follow graph.  [followUser] and [unfollowUser] read
    both users and write back the two modified paths (the follower's
    [following], the followee's [followers]) with two saves; a save writes
    only the paths the handler modified, which [upd_user] models.
    Theorems: following is symmetric with followers and duplicate-free in
    every store the handlers produce from a well-formed one; following
    then unfollowing restores the store; the rejections of the code; only
    the owner edits a profile, and an edit can give two accounts the same
    username, which the specification forbids. *)

From S2P Require Import Prelude Models Posts Auth.
From stdpp Require Import sorting.
Set Warnings "-clear-no-such-hyp".

(** ** Paths of a user document *)

Definition set_following (l : list Id) (u : User.t) : User.t :=
  User.mk (User.username u) (User.email u) (User.password u) (User.profileImageUrl u)
    (User.bio u) (User.interestedEvents u) (User.followers u) l
    (User.otp u) (User.otpExpires u) (User.isVerified u).

Definition set_followers (l : list Id) (u : User.t) : User.t :=
  User.mk (User.username u) (User.email u) (User.password u) (User.profileImageUrl u)
    (User.bio u) (User.interestedEvents u) l (User.following u)
    (User.otp u) (User.otpExpires u) (User.isVerified u).

Definition set_profile (name : option string) (bio : string) (img : option string)
    (u : User.t) : User.t :=
  User.mk name (User.email u) (User.password u) img bio (User.interestedEvents u)
    (User.followers u) (User.following u) (User.otp u) (User.otpExpires u)
    (User.isVerified u).

(** [doc.save()] after modifying some paths: the stored document gets the
    new values of those paths. *)
Definition upd_user (f : User.t -> User.t) (i : Id) (d : Db) : Db :=
  set_users (alter f i) d.

(** The schema's [bio] validator ([maxlength: 200], after [trim]). *)
Definition bio_ok (b : string) : bool := (String.length b <=? 200)%nat.

(** ** The follow graph *)

(** Following is mirrored by followers, for every pair of stored users,
    and no list holds an id twice. *)
Definition follow_sym (d : Db) : Prop :=
  forall a b ua ub, users d !! a = Some ua -> users d !! b = Some ub ->
  b ∈ User.following ua <-> a ∈ User.followers ub.

Definition graph_ok (d : Db) : Prop :=
  follow_sym d /\
  map_Forall (fun _ u => NoDup (User.following u) /\ NoDup (User.followers u)) (users d).

Section Handlers.
(** [mongoose.Types.ObjectId.isValid] *)
Variable oid_ok : Id -> bool.

(** [getUserProfile] (lines 10-27). *)
Definition getUserProfile (uid : Id) (d : Db) : Res User.t :=
  if negb (oid_ok uid) then Err 400 "Invalid User ID format" else
  match users d !! uid with
  | None => Err 404 "User not found"
  | Some u => Ok 200 (hide_password u)
  end.

(** [updateUserProfile] (lines 30-66); [upload] is the [secure_url] of the
    uploaded image, if a file came with the request. *)
Definition updateUserProfile (current target : Id) (username bio : JsVal)
    (upload : option string) (d : Db) : Db * Res User.t :=
  if negb (oid_ok target) then (d, Err 400 "Invalid user ID format")
  else if negb (String.eqb current target) then (d, Err 403 "Unauthorized")
  else match users d !! target with
  | None => (d, Err 404 "User not found")
  | Some u =>
      let name := if truthy username then Some (trim (js_string username)) else User.username u in
      let b := if truthy bio then trim (js_string bio) else User.bio u in
      let img := match upload with Some url => Some url | None => User.profileImageUrl u end in
      if bio_ok b then
        let u' := set_profile name b img u in
        (upd_user (fun _ => u') target d, Ok 200 (hide_password u'))
      else (d, Err 500 "Server Error")
  end.

(** [getUserPosts] (lines 70-87). *)
Definition getUserPosts (uid : Id) (d : Db) : Res (list (Id * Post.t)) :=
  if negb (oid_ok uid) then Err 400 "Invalid User ID format"
  else Ok 200 (merge_sort newer_first
                 (find_posts (fun ip => String.eqb (Post.author ip.2) uid) d)).

(** [followUser] (lines 90-126).  A cast error of [findById] on the
    caller's id reaches the [catch]. *)
Definition followUser (current target : Id) (d : Db) : Db * Res string :=
  if negb (oid_ok target) then (d, Err 400 "Invalid User ID format")
  else if String.eqb target current then (d, Err 400 "You cannot follow yourself.")
  else if negb (oid_ok current) then (d, Err 500 "Server Error")
  else match users d !! target, users d !! current with
  | Some ut, Some uc =>
      if includes (User.following uc) target then (d, Err 400 "Already following this user.")
      else
        let d1 := upd_user (set_following (push (User.following uc) target)) current d in
        let d2 := upd_user (set_followers (push (User.followers ut) current)) target d1 in
        (d2, Ok 200 "User followed successfully.")
  | _, _ => (d, Err 404 "User not found.")
  end.

(** [unfollowUser] (lines 129-165): there is no check that the caller is
    not the target. *)
Definition unfollowUser (current target : Id) (d : Db) : Db * Res string :=
  if negb (oid_ok target) then (d, Err 400 "Invalid User ID format")
  else if negb (oid_ok current) then (d, Err 500 "Server Error")
  else match users d !! target, users d !! current with
  | Some ut, Some uc =>
      if negb (includes (User.following uc) target) then
        (d, Err 400 "You are not following this user.")
      else
        let d1 := upd_user (set_following (pull target (User.following uc))) current d in
        let d2 := upd_user (set_followers (pull current (User.followers ut))) target d1 in
        (d2, Ok 200 "User unfollowed successfully.")
  | _, _ => (d, Err 404 "User not found.")
  end.

(** [getCurrentUserProfile] (lines 168-175): [res.json(null)] when the user
    is gone. *)
Definition getCurrentUserProfile (uid : Id) (d : Db) : Res (option User.t) :=
  if negb (oid_ok uid) then Err 500 "Server error"
  else Ok 200 (hide_password <$> users d !! uid).

End Handlers.

(** ** Examples: [b] named "bob" and [c]. *)

Definition social_db : Db :=
  mkDb (<["b" := set_profile (Some "bob") "" None (demo_user "b")]>
         (<["c" := demo_user "c"]> ∅)) ∅ ∅ [] ∅ [].

(** ** Lemmas *)

Lemma lookup_upd_user f i d j :
  users (upd_user f i d) !! j = if decide (i = j) then f <$> users d !! j else users d !! j.
Proof.
  unfold upd_user. simpl. destruct (decide (i = j)) as [->|].
  - apply lookup_alter_eq.
  - by apply lookup_alter_ne.
Qed.

(** Two path writes, on the follower and on the followee, as relations
    on the edges: the domain is kept, the follower's [following] and the
    followee's [followers] change as [chg] says, every other list stays. *)
Lemma two_writes d c t fc ft uc ut
    (chgF : list Id -> list Id) (chgG : list Id -> list Id) :
  users d !! c = Some uc -> users d !! t = Some ut ->
  let d2 := upd_user (set_followers (chgG (User.followers ut))) t
              (upd_user (set_following (chgF (User.following uc))) c d) in
  fc = chgF (User.following uc) -> ft = chgG (User.followers ut) ->
  (forall a, is_Some (users d2 !! a) <-> is_Some (users d !! a)) /\
  (forall a u u', users d !! a = Some u -> users d2 !! a = Some u' ->
     User.following u' = (if decide (c = a) then fc else User.following u) /\
     User.followers u' = (if decide (t = a) then ft else User.followers u)).
Proof.
  intros Hc Ht d2 -> ->. subst d2. split.
  - intros a. unfold upd_user. simpl. by rewrite !lookup_alter_is_Some.
  - intros a u u' Ha. rewrite !lookup_upd_user.
    repeat case_decide; subst; simplify_eq; intros E;
    rewrite ?Ha, ?Hc, ?Ht in E; simpl in E; injection E as <-; simplify_eq; done.
Qed.

Section Props.
Context (oid_ok : Id -> bool).

Lemma followUser_Ok c t d d' k m :
  followUser oid_ok c t d = (d', Ok k m) ->
  c <> t /\ oid_ok c = true /\ oid_ok t = true /\
  exists uc ut, users d !! c = Some uc /\ users d !! t = Some ut /\
    (t ∉ User.following uc) /\
    d' = upd_user (set_followers (push (User.followers ut) c)) t
           (upd_user (set_following (push (User.following uc) t)) c d).
Proof.
  unfold followUser. destruct (oid_ok t) eqn:Ht; simpl; [|done].
  destruct (String.eqb_spec t c) as [|Hne]; [done|]. destruct (oid_ok c) eqn:Hc; simpl; [|done].
  destruct (users d !! t) as [ut|], (users d !! c) as [uc|]; try done.
  case_includes; [done|]. intros [= <- _ _]. split_and!; [congruence|done|done|]. eauto 10.
Qed.

Lemma followUser_Err c t d d' k m :
  followUser oid_ok c t d = (d', Err k m) -> d' = d.
Proof. unfold followUser. intros E. by repeat (case_match; simplify_eq/=; try done). Qed.

Lemma unfollowUser_Ok c t d d' k m :
  unfollowUser oid_ok c t d = (d', Ok k m) ->
  exists uc ut, users d !! c = Some uc /\ users d !! t = Some ut /\
    t ∈ User.following uc /\
    d' = upd_user (set_followers (pull c (User.followers ut))) t
           (upd_user (set_following (pull t (User.following uc))) c d).
Proof.
  unfold unfollowUser. destruct (oid_ok t), (oid_ok c); simpl; try done.
  destruct (users d !! t) as [ut|], (users d !! c) as [uc|]; try done.
  case_includes; [|done]. intros [= <- _ _]. eauto 10.
Qed.

Lemma unfollowUser_Err c t d d' k m :
  unfollowUser oid_ok c t d = (d', Err k m) -> d' = d.
Proof. unfold unfollowUser. intros E. by repeat (case_match; simplify_eq/=; try done). Qed.

Lemma followUser_graph_ok c t d : graph_ok d -> graph_ok (followUser oid_ok c t d).1.
Proof.
  intros [Hs Hn]. destruct (followUser oid_ok c t d) as [d' [k m|k m]] eqn:E; simpl;
    [|by apply followUser_Err in E as ->].
  apply followUser_Ok in E as (Hct & _ & _ & uc & ut & Hc & Ht & Hnot & ->).
  assert (Hcn : c ∉ User.followers ut) by (rewrite <- (Hs _ _ _ _ Hc Ht); done).
  destruct (two_writes d c t _ _ uc ut (fun l => push l t) (fun l => push l c) Hc Ht eq_refl eq_refl)
    as [Hdom Hlist].
  split.
  - intros a b ua' ub' Ha' Hb'.
    destruct (proj1 (Hdom a) (ex_intro _ _ Ha')) as [ua Ha].
    destruct (proj1 (Hdom b) (ex_intro _ _ Hb')) as [ub Hb].
    destruct (Hlist a ua ua' Ha Ha') as [-> _]. destruct (Hlist b ub ub' Hb Hb') as [_ ->].
    pose proof (Hs a b ua ub Ha Hb).
    destruct (decide (c = a)), (decide (t = b)); subst; simplify_eq; rewrite ?elem_of_push;
      naive_solver.
  - intros a u' Ha'. destruct (proj1 (Hdom a) (ex_intro _ _ Ha')) as [u Ha].
    destruct (Hlist a u u' Ha Ha') as [-> ->]. destruct (Hn a u Ha).
    destruct (decide (c = a)), (decide (t = a)); subst; simplify_eq;
      split; try apply NoDup_push; done.
Qed.

Lemma unfollowUser_graph_ok c t d : graph_ok d -> graph_ok (unfollowUser oid_ok c t d).1.
Proof.
  intros [Hs Hn]. destruct (unfollowUser oid_ok c t d) as [d' [k m|k m]] eqn:E; simpl;
    [|by apply unfollowUser_Err in E as ->].
  apply unfollowUser_Ok in E as (uc & ut & Hc & Ht & Hin & ->).
  destruct (two_writes d c t _ _ uc ut (pull t) (pull c) Hc Ht eq_refl eq_refl)
    as [Hdom Hlist].
  split.
  - intros a b ua' ub' Ha' Hb'.
    destruct (proj1 (Hdom a) (ex_intro _ _ Ha')) as [ua Ha].
    destruct (proj1 (Hdom b) (ex_intro _ _ Hb')) as [ub Hb].
    destruct (Hlist a ua ua' Ha Ha') as [-> _]. destruct (Hlist b ub ub' Hb Hb') as [_ ->].
    pose proof (Hs a b ua ub Ha Hb).
    destruct (decide (c = a)), (decide (t = b)); subst; simplify_eq; rewrite ?elem_of_pull;
      naive_solver.
  - intros a u' Ha'. destruct (proj1 (Hdom a) (ex_intro _ _ Ha')) as [u Ha].
    destruct (Hlist a u u' Ha Ha') as [-> ->]. destruct (Hn a u Ha).
    destruct (decide (c = a)), (decide (t = a)); subst; simplify_eq;
      split; try apply NoDup_pull; done.
Qed.

(** ** The follow graph *)

(** C18: following and unfollowing keep the follow graph
    symmetric (a user follows another exactly when listed among its
    followers) and free of duplicates. *)
Theorem follow_graph_ok c t d :
  graph_ok d ->
  graph_ok (followUser oid_ok c t d).1 /\ graph_ok (unfollowUser oid_ok c t d).1.
Proof. intros Hd. split; [by apply followUser_graph_ok|by apply unfollowUser_graph_ok]. Qed.

(** C32: on a well-formed graph, a successful follow followed
    by an unfollow of the same user gives back exactly the store of before. *)
Theorem follow_unfollow_roundtrip c t d d' m :
  graph_ok d -> followUser oid_ok c t d = (d', Ok 200 m) ->
  (unfollowUser oid_ok c t d').1 = d.
Proof.
  intros [Hs _] E. apply followUser_Ok in E as (Hct & Hoc & Hot & uc & ut & Hc & Ht & Hnot & ->).
  assert (Hcn : c ∉ User.followers ut) by (rewrite <- (Hs _ _ _ _ Hc Ht); done).
  unfold unfollowUser. rewrite Hot, Hoc, !lookup_upd_user, Ht, Hc. rewrite decide_True by done.
  rewrite (decide_False (P := c = t)) by done. rewrite (decide_False (P := t = c)) by congruence.
  rewrite decide_True by done. simpl.
  rewrite (proj2 (includes_spec _ _)) by (apply elem_of_push; by right). simpl.
  rewrite !pull_push_fresh by done.
  destruct d as [us ps cs ms ns cms]. unfold upd_user, set_users. simpl in *. f_equal.
  apply map_eq. intros x. rewrite !lookup_alter.
  destruct (decide (c = x)), (decide (t = x)); subst; simplify_eq; rewrite ?Hc, ?Ht;
    repeat (case_decide; try congruence); simpl; try done; f_equal;
    first [by destruct uc | by destruct ut].
Qed.

(** C33: the rejections of the follow graph: following oneself,
    following someone again, and unfollowing a user one does not follow, each answer
    400 and change nothing. *)
Theorem follow_rejections c t d uc ut :
  oid_ok c = true -> oid_ok t = true ->
  users d !! c = Some uc -> users d !! t = Some ut ->
  followUser oid_ok c c d = (d, Err 400 "You cannot follow yourself.") /\
  (c <> t -> t ∈ User.following uc ->
   followUser oid_ok c t d = (d, Err 400 "Already following this user.")) /\
  (t ∉ User.following uc ->
   unfollowUser oid_ok c t d = (d, Err 400 "You are not following this user.")).
Proof.
  intros Hoc Hot Hc Ht. unfold followUser, unfollowUser. rewrite Hoc, Hot, String.eqb_refl. simpl.
  split; [done|]. rewrite Ht, Hc. split.
  - intros Hct Hin. rewrite (proj2 (String.eqb_neq t c)) by congruence.
    simpl. by rewrite (proj2 (includes_spec _ _) Hin).
  - intros Hin. by rewrite (proj2 (includes_false _ _) Hin).
Qed.

(** ** Profiles *)

(** C34: only the owner may edit a profile: any other caller
    gets 403 and the store is unchanged. *)
Theorem updateUserProfile_owner_only c t name bio img d :
  oid_ok t = true -> c <> t ->
  updateUserProfile oid_ok c t name bio img d = (d, Err 403 "Unauthorized").
Proof.
  intros Ho Hct. unfold updateUserProfile. rewrite Ho. simpl.
  by rewrite (proj2 (String.eqb_neq _ _) Hct).
Qed.

(** The posts of a user are exactly the stored posts it
    authored, newest first. *)
Theorem getUserPosts_spec uid d :
  oid_ok uid = true ->
  exists l, getUserPosts oid_ok uid d = Ok 200 l /\ Sorted newer_first l /\
    forall pid p, (pid, p) ∈ l <-> posts d !! pid = Some p /\ Post.author p = uid.
Proof.
  intros Ho. unfold getUserPosts. rewrite Ho. eexists.
  split_and!; [reflexivity|apply Sorted_merge_sort; apply _|]. intros pid p.
  rewrite (merge_sort_Permutation _ _), elem_of_find_posts. simpl.
  by rewrite String.eqb_eq.
Qed.

End Props.

(** C35: a profile edit does not check that the username is free: any
    user [c] can take the (trimmed, non-empty) username [n] of any other
    account [o], after which both accounts carry it, whereas registration
    refuses a taken username and the specification says usernames are
    unique once set. *)
Theorem updateUserProfile_duplicate_username oid_ok c o d uc uo n :
  oid_ok c = true -> c <> o -> users d !! c = Some uc -> users d !! o = Some uo ->
  User.username uo = Some n -> n <> "" -> trim n = n -> bio_ok (User.bio uc) = true ->
  let r := updateUserProfile oid_ok c c (JStr n) JUndef None d in
  (is_ok r.2 = true /\
   option_map User.username (users r.1 !! o) = Some (Some n) /\
   option_map User.username (users r.1 !! c) = Some (Some n)).
Proof.
  intros Hoid Hne Hc Ho Hn Hnn Ht Hb r. subst r.
  unfold updateUserProfile. rewrite Hoid, String.eqb_refl, Hc. simpl.
  destruct (String.eqb_spec n "") as [->|_]; [done|]. simpl.
  assert (Hj : js_string (JStr n) = n) by done. rewrite Hj, Ht, Hb. simpl.
  split_and!; [done| |]; unfold upd_user; simpl.
  - rewrite lookup_alter_ne by done. rewrite Ho. simpl. by rewrite Hn.
  - by rewrite lookup_alter_eq, Hc.
Qed.

(** ** Witnesses *)

Lemma graph_ok_social_db : graph_ok social_db.
Proof.
  assert (Hall : forall x u, users social_db !! x = Some u ->
                 User.following u = [] /\ User.followers u = []).
  { intros x u Hx. unfold social_db in Hx. simpl in Hx. rewrite !lookup_insert in Hx.
    repeat case_decide; simplify_eq; try done. }
  split.
  - intros a b ua ub Ha Hb. destruct (Hall _ _ Ha) as [-> _], (Hall _ _ Hb) as [_ ->].
    split; intros ?%not_elem_of_nil; done.
  - intros x u Hx. destruct (Hall _ _ Hx) as [-> ->]. split; constructor.
Qed.

Lemma follow_graph_ok_witness :
  graph_ok (followUser (fun _ => true) "c" "b" social_db).1 /\
  graph_ok (unfollowUser (fun _ => true) "c" "b" social_db).1.
Proof. exact (follow_graph_ok (fun _ => true) "c" "b" social_db graph_ok_social_db). Defined.

Lemma follow_unfollow_roundtrip_witness :
  followUser (fun _ => true) "c" "b" social_db =
    ((followUser (fun _ => true) "c" "b" social_db).1, Ok 200 "User followed successfully.") /\
  (unfollowUser (fun _ => true) "c" "b" (followUser (fun _ => true) "c" "b" social_db).1).1
    = social_db.
Proof.
  assert (E : followUser (fun _ => true) "c" "b" social_db =
    ((followUser (fun _ => true) "c" "b" social_db).1, Ok 200 "User followed successfully."))
    by (vm_compute; reflexivity).
  split; [exact E|]. exact (follow_unfollow_roundtrip _ "c" "b" social_db _ _ graph_ok_social_db E).
Defined.

Lemma follow_rejections_witness :
  followUser (fun _ => true) "c" "c" social_db =
    (social_db, Err 400 "You cannot follow yourself.") /\
  unfollowUser (fun _ => true) "c" "b" social_db =
    (social_db, Err 400 "You are not following this user.").
Proof.
  destruct (follow_rejections (fun _ => true) "c" "b" social_db (demo_user "c")
    (set_profile (Some "bob") "" None (demo_user "b"))) as (H1 & _ & H3);
    try reflexivity.
  split; [exact H1|]. apply H3. apply not_elem_of_nil.
Defined.

Lemma updateUserProfile_owner_only_witness :
  updateUserProfile (fun _ => true) "b" "c" (JStr "x") JUndef None social_db =
    (social_db, Err 403 "Unauthorized").
Proof. apply updateUserProfile_owner_only; [reflexivity|discriminate]. Defined.

Lemma getUserPosts_spec_witness :
  exists l, getUserPosts (fun _ => true) "a" demo_posts_db = Ok 200 l /\
    Sorted newer_first l /\
    forall pid p, (pid, p) ∈ l <-> posts demo_posts_db !! pid = Some p /\ Post.author p = "a".
Proof. apply getUserPosts_spec. reflexivity. Defined.

Lemma updateUserProfile_duplicate_username_witness :
  users social_db !! "c" = Some (demo_user "c") /\
  (let r := updateUserProfile (fun _ => true) "c" "c" (JStr "bob") JUndef None social_db in
   is_ok r.2 = true /\
   option_map User.username (users r.1 !! "b") = Some (Some "bob") /\
   option_map User.username (users r.1 !! "c") = Some (Some "bob")).
Proof.
  split; [reflexivity|].
  exact (updateUserProfile_duplicate_username (fun _ => true) "c" "b" social_db (demo_user "c")
           (set_profile (Some "bob") "" None (demo_user "b")) "bob"
           eq_refl ltac:(discriminate) eq_refl eq_refl eq_refl ltac:(discriminate) eq_refl eq_refl).
Defined.
