(* ===== verification/Activity.v ===== *)
(** * Activity: notifications and comments

    src/controllers/notificationController.js (module [Notifications]) and
    src/event_backend-main/controllers/commentController.js (module
    [Comments]).  The comment schema (models/Comment.js) is not among the
    sources; [Comment.t] is modelled from the specification: content,
    parent post and author, all required.  Theorem: creating a comment
    keeps every stored post's [commentCount] equal to the number of its
    comments. *)

From S2P Require Import Prelude Models Posts.
From stdpp Require Import sorting.
Set Warnings "-clear-no-such-hyp".

Module Notifications.

(** The [enum] of the [type] path. *)
Definition ntype_of_string (s : string) : option Notification.ntype :=
  if String.eqb s "post_like" then Some Notification.PostLike
  else if String.eqb s "new_comment" then Some Notification.NewComment
  else if String.eqb s "follow" then Some Notification.Follow
  else if String.eqb s "new_message" then Some Notification.NewMessage
  else if String.eqb s "event_reminder" then Some Notification.EventReminder
  else None.

(** [.sort({ createdAt: -1 })] *)
Definition newer_first (a b : Id * Notification.t) : Prop :=
  (Notification.createdAt b.2 <= Notification.createdAt a.2)%Z.

#[export] Instance newer_first_dec : RelDecision newer_first.
Proof. intros a b. unfold newer_first. apply _. Defined.

Definition set_read (n : Notification.t) : Notification.t :=
  Notification.mk (Notification.recipient n) (Notification.sender n) (Notification.type n)
    (Notification.message n) (Notification.relatedEntityId n) true
    (Notification.createdAt n).

Section Handlers.
(** [mongoose.Types.ObjectId.isValid], which [findById] applies. *)
Variable oid_ok : Id -> bool.

(** [createNotification] (lines 4-22): the saved document, or [null] when
    validation fails ([recipient], [type] in the enum and [message] are
    required).  No route or handler calls it. *)
Definition createNotification (recipientId senderId : option Id) (type : string)
    (message : option string) (relatedEntityId : option Id) (now : Z) (d : Db)
    : Db * option (Id * Notification.t) :=
  match recipientId, ntype_of_string type with
  | Some r, Some ty =>
      if required_str message then
        let n := Notification.mk r senderId ty (trim (default "" message))
                   relatedEntityId false now in
        let i := new_id d in
        (mkDb (users d) (posts d) (chats d) (messages d) (<[i := n]> (notifications d))
              (comments d), Some (i, n))
      else (d, None)
  | _, _ => (d, None)
  end.

(** [getNotifications] (lines 25-36). *)
Definition getNotifications (uid : Id) (d : Db) : Res (list (Id * Notification.t)) :=
  Ok 200 (merge_sort newer_first
            (List.filter (fun n => String.eqb (Notification.recipient n.2) uid)
               (map_to_list (notifications d)))).

(** The checks shared by the two handlers below (lines 42-50, 69-77). *)
Definition find_own (uid nid : Id) (d : Db) : Res Notification.t :=
  if negb (oid_ok nid) then Err 400 "Invalid Notification ID" else
  match notifications d !! nid with
  | None => Err 404 "Notification not found."
  | Some n =>
      if negb (String.eqb (Notification.recipient n) uid)
      then Err 403 "Unauthorized: Not your notification."
      else Ok 200 n
  end.

(** [markNotificationAsRead] (lines 39-63). *)
Definition markNotificationAsRead (uid nid : Id) (d : Db) : Db * Res Notification.t :=
  match find_own uid nid d with
  | Err c m => (d, Err c m)
  | Ok _ n =>
      (mkDb (users d) (posts d) (chats d) (messages d)
            (<[nid := set_read n]> (notifications d)) (comments d), Ok 200 (set_read n))
  end.

(** [deleteNotification] (lines 66-88). *)
Definition deleteNotification (uid nid : Id) (d : Db) : Db * Res string :=
  match find_own uid nid d with
  | Err c m => (d, Err c m)
  | Ok _ _ =>
      (mkDb (users d) (posts d) (chats d) (messages d) (delete nid (notifications d))
            (comments d), Ok 200 "Notification deleted.")
  end.

End Handlers.
End Notifications.

Module Comments.

(** [.sort({ createdAt: -1 })] *)
Definition newer_first (a b : Id * Comment.t) : Prop :=
  (Comment.createdAt b.2 <= Comment.createdAt a.2)%Z.

#[export] Instance newer_first_dec : RelDecision newer_first.
Proof. intros a b. unfold newer_first. apply _. Defined.

(** The comments of a post, in the order of the collection. *)
Definition comments_of (pid : Id) (d : Db) : list (Id * Comment.t) :=
  List.filter (fun ic => String.eqb (Comment.post ic.2) pid) (comments d).

(** [Post.findByIdAndUpdate(postId, { $inc: { commentCount: 1 } })]: no
    document, no write. *)
Definition inc_comment_count (pid : Id) (d : Db) : Db :=
  set_posts (alter (fun p => Post.mk (Post.author p) (Post.title p) (Post.description p)
                               (Post.mediaUrls p) (Post.interestedCount p)
                               (Post.commentCount p + 1) (Post.isEvent p)
                               (Post.eventDateTime p) (Post.location p)
                               (Post.interestedUsers p) (Post.attendedUsers p)
                               (Post.createdAt p)) pid) d.

Section Handlers.
Variable oid_ok : Id -> bool.

(** [getCommentsByPost] (lines 4-15). *)
Definition getCommentsByPost (pid : Id) (d : Db) : Res (list (Id * Comment.t)) :=
  if negb (oid_ok pid) then Err 500 "Failed to fetch comments"
  else Ok 200 (merge_sort newer_first (comments_of pid d)).

(** [createComment] (lines 17-46); [user] is [req.user.id].  Nothing
    checks that the post exists. *)
Definition createComment (user : option Id) (pid : Id) (content : JsVal) (now : Z) (d : Db)
    : Db * Res (Id * Comment.t) :=
  if negb (truthy content) then (d, Err 400 "Content is required") else
  match user with
  | None => (d, Err 401 "Unauthorized: User info missing from token")
  | Some u =>
      if String.eqb u "" then (d, Err 401 "Unauthorized: User info missing from token")
      else if negb (oid_ok pid) then (d, Err 500 "Failed to post comment")
      else
        let c := Comment.mk (js_string content) pid u now in
        let i := new_id d in
        let d1 := mkDb (users d) (posts d) (chats d) (messages d) (notifications d)
                       (comments d ++ [(i, c)]) in
        (inc_comment_count pid d1, Ok 201 (i, c))
  end.

End Handlers.

(** Every stored post counts its comments. *)
Definition comment_count_ok (d : Db) : Prop :=
  forall pid p, posts d !! pid = Some p ->
  Post.commentCount p = Z.of_nat (length (comments_of pid d)).


(** C36: creating a comment keeps every stored post's
    [commentCount] equal to the number of its comments: the comment is
    appended and the counter of its post, if the post exists, goes up by
    one. *)
Theorem createComment_count_ok oid_ok user pid content now d :
  comment_count_ok d -> comment_count_ok (createComment oid_ok user pid content now d).1.
Proof.
  intros Hd. unfold createComment.
  destruct (truthy content); simpl; [|done]. destruct user as [u|]; simpl; [|done].
  destruct (String.eqb u ""); simpl; [done|]. destruct (oid_ok pid); simpl; [|done].
  intros q p'. unfold inc_comment_count, comments_of in *. simpl.
  rewrite List.filter_app, length_app. simpl. destruct (decide (pid = q)) as [<-|Hne].
  - rewrite lookup_alter_eq. destruct (posts d !! pid) as [p|] eqn:Hp; simpl; [|done].
    intros [= <-]. simpl. rewrite String.eqb_refl, (Hd _ _ Hp). unfold comments_of. simpl. lia.
  - rewrite lookup_alter_ne by done. intros Hq.
    rewrite (proj2 (String.eqb_neq _ _) Hne), (Hd _ _ Hq). unfold comments_of. simpl. lia.
Qed.

(** [$inc] bypasses validation, but a counter that goes up stays valid. *)
Lemma createComment_posts_valid oid_ok user pid content now d :
  posts_valid d -> posts_valid (createComment oid_ok user pid content now d).1.
Proof.
  intros Hv. unfold createComment. repeat (case_match; simpl; try done).
  unfold inc_comment_count, posts_valid. simpl. intros i q.
  rewrite lookup_alter_Some. intros [[<- [p [Hp ->]]]|[_ Hq]]; [|by eapply Hv].
  specialize (Hv _ _ Hp). revert Hv. unfold post_valid. simpl.
  rewrite !andb_true_iff, !Z.leb_le. intuition lia.
Qed.

Lemma comment_count_ok_demo : comment_count_ok demo_posts_db.
Proof.
  intros pid p Hp. unfold demo_posts_db, posts_db in Hp. simpl in Hp.
  rewrite lookup_insert in Hp. case_decide; [|by rewrite lookup_empty in Hp]. by simplify_eq.
Qed.

Lemma createComment_count_ok_witness :
  comment_count_ok (createComment (fun _ => true) (Some "c") "p" (JStr "Nice") 7 demo_posts_db).1.
Proof.
  exact (createComment_count_ok (fun _ => true) (Some "c") "p" (JStr "Nice") 7 demo_posts_db
           comment_count_ok_demo).
Defined.
End Comments.
