(* ===== verification/Routes.v ===== *)
(** * Routes: the Express application of src/server.js

    The HTTP half of the server: [express.json()] (line 29), the six
    routers mounted under [/api] (lines 114-119) with the routes of
    src/routes/*.js and src/event_backend-main/routes/userRoutes.js, the
    [protect] middleware on every route but the three public ones of
    authRoutes.js, the multer stage of the multipart routes, the handlers
    of the controllers, and the error handler of lines 121-124.  [serve]
    answers one request against the world; the theorems show that a
    request without a valid token changes nothing, that every stored post
    keeps the schema's type whatever is served, and what the route table
    resolves. *)

From S2P Require Import Prelude Models Token Realtime Chat Posts Auth Social Activity.

(** ** Paths *)

Definition slash_char : Ascii.ascii := Ascii.ascii_of_N 47.

(** [s.split('/')] *)
Fixpoint split_slash (s cur : string) : list string :=
  match s with
  | EmptyString => [cur]
  | String c s' =>
      if Ascii.eqb c slash_char then cur :: split_slash s' ""
      else split_slash s' (String.append cur (String c ""))
  end.

(** The segments of a pathname: after the leading ['/'], with one trailing
    ['/'] ignored (routers are not [strict]). *)
Definition path_segments (p : string) : list string :=
  match split_slash p "" with
  | "" :: segs =>
      match rev segs with
      | "" :: r => rev r
      | _ => segs
      end
  | _ => []
  end.

(** Route paths compile to case-insensitive regular expressions
    ([sensitive: false]). *)
Definition seg_eq (a b : string) : bool := String.eqb (lower a) (lower b).

(** ** Route tables *)

Inductive Method := GET | POST | PUT | DELETE.

#[export] Instance Method_eq_dec : EqDecision Method.
Proof. solve_decision. Defined.

Definition method_name (m : Method) : string :=
  match m with GET => "GET" | POST => "POST" | PUT => "PUT" | DELETE => "DELETE" end.

(** A segment of a route path: a literal, or [:name], which matches one
    non-empty segment. *)
Inductive Seg := Lit (s : string) | Par (name : string).

(** The multer stage of a route: none, [upload.array(field, n)] or
    [upload.single(field)]. *)
Inductive Upload := NoUpload | UpArray (field : string) (max : nat) | UpSingle (field : string).

(** The controller functions the routes name. *)
Inductive Action :=
  | A_registerUser | A_verifyOtpAndRegister | A_loginUser | A_getAuthUser
  | A_getUserProfile | A_updateUserProfile | A_getUserPosts | A_followUser | A_unfollowUser
  | A_createPost | A_getAllPosts | A_getFeedPosts | A_getPostById | A_updatePost
  | A_deletePost | A_togglePostInterest | A_getInterestedPosts | A_markAttendance
  | A_getAttendedPosts | A_togglePostAttendance | A_joinInterestGroup
  | A_getUserChats | A_joinPostGroupChat | A_getChatByPostId | A_getGroupMessages
  | A_getNotifications | A_markNotificationAsRead | A_deleteNotification
  | A_createComment | A_getCommentsByPost.

#[export] Instance Action_eq_dec : EqDecision Action.
Proof. solve_decision. Defined.

Record Route := mkRoute {
  r_method : Method;
  r_path : list Seg;
  r_protect : bool;
  r_upload : Upload;
  r_action : Action
}.

#[export] Instance Seg_eq_dec : EqDecision Seg.
Proof. solve_decision. Defined.
#[export] Instance Upload_eq_dec : EqDecision Upload.
Proof. solve_decision. Defined.
#[export] Instance Route_eq_dec : EqDecision Route.
Proof. solve_decision. Defined.

(** src/routes/authRoutes.js, lines 7-13. *)
Definition authRoutes : list Route := [
  mkRoute POST [Lit "register"] false NoUpload A_registerUser;
  mkRoute POST [Lit "verify"] false NoUpload A_verifyOtpAndRegister;
  mkRoute POST [Lit "login"] false NoUpload A_loginUser;
  mkRoute GET [] true NoUpload A_getAuthUser].

(** src/event_backend-main/routes/userRoutes.js, lines 7-15. *)
Definition userRoutes : list Route := [
  mkRoute GET [Par "userId"] true NoUpload A_getUserProfile;
  mkRoute PUT [Par "userId"] true (UpSingle "profileImageUrl") A_updateUserProfile;
  mkRoute GET [Par "userId"; Lit "posts"] true NoUpload A_getUserPosts;
  mkRoute POST [Par "userId"; Lit "follow"] true NoUpload A_followUser;
  mkRoute POST [Par "userId"; Lit "unfollow"] true NoUpload A_unfollowUser].

(** src/routes/postRoutes.js, lines 8-30. *)
Definition postRoutes : list Route := [
  mkRoute POST [] true (UpArray "mediaUrls" 5) A_createPost;
  mkRoute GET [] true NoUpload A_getAllPosts;
  mkRoute GET [Lit "feed"] true NoUpload A_getFeedPosts;
  mkRoute GET [Par "postId"] true NoUpload A_getPostById;
  mkRoute PUT [Par "postId"] true (UpArray "mediaUrls" 5) A_updatePost;
  mkRoute DELETE [Par "postId"] true NoUpload A_deletePost;
  mkRoute PUT [Par "postId"; Lit "interest"] true NoUpload A_togglePostInterest;
  mkRoute GET [Lit "my"; Lit "interested"] true NoUpload A_getInterestedPosts;
  mkRoute POST [Par "postId"; Lit "attend"] true NoUpload A_markAttendance;
  mkRoute GET [Lit "my"; Lit "attended"] true NoUpload A_getAttendedPosts;
  mkRoute PUT [Par "postId"; Lit "attendance"] true NoUpload A_togglePostAttendance;
  mkRoute POST [Par "postId"; Lit "join-interest-group"] true NoUpload A_joinInterestGroup].

(** src/routes/chatRoutes.js, lines 7-16. *)
Definition chatRoutes : list Route := [
  mkRoute GET [] true NoUpload A_getUserChats;
  mkRoute POST [Lit "join"; Par "postId"] true NoUpload A_joinPostGroupChat;
  mkRoute GET [Lit "post"; Par "postId"] true NoUpload A_getChatByPostId;
  mkRoute GET [Par "chatId"; Lit "messages"] true NoUpload A_getGroupMessages].

(** src/routes/notificationRoutes.js, lines 7-13. *)
Definition notificationRoutes : list Route := [
  mkRoute GET [] true NoUpload A_getNotifications;
  mkRoute PUT [Par "notificationId"; Lit "read"] true NoUpload A_markNotificationAsRead;
  mkRoute DELETE [Par "notificationId"] true NoUpload A_deleteNotification].

(** src/routes/commentRoutes.js, lines 7-8. *)
Definition commentRoutes : list Route := [
  mkRoute POST [Par "postId"; Lit "comments"] true NoUpload A_createComment;
  mkRoute GET [Par "postId"; Lit "comments"] true NoUpload A_getCommentsByPost].

(** [app.use(prefix, router)], src/server.js lines 114-119, in order. *)
Definition mounts : list (list string * list Route) := [
  (["api"; "auth"], authRoutes);
  (["api"; "users"], userRoutes);
  (["api"; "posts"], postRoutes);
  (["api"; "chat"], chatRoutes);
  (["api"; "notifications"], notificationRoutes);
  (["api"; "posts"], commentRoutes)].

(** ** Matching and dispatch *)

(** A route path against the rest of the request path: the values of the
    parameters, in order. *)
Fixpoint match_path (pat : list Seg) (p : list string) : option (list string) :=
  match pat, p with
  | [], [] => Some []
  | Lit l :: pat', s :: p' => if seg_eq l s then match_path pat' p' else None
  | Par _ :: pat', s :: p' =>
      if String.eqb s "" then None else cons s <$> match_path pat' p'
  | _, _ => None
  end.

(** A mount prefix: the rest of the path, when the prefix matches whole
    segments. *)
Fixpoint strip_mount (pre p : list string) : option (list string) :=
  match pre, p with
  | [], _ => Some p
  | x :: pre', s :: p' => if seg_eq x s then strip_mount pre' p' else None
  | _ :: _, [] => None
  end.

(** The first route of a router that matches, with its parameters. *)
Fixpoint find_route (m : Method) (p : list string) (rs : list Route)
    : option (Route * list string) :=
  match rs with
  | [] => None
  | r :: rs' =>
      if decide (r_method r = m) then
        match match_path (r_path r) p with
        | Some ps => Some (r, ps)
        | None => find_route m p rs'
        end
      else find_route m p rs'
  end.

(** A router that matches nothing calls [next()]: the search goes on in
    the next mount. *)
Fixpoint dispatch_in (m : Method) (p : list string) (ms : list (list string * list Route))
    : option (Route * list string) :=
  match ms with
  | [] => None
  | (pre, rs) :: ms' =>
      match strip_mount pre p ≫= fun rest => find_route m rest rs with
      | Some hit => Some hit
      | None => dispatch_in m p ms'
      end
  end.

Definition dispatch (m : Method) (path : string) : option (Route * list string) :=
  dispatch_in m (path_segments path) mounts.

(** ** Requests and replies *)

(** A request as the middlewares see it: the pathname, the two headers
    [protect] reads, [req.body] as [express.json()] or multer left it
    ([None] when the JSON parser rejects the body), whether multer accepted
    the files and the [secure_url]s of those it stored, and the values the
    handlers draw from the environment ([Date.now()], [crypto.randomInt],
    whether [sendEmail] succeeded). *)
Record Request := mkReq {
  rq_method : Method;
  rq_path : string;
  rq_authorization : option string;
  rq_x_auth_token : option string;
  rq_body : option (list (string * JsVal));
  rq_files_ok : bool;
  rq_uploads : list string;
  rq_now : Z;
  rq_rand : Z;
  rq_mail_ok : bool
}.

(** [req.body[k]]: [JSON.parse] keeps the last of repeated keys. *)
Definition field (b : list (string * JsVal)) (k : string) : JsVal :=
  fold_left (fun acc kv => if String.eqb kv.1 k then kv.2 else acc) b JUndef.

(** [req.params] by position. *)
Definition param (ps : list string) (i : nat) : Id := default "" (ps !! i).

(** The status of the response and, for an error, its message. *)
Record Reply := mkReply {
  rp_status : Z;
  rp_error : option string
}.

Definition reply_of {A} (r : Res A) : Reply :=
  match r with
  | Ok c _ => mkReply c None
  | Err c m => mkReply c (Some m)
  end.

(** The error handler of src/server.js, lines 121-124. *)
Definition broke : Reply := mkReply 500 (Some "Something broke!").

(** The final handler of Express when no route matched. *)
Definition not_found (m : Method) (path : string) : Reply :=
  mkReply 404 (Some (String.append "Cannot " (String.append (method_name m)
                       (String.append " " path)))).

(** The routes [protect] does not guard: those of the controller functions
    that create an account or a session. *)
Definition public_actions : list Action := [A_registerUser; A_verifyOtpAndRegister; A_loginUser].

(** The controller functions that only read the store. *)
Definition read_actions : list Action :=
  [A_getAuthUser; A_getUserProfile; A_getUserPosts; A_getAllPosts; A_getFeedPosts;
   A_getPostById; A_getInterestedPosts; A_getAttendedPosts; A_getUserChats;
   A_getChatByPostId; A_getGroupMessages; A_getNotifications; A_getCommentsByPost].

(** The segments of a route with values for its parameters, in order. *)
Fixpoint inst (pat : list Seg) (vs : list string) : option (list string) :=
  match pat, vs with
  | [], [] => Some []
  | Lit l :: pat', _ => cons l <$> inst pat' vs
  | Par _ :: pat', v :: vs' => cons v <$> inst pat' vs'
  | _, _ => None
  end.

(** The pathname made of segments, each after a ['/']. *)
Fixpoint join_path (segs : list string) : string :=
  match segs with
  | [] => ""
  | s :: segs' => String slash_char (String.append s (join_path segs'))
  end.

Fixpoint slash_free (s : string) : bool :=
  match s with
  | EmptyString => true
  | String c s' => negb (Ascii.eqb c slash_char) && slash_free s'
  end.

(** The literal segments of the route table. *)
Definition route_literals : list string :=
  mjoin (map (fun prs => mjoin (map (fun r =>
    omap (fun s => match s with Lit l => Some l | Par _ => None end) (r_path r)) prs.2)) mounts).

(** A parameter value: one non-empty segment that no literal of the table
    matches (an ObjectId, say). *)
Definition param_ok (v : string) : Prop :=
  v <> "" /\ slash_free v = true /\ Forall (fun l => seg_eq l v = false) route_literals.

(** ** The shadowing check of the table

    A route pattern read as a path: [Lit l] the segment [l], [Par _] a
    parameter value that no literal of the table matches. *)

(** [pat] matches no instance of the pattern [q]. *)
Fixpoint pat_misses (pat q : list Seg) : bool :=
  match pat, q with
  | [], [] => false
  | [], _ :: _ | _ :: _, [] => true
  | Lit l :: pat', Lit s :: q' => negb (seg_eq l s) || pat_misses pat' q'
  | Lit l :: pat', Par _ :: q' => bool_decide (l ∈ route_literals) || pat_misses pat' q'
  | Par _ :: pat', Lit s :: q' => String.eqb s "" || pat_misses pat' q'
  | Par _ :: pat', Par _ :: q' => pat_misses pat' q'
  end.

(** The router [rs] mounted at [pre] routes no instance of [q] with
    method [m]. *)
Fixpoint mount_misses (m : Method) (pre : list string) (rs : list Route) (q : list Seg) : bool :=
  match pre, q with
  | [], _ => forallb (fun r => negb (bool_decide (r_method r = m)) || pat_misses (r_path r) q) rs
  | _ :: _, [] => true
  | x :: pre', Lit s :: q' => negb (seg_eq x s) || mount_misses m pre' rs q'
  | x :: pre', Par _ :: q' => bool_decide (x ∈ route_literals) || mount_misses m pre' rs q'
  end.

(** A literal segment is non-empty and has no ['/']. *)
Definition lit_ok (s : Seg) : bool :=
  match s with Lit l => negb (String.eqb l "") && slash_free l | Par _ => true end.

(** Each route [r] of the router mounted at [pre], after the routes
    [before] of that router and the mounts [ms] before it: its full
    pattern is made of segments, and nothing tried before it routes an
    instance of it. *)
Fixpoint routes_ok (ms : list (list string * list Route)) (pre : list string)
    (before rs : list Route) : bool :=
  match rs with
  | [] => true
  | r :: rs' =>
      let q := (map Lit pre ++ r_path r)%list in
      negb (bool_decide (pre = [])) && forallb lit_ok q &&
      forallb (fun prs => mount_misses (r_method r) prs.1 prs.2 q) ms &&
      forallb (fun r' => negb (bool_decide (r_method r' = r_method r)) ||
                         pat_misses (r_path r') (r_path r)) before &&
      routes_ok ms pre (before ++ [r])%list rs'
  end.

Fixpoint table_ok (before ms : list (list string * list Route)) : bool :=
  match ms with
  | [] => true
  | (pre, rs) :: ms' => routes_ok before pre [] rs && table_ok (before ++ [(pre, rs)])%list ms'
  end.

Definition is_success (r : Reply) : bool := (200 <=? rp_status r)%Z && (rp_status r <? 300)%Z.

(** A handler that writes the store, and one that only reads it. *)
Definition on_db {A} (f : Db -> Db * Res A) (w : World) : World * Reply :=
  let (d', r) := f (db w) in (set_db d' w, reply_of r).

Definition read_db {A} (f : Db -> Res A) (w : World) : World * Reply := (w, reply_of (f (db w))).

Definition post_body (b : list (string * JsVal)) : PostBody :=
  mkPostBody (field b "title") (field b "description") (field b "isEvent")
    (field b "eventDateTime") (field b "location") (field b "clearExistingMedia").

Definition auth_body (b : list (string * JsVal)) : AuthBody :=
  mkAuthBody (field b "email") (field b "otp") (field b "username") (field b "password")
    (field b "userType").

Section Serve.
Context `{TokenService}.
Variable bhash : string -> string.
Variable parse_date : string -> option Z.
Variable oid_ok : Id -> bool.

(** The controller function of a route, with [req.user.id = uid] (the
    public routes' handlers never read [req.user]), the route parameters
    [ps] and the body [b]. *)
Definition run_action (a : Action) (ps : list string) (uid : Id)
    (b : list (string * JsVal)) (rq : Request) (w : World) : World * Reply :=
  let now := rq_now rq in
  let p0 := param ps 0 in
  match a with
  | A_registerUser => on_db (registerUser (field b "email") (rq_rand rq) (rq_mail_ok rq) now) w
  | A_verifyOtpAndRegister => on_db (verifyOtpAndRegister bhash (auth_body b) now) w
  | A_loginUser => read_db (loginUser bhash (field b "email") (field b "password") now) w
  | A_getAuthUser => read_db (getAuthUser uid) w
  | A_getUserProfile => read_db (getUserProfile oid_ok p0) w
  | A_updateUserProfile =>
      on_db (updateUserProfile oid_ok uid p0 (field b "username") (field b "bio")
               (head (rq_uploads rq))) w
  | A_getUserPosts => read_db (getUserPosts oid_ok p0) w
  | A_followUser => on_db (followUser oid_ok uid p0) w
  | A_unfollowUser => on_db (unfollowUser oid_ok uid p0) w
  | A_createPost => on_db (createPost parse_date uid (post_body b) (rq_uploads rq) now) w
  | A_getAllPosts => read_db getAllPosts w
  | A_getFeedPosts => read_db (getFeedPosts oid_ok uid) w
  | A_getPostById => read_db (getPostById oid_ok p0) w
  | A_updatePost => on_db (updatePost parse_date oid_ok uid p0 (post_body b) (rq_uploads rq)) w
  | A_deletePost => on_db (deletePost oid_ok uid p0) w
  | A_togglePostInterest => on_db (togglePostInterest oid_ok uid p0 now) w
  | A_getInterestedPosts => read_db (getInterestedPosts uid) w
  | A_markAttendance => on_db (markAttendance oid_ok uid p0 now) w
  | A_getAttendedPosts => read_db (getAttendedPosts uid now) w
  | A_togglePostAttendance => on_db (togglePostAttendance oid_ok uid p0) w
  | A_joinInterestGroup => on_db (joinInterestGroup oid_ok uid p0 now) w
  | A_getUserChats => read_db (getUserChats uid) w
  | A_joinPostGroupChat =>
      let (w', r) := joinPostGroupChat oid_ok uid p0 now w in (w', reply_of r)
  | A_getChatByPostId => read_db (getChatByPostId oid_ok uid p0) w
  | A_getGroupMessages => read_db (getGroupMessages oid_ok uid p0) w
  | A_getNotifications => read_db (Notifications.getNotifications uid) w
  | A_markNotificationAsRead => on_db (Notifications.markNotificationAsRead oid_ok uid p0) w
  | A_deleteNotification => on_db (Notifications.deleteNotification oid_ok uid p0) w
  | A_createComment => on_db (Comments.createComment oid_ok (Some uid) p0 (field b "content") now) w
  | A_getCommentsByPost => read_db (Comments.getCommentsByPost oid_ok p0) w
  end.

(** multer passes a request through unless it rejects its files, which
    goes to the error handler. *)
Definition upload_stage (u : Upload) (rq : Request) : bool :=
  match u with NoUpload => true | _ => rq_files_ok rq end.

(** One request through the application: [express.json()], the routers in
    mount order, [protect], multer, the controller. *)
Definition serve (rq : Request) (w : World) : World * Reply :=
  match rq_body rq with
  | None => (w, broke)
  | Some b =>
      match dispatch (rq_method rq) (rq_path rq) with
      | None => (w, not_found (rq_method rq) (rq_path rq))
      | Some (r, ps) =>
          let run uid :=
            if upload_stage (r_upload r) rq then run_action (r_action r) ps uid b rq w
            else (w, broke) in
          if r_protect r then
            match protect (rq_authorization rq) (rq_x_auth_token rq) (rq_now rq) with
            | Err c m => (w, mkReply c (Some m))
            | Ok _ uid => run uid
            end
          else run ""
      end
  end.

End Serve.

(** ** Examples: the store of [Posts] with no socket, a request without a
    token, and [c] creating a post with the token the server signed at
    login. *)

Definition routes_world : World := mkWorld demo_posts_db (mkIo ∅ ∅ []).

Definition anon_get : Request :=
  mkReq GET "/api/posts" None None (Some []) true [] 0 0 true.

Definition create_req : Request :=
  mkReq POST "/api/posts/" (Some (String.append "Bearer " (generateToken "c" 0))) None
    (Some [("title", JStr "Picnic"); ("description", JStr "Bring food")]) true [] 5 0 true.

(** ** Lemmas *)

Lemma find_route_In m p rs r ps :
  find_route m p rs = Some (r, ps) -> In r rs /\ r_method r = m.
Proof.
  induction rs as [|r' rs IH]; simpl; [done|].
  repeat case_match; intros; simplify_eq; naive_solver.
Qed.

Lemma dispatch_in_In m p ms r ps :
  dispatch_in m p ms = Some (r, ps) ->
  r_method r = m /\ exists pre rs, In (pre, rs) ms /\ In r rs.
Proof.
  induction ms as [|[pre rs] ms IH]; simpl; [done|].
  destruct (strip_mount pre p) as [rest|]; simpl.
  - destruct (find_route m rest rs) as [[r' ps']|] eqn:Hf.
    + intros [= -> ->]. apply find_route_In in Hf. naive_solver.
    + intros (? & pre' & rs' & ? & ?)%IH. naive_solver.
  - intros (? & pre' & rs' & ? & ?)%IH. naive_solver.
Qed.

(** A property of every route of the table, checked route by route. *)
Lemma mounts_forall (P : Route -> Prop) `{forall r, Decision (P r)} pre rs r :
  bool_decide (Forall (fun prs => Forall P prs.2) mounts) = true ->
  In (pre, rs) mounts -> In r rs -> P r.
Proof.
  intros Hb Hm Hr. apply bool_decide_eq_true in Hb. rewrite List.Forall_forall in Hb.
  specialize (Hb _ Hm). rewrite List.Forall_forall in Hb. by apply Hb.
Qed.

(** Every route [protect] does not guard is public. *)
Lemma mounts_protected pre rs r :
  In (pre, rs) mounts -> In r rs -> r_protect r = false -> r_action r ∈ public_actions.
Proof.
  apply (mounts_forall (fun r => r_protect r = false -> r_action r ∈ public_actions)).
  vm_compute. reflexivity.
Qed.

(** ** Paths of the routes *)

Lemma split_slash_app s t cur :
  slash_free s = true -> split_slash (String.append s t) cur = split_slash t (String.append cur s).
Proof.
  revert cur. induction s as [|c s IH]; intros cur Hs; simpl.
  - by rewrite string_app_nil_r.
  - apply andb_true_iff in Hs as [Hc Hs]. apply negb_true_iff in Hc. rewrite Hc, IH by done.
    by rewrite string_app_assoc.
Qed.

Lemma split_join_path l cur :
  Forall (fun s => slash_free s = true) l -> split_slash (join_path l) cur = cur :: l.
Proof.
  revert cur. induction l as [|s l IH]; intros cur Hl; simpl; [done|].
  apply Forall_cons in Hl as [Hs Hl]. rewrite split_slash_app, IH by done.
  done.
Qed.

Lemma path_segments_join l :
  l <> [] -> Forall (fun s => s <> "" /\ slash_free s = true) l ->
  path_segments (join_path l) = l.
Proof.
  intros Hne Hl. unfold path_segments. rewrite split_join_path by (eapply Forall_impl; naive_solver).
  destruct (exists_last Hne) as (l0 & x & ->). rewrite rev_unit.
  apply Forall_app in Hl as [_ [[Hx _] _]%Forall_cons]. by destruct x.
Qed.

(** ** Soundness of the shadowing check *)

Lemma seg_eq_refl s : seg_eq s s = true.
Proof. apply String.eqb_refl. Qed.

Lemma param_ok_lit l v : param_ok v -> l ∈ route_literals -> seg_eq l v = false.
Proof. intros (_ & _ & Hl) Hin. rewrite Forall_forall in Hl. by apply Hl. Qed.

Lemma pat_misses_sound pat q vs segs :
  pat_misses pat q = true -> inst q vs = Some segs -> Forall param_ok vs ->
  match_path pat segs = None.
Proof.
  revert q vs segs.
  induction pat as [|[l|x] pat IH]; intros [|[s|y] q] [|v vs] segs Hm Hi Hv; simpl in *;
    simplify_eq; try done;
    repeat match goal with H : _ <$> _ = Some _ |- _ => apply fmap_Some in H as (? & ? & ->) end;
    simpl; try done.
  - destruct (seg_eq l s); simpl in Hm; [eauto|done].
  - destruct (seg_eq l s); simpl in Hm; [eauto|done].
  - apply Forall_cons in Hv as [Hv0 Hv].
    apply orb_true_iff in Hm as [Hm%bool_decide_eq_true|Hm]; [by rewrite param_ok_lit|].
    destruct (seg_eq l v); eauto.
  - destruct (s =? ""); simpl in Hm; [done|]. by erewrite IH by eauto.
  - destruct (s =? ""); simpl in Hm; [done|]. by erewrite IH by eauto.
  - destruct (v =? ""); [done|]. apply Forall_cons in Hv as [_ Hv]. by erewrite IH by eauto.
Qed.


Lemma match_path_inst q vs segs :
  inst q vs = Some segs -> Forall param_ok vs -> match_path q segs = Some vs.
Proof.
  revert vs segs.
  induction q as [|[l|x] q IH]; intros [|v vs] segs Hi Hv; simpl in *; simplify_eq; try done;
    repeat match goal with H : _ <$> _ = Some _ |- _ => apply fmap_Some in H as (? & ? & ->) end;
    simpl; rewrite ?seg_eq_refl; eauto.
  apply Forall_cons in Hv as [[Hne _] Hv]. rewrite (proj2 (String.eqb_neq _ _) Hne).
  by erewrite IH by eauto.
Qed.

(** Routes that miss are skipped. *)
Lemma find_route_app m p rs1 rs2 :
  (forall r, In r rs1 -> r_method r = m -> match_path (r_path r) p = None) ->
  find_route m p (rs1 ++ rs2) = find_route m p rs2.
Proof.
  induction rs1 as [|r rs1 IH]; intros Hmiss; simpl; [done|].
  case_decide as Hr; [rewrite (Hmiss r); [|by left|done]|]; apply IH; eauto using in_cons.
Qed.

(** Mounts that route nothing are skipped. *)
Lemma dispatch_in_app m p ms1 ms2 :
  (forall prs, In prs ms1 -> (strip_mount prs.1 p ≫= fun rest => find_route m rest prs.2) = None) ->
  dispatch_in m p (ms1 ++ ms2) = dispatch_in m p ms2.
Proof.
  induction ms1 as [|[pre rs] ms1 IH]; intros Hmiss; simpl; [done|].
  pose proof (Hmiss (pre, rs) (in_eq _ _)) as H0. simpl in H0. rewrite H0.
  apply IH; eauto using in_cons.
Qed.

Lemma find_route_misses m rs q vs segs :
  forallb (fun r => negb (bool_decide (r_method r = m)) || pat_misses (r_path r) q) rs = true ->
  inst q vs = Some segs -> Forall param_ok vs -> find_route m segs rs = None.
Proof.
  intros Hall Hi Hv. rewrite <- (app_nil_r rs), find_route_app; [done|].
  intros r Hr <-. rewrite forallb_forall in Hall. specialize (Hall r Hr).
  rewrite bool_decide_true in Hall by done. simpl in Hall. eauto using pat_misses_sound.
Qed.

Lemma mount_misses_sound m pre rs q vs segs :
  mount_misses m pre rs q = true -> inst q vs = Some segs -> Forall param_ok vs ->
  (strip_mount pre segs ≫= fun rest => find_route m rest rs) = None.
Proof.
  revert q vs segs.
  induction pre as [|x pre IH]; intros q vs segs Hm Hi Hv; [by eapply find_route_misses|].
  destruct q as [|[s|y] q], vs as [|v vs]; simpl in *; simplify_eq; try done;
    repeat match goal with H : _ <$> _ = Some _ |- _ => apply fmap_Some in H as (? & ? & ->) end;
    simpl; try done.
  - destruct (seg_eq x s); simpl in Hm; [eauto|done].
  - destruct (seg_eq x s); simpl in Hm; [eauto|done].
  - apply Forall_cons in Hv as [Hv0 Hv].
    apply orb_true_iff in Hm as [Hm%bool_decide_eq_true|Hm]; [by rewrite param_ok_lit|].
    destruct (seg_eq x v); eauto.
Qed.

Lemma routes_ok_app ms pre before rs1 r rs2 :
  routes_ok ms pre before (rs1 ++ r :: rs2) = true ->
  let q := (map Lit pre ++ r_path r)%list in
  pre <> [] /\ forallb lit_ok q = true /\
  forallb (fun prs => mount_misses (r_method r) prs.1 prs.2 q) ms = true /\
  forallb (fun r' => negb (bool_decide (r_method r' = r_method r)) ||
                     pat_misses (r_path r') (r_path r)) (before ++ rs1) = true.
Proof.
  revert before. induction rs1 as [|r1 rs1 IH]; intros before; simpl.
  - rewrite app_nil_r, !andb_true_iff, negb_true_iff, bool_decide_eq_false. naive_solver.
  - intros (_ & H)%andb_true_iff. rewrite (cons_middle r1), app_assoc. by apply IH.
Qed.

Lemma table_ok_app before ms1 pre rs ms2 :
  table_ok before (ms1 ++ (pre, rs) :: ms2) = true -> routes_ok (before ++ ms1) pre [] rs = true.
Proof.
  revert before. induction ms1 as [|[pre1 rs1] ms1 IH]; intros before; simpl.
  - rewrite app_nil_r. by intros (? & _)%andb_true_iff.
  - intros (_ & H)%andb_true_iff. rewrite (cons_middle (pre1, rs1)), app_assoc. by apply IH.
Qed.

Lemma inst_lits pre q vs : inst (map Lit pre ++ q) vs = (app pre) <$> inst q vs.
Proof.
  induction pre as [|l pre IH]; simpl; [by destruct (inst q vs)|].
  rewrite IH. by destruct (inst q vs).
Qed.

Lemma strip_mount_app pre segs : strip_mount pre (pre ++ segs) = Some segs.
Proof. induction pre as [|x pre IH]; simpl; [done|]. by rewrite seg_eq_refl. Qed.

(** The segments of an instance are non-empty and have no ['/']. *)
Lemma inst_lit_ok q vs segs :
  forallb lit_ok q = true -> inst q vs = Some segs -> Forall param_ok vs ->
  Forall (fun s => s <> "" /\ slash_free s = true) segs.
Proof.
  revert vs segs.
  induction q as [|[l|x] q IH]; intros [|v vs] segs Hq Hi Hv; simpl in *; simplify_eq; try done;
    repeat match goal with H : _ <$> _ = Some _ |- _ => apply fmap_Some in H as (? & ? & ->) end.
  - apply andb_true_iff in Hq as [(Hl%negb_true_iff%String.eqb_neq & Hs)%andb_true_iff Hq].
    constructor; eauto.
  - apply andb_true_iff in Hq as [(Hl%negb_true_iff%String.eqb_neq & Hs)%andb_true_iff Hq].
    constructor; eauto.
  - apply Forall_cons in Hv as [(? & ? & _) Hv]. constructor; eauto.
Qed.


Section Props.
Context `{TokenService}.

Lemma protect_Err a x now c m : protect a x now = Err c m -> c = 401%Z.
Proof. unfold protect. by repeat (case_match; simpl); intros [= <- _]. Qed.

Lemma protect_Ok a x now c u : protect a x now = Ok c u -> u <> "".
Proof.
  unfold protect. repeat (case_match; simpl); intros; simplify_eq.
  all: by apply String.eqb_neq.
Qed.

Variable bhash : string -> string.
Variable parse_date : string -> option Z.
Variable oid_ok : Id -> bool.

Lemma on_db_posts_valid {A} (f : Db -> Db * Res A) w :
  posts_valid (f (db w)).1 -> posts_valid (db (on_db f w).1).
Proof. unfold on_db. by destruct (f (db w)). Qed.

Lemma posts_valid_eq d d' : posts d' = posts d -> posts_valid d -> posts_valid d'.
Proof. unfold posts_valid. by intros ->. Qed.

(** Handlers that write only other collections. *)
Local Ltac other_collections :=
  apply on_db_posts_valid; eapply posts_valid_eq; [|eassumption];
  unfold registerUser, verifyOtpAndRegister, verify_core, updateUserProfile, followUser,
    unfollowUser, Notifications.markNotificationAsRead, Notifications.deleteNotification;
  repeat (case_match; simpl); done.

(** C3: a request that does not carry a valid token changes nothing and
    fails, unless it reaches one of the three public routes of
    authRoutes.js: every other route is guarded by [protect]. *)
Theorem serve_requires_token rq w c m :
  protect (rq_authorization rq) (rq_x_auth_token rq) (rq_now rq) = Err c m ->
  (forall r ps, dispatch (rq_method rq) (rq_path rq) = Some (r, ps) ->
     r_action r ∉ public_actions) ->
  (serve bhash parse_date oid_ok rq w).1 = w /\
  is_success (serve bhash parse_date oid_ok rq w).2 = false.
Proof.
  intros Hprot Hpub. unfold serve.
  destruct (rq_body rq) as [b|]; [|done].
  destruct (dispatch (rq_method rq) (rq_path rq)) as [[r ps]|] eqn:Hd; [|done].
  destruct (r_protect r) eqn:Hp.
  - rewrite Hprot. apply protect_Err in Hprot as ->. done.
  - destruct (dispatch_in_In _ _ _ _ _ Hd) as (_ & pre & rs & Hm & Hr).
    exfalso. by apply (Hpub r ps eq_refl), (mounts_protected pre rs r).
Qed.

(** C7: whatever request is served, every document of the posts
    collection still passes the schema's validation: the handlers that
    write posts save them through validation or only raise a counter, and
    the others write other collections. *)
Theorem serve_posts_valid rq w :
  posts_valid (db w) -> posts_valid (db (serve bhash parse_date oid_ok rq w).1).
Proof.
  intros Hv. unfold serve.
  destruct (rq_body rq) as [b|]; [|done].
  destruct (dispatch (rq_method rq) (rq_path rq)) as [[r ps]|]; [|done].
  assert (Hrun : forall uid,
    posts_valid (db (run_action bhash parse_date oid_ok (r_action r) ps uid b rq w).1)).
  { intros uid. destruct (r_action r); simpl; try exact Hv.
    all: try (apply on_db_posts_valid;
              first [ apply createPost_posts_valid | apply updatePost_posts_valid
                    | apply deletePost_posts_valid | apply togglePostInterest_posts_valid
                    | apply markAttendance_posts_valid | apply togglePostAttendance_posts_valid
                    | apply joinInterestGroup_posts_valid
                    | apply Comments.createComment_posts_valid ]; exact Hv).
    all: try other_collections.
    eapply posts_valid_eq; [|exact Hv]. unfold joinPostGroupChat.
    repeat (case_match; simpl); simplify_eq/=; done. }
  destruct (r_protect r); [destruct (protect _ _ _)|]; simpl; try done;
    destruct (upload_stage (r_upload r) rq); simpl; auto.
Qed.

Lemma run_action_read a ps uid b rq w :
  a ∈ read_actions -> (run_action bhash parse_date oid_ok a ps uid b rq w).1 = w.
Proof. intros Ha. destruct a; try reflexivity; exfalso; revert Ha; decide_by_eval. Qed.

(** C9: [GET] requests are safe: whatever their path, token and body,
    serving one leaves the store and the sockets as they were. *)
Theorem serve_get_safe rq w :
  rq_method rq = GET -> (serve bhash parse_date oid_ok rq w).1 = w.
Proof.
  intros Hg. unfold serve. rewrite Hg.
  destruct (rq_body rq) as [b|]; [|done].
  destruct (dispatch GET (rq_path rq)) as [[r ps]|] eqn:Hd; [|done].
  destruct (dispatch_in_In _ _ _ _ _ Hd) as (Hm & pre & rs & Hin & Hr).
  (* every [GET] route runs a controller function that only reads *)
  assert (Ha : r_action r ∈ read_actions).
  { revert Hm. apply (mounts_forall (fun r => r_method r = GET -> r_action r ∈ read_actions)
                        pre rs r); [|done|done].
    vm_compute. reflexivity. }
  destruct (r_protect r); [destruct (protect _ _ _)|]; simpl; try done;
    destruct (upload_stage (r_upload r) rq); simpl; auto using run_action_read.
Qed.

End Props.

(** C10: no route of the table is shadowed by one registered before it:
    for every route and all values of its parameters that no literal
    of the table matches, the path made of the route's mount prefix and
    segments reaches that very route, with those values as its
    parameters. *)
Theorem routes_reachable pre rs r vs segs :
  In (pre, rs) mounts -> In r rs -> inst (r_path r) vs = Some segs -> Forall param_ok vs ->
  dispatch (r_method r) (join_path (pre ++ segs)) = Some (r, vs).
Proof.
  intros Hm Hr Hi Hv.
  destruct (in_split _ _ Hm) as (ms1 & ms2 & Hms). destruct (in_split _ _ Hr) as (rs1 & rs2 & ->).
  assert (Ht : table_ok [] mounts = true) by (vm_compute; reflexivity). rewrite Hms in Ht.
  apply table_ok_app, routes_ok_app in Ht as (Hpre & Hlit & Hms1 & Hrs1).
  rewrite forallb_forall in Hms1, Hrs1.
  unfold dispatch. rewrite path_segments_join.
  - rewrite Hms, dispatch_in_app.
    + simpl. rewrite strip_mount_app. simpl. rewrite find_route_app.
      * simpl. rewrite decide_True by done. by rewrite (match_path_inst _ _ _ Hi Hv).
      * intros r' Hr' Hmeth. specialize (Hrs1 r' Hr'). rewrite bool_decide_true in Hrs1 by done.
        simpl in Hrs1. eauto using pat_misses_sound.
    + intros prs Hin. eapply mount_misses_sound; [apply (Hms1 _ Hin)| |done].
      by rewrite inst_lits, Hi.
  - by destruct pre.
  - eapply inst_lit_ok; [done| |done]. by rewrite inst_lits, Hi.
Qed.

Lemma routes_world_valid : posts_valid (db routes_world).
Proof. unfold posts_valid. decide_by_eval. Qed.

Lemma serve_requires_token_witness :
  (serve demo_hash no_date any_oid anon_get routes_world).1 = routes_world /\
  is_success (serve demo_hash no_date any_oid anon_get routes_world).2 = false.
Proof.
  apply (serve_requires_token demo_hash no_date any_oid anon_get routes_world 401
           "No token, authorization denied"); [reflexivity|].
  intros r ps E. vm_compute in E. injection E as <- <-. decide_by_eval.
Defined.

Lemma serve_posts_valid_witness :
  posts_valid (db (serve demo_hash no_date any_oid create_req routes_world).1).
Proof. exact (serve_posts_valid demo_hash no_date any_oid create_req routes_world routes_world_valid). Defined.

Lemma serve_get_safe_witness :
  (serve demo_hash no_date any_oid anon_get routes_world).1 = routes_world.
Proof. exact (serve_get_safe demo_hash no_date any_oid anon_get routes_world eq_refl). Defined.

Lemma routes_reachable_witness :
  let r := mkRoute GET [Par "postId"] true NoUpload A_getPostById in
  In (["api"; "posts"], postRoutes) mounts /\ In r postRoutes /\
  inst (r_path r) ["652f1a"] = Some ["652f1a"] /\ Forall param_ok ["652f1a"] /\
  dispatch GET "/api/posts/652f1a" = Some (r, ["652f1a"]).
Proof.
  intros r. assert (Hm : In (["api"; "posts"], postRoutes) mounts) by (simpl; tauto).
  assert (Hr : In r postRoutes) by (simpl; tauto).
  assert (Hv : Forall param_ok ["652f1a"])
    by (apply Forall_singleton; split_and!; [done|reflexivity|decide_by_eval]).
  split_and!; [done|done|done|done|].
  exact (routes_reachable _ _ r ["652f1a"] ["652f1a"] Hm Hr eq_refl Hv).
Defined.
