(* ===== verification/System.v ===== *)
(** * System: the HTTP application and the socket gateway together

    src/server.js runs one process with both halves: the Express
    application ([Routes.serve]) and the Socket.IO server ([Gateway.step]).
    [sys_step] lets HTTP requests, each served atomically, interleave with
    every step of the gateway: connections, room snapshots, resumptions of
    the suspended [sendMessage] handlers, disconnections.  As for a socket
    connection, a token [protect] accepts names a stored user: the server
    signs tokens only for stored users and never deletes one.  The theorem
    of this file extends the gateway's safety invariant to the whole
    system: whatever HTTP traffic interleaves, a [receiveMessage] only
    reaches a participant of the message's chat. *)

From S2P Require Import Prelude Models Token Realtime Chat Gateway Posts Auth Social Activity Routes.

Section System.
Context `{TokenService} `{ObjectIds}.
Variable bhash : string -> string.
Variable parse_date : string -> option Z.

(** An HTTP request served between two steps of the gateway. *)
Definition sys_http (rq : Request) (S : Sys) : Sys :=
  mkSys (serve bhash parse_date oid_ok rq (world S)).1 (tasks S).

Inductive sys_step : Sys -> Sys -> Prop :=
  | ss_gateway S S' : step S S' -> sys_step S S'
  | ss_http S rq :
      (forall c u, protect (rq_authorization rq) (rq_x_auth_token rq) (rq_now rq) = Ok c u ->
         is_Some (users (db (world S)) !! u)) ->
      sys_step S (sys_http rq S).

End System.

(** A write of an HTTP handler as the gateway sees it: the chats are those
    of before, no user disappears, and the only new user has the fresh id. *)
Definition users_frame (d d' : Db) : Prop :=
  chats d' = chats d /\
  (forall x, is_Some (users d !! x) -> is_Some (users d' !! x)) /\
  (forall x, is_Some (users d' !! x) -> is_Some (users d !! x) \/ x = new_id d).

(** The examples cast every id. *)
#[local] Instance demo_oids : ObjectIds := any_oid.

(** ** Example: on a fresh server over the store of [Gateway], [b] joins
    the chat of event post [p1] through [POST /api/chat/join/p1]. *)

Definition join_req : Request :=
  mkReq POST "/api/chat/join/p1" (Some (String.append "Bearer " (demo_token "b"))) None
    (Some []) true [] 0 0 true.

Definition http_sys : Sys := sys_http demo_hash no_date join_req (init_sys gw_db).

(** ** Frames of the handlers *)

Lemma users_frame_same d d' :
  chats d' = chats d -> users d' = users d -> users_frame d d'.
Proof. intros Hc Hu. split_and!; [done| |]; rewrite Hu; auto. Qed.

Lemma users_frame_insert d i u :
  is_Some (users d !! i) \/ i = new_id d -> users_frame d (set_users (<[i := u]>) d).
Proof.
  intros Hi. split_and!; [done| |]; intros x; simpl; rewrite lookup_insert_is_Some'.
  - auto.
  - intros [<-|?]; auto.
Qed.

Lemma is_Some_upd_user f i d x :
  is_Some (users (upd_user f i d) !! x) <-> is_Some (users d !! x).
Proof. unfold upd_user. simpl. apply lookup_alter_is_Some. Qed.

Lemma users_frame_upd_user2 f g i j d :
  users_frame d (upd_user g j (upd_user f i d)).
Proof. split_and!; [done| |]; intros x; rewrite !is_Some_upd_user; auto. Qed.

Lemma users_frame_upd_user f i d : users_frame d (upd_user f i d).
Proof. split_and!; [done| |]; intros x; rewrite !is_Some_upd_user; auto. Qed.

Lemma users_frame_save_post pid p d d' : save_post pid p d = Some d' -> users_frame d d'.
Proof. intros [-> _]%save_post_Some. by apply users_frame_same. Qed.

Lemma find_user_by_email_frame d e i u :
  find_user_by_email d e = Some (i, u) -> is_Some (users d !! i) \/ i = new_id d.
Proof. intros [Hi _]%find_user_by_email_Some. eauto. Qed.

#[local] Hint Resolve users_frame_same users_frame_insert users_frame_upd_user users_frame_upd_user2
  users_frame_save_post : backend.

(** Every handler but [joinPostGroupChat] writes within the frame. *)
Local Ltac frame_tac :=
  repeat (case_match; simplify_eq/=); eauto with backend;
  try (apply users_frame_insert; eauto using find_user_by_email_frame).

Section Frames.
Context `{TokenService}.
Variables (bhash : string -> string) (parse_date : string -> option Z) (oid_ok : Id -> bool).

Lemma registerUser_frame email r sent now d : users_frame d (registerUser email r sent now d).1.
Proof. unfold registerUser. frame_tac. Qed.

Lemma verifyOtpAndRegister_frame b now d : users_frame d (verifyOtpAndRegister bhash b now d).1.
Proof. unfold verifyOtpAndRegister, verify_core. frame_tac. Qed.

Lemma updateUserProfile_frame c t n b up d :
  users_frame d (updateUserProfile oid_ok c t n b up d).1.
Proof. unfold updateUserProfile. frame_tac. Qed.

Lemma followUser_frame c t d : users_frame d (followUser oid_ok c t d).1.
Proof. unfold followUser. frame_tac. Qed.

Lemma unfollowUser_frame c t d : users_frame d (unfollowUser oid_ok c t d).1.
Proof. unfold unfollowUser. frame_tac. Qed.

Lemma createPost_frame u b ups now d : users_frame d (createPost parse_date u b ups now d).1.
Proof. unfold createPost. frame_tac. Qed.

Lemma updatePost_frame u p b ups d : users_frame d (updatePost parse_date oid_ok u p b ups d).1.
Proof. unfold updatePost. frame_tac. Qed.

Lemma deletePost_frame u p d : users_frame d (deletePost oid_ok u p d).1.
Proof. unfold deletePost. frame_tac. Qed.

Lemma togglePostInterest_frame u p now d : users_frame d (togglePostInterest oid_ok u p now d).1.
Proof. unfold togglePostInterest. frame_tac. Qed.

Lemma markAttendance_frame u p now d : users_frame d (markAttendance oid_ok u p now d).1.
Proof. unfold markAttendance. frame_tac. Qed.

Lemma togglePostAttendance_frame u p d : users_frame d (togglePostAttendance oid_ok u p d).1.
Proof. unfold togglePostAttendance. frame_tac. Qed.

Lemma joinInterestGroup_frame u p now d : users_frame d (joinInterestGroup oid_ok u p now d).1.
Proof. unfold joinInterestGroup, mongoose_bound. frame_tac. Qed.

Lemma markNotificationAsRead_frame u n d :
  users_frame d (Notifications.markNotificationAsRead oid_ok u n d).1.
Proof. unfold Notifications.markNotificationAsRead. frame_tac. Qed.

Lemma deleteNotification_frame u n d :
  users_frame d (Notifications.deleteNotification oid_ok u n d).1.
Proof. unfold Notifications.deleteNotification. frame_tac. Qed.

Lemma createComment_frame u p c now d :
  users_frame d (Comments.createComment oid_ok u p c now d).1.
Proof. unfold Comments.createComment. frame_tac. Qed.

End Frames.

(** ** The gateway's invariant under HTTP traffic *)

Lemma world_inv_frame w d' :
  world_inv w -> users_frame (db w) d' ->
  world_inv (set_db d' w) /\ chats_grow (db w) d'.
Proof.
  intros (Hd & Hsu & Hr & Ho) (Hc & Hg & Hn).
  split; [|by apply chats_grow_same]. split_and!.
  - intros x Hx. simpl. rewrite Hc.
    destruct (Hn x Hx) as [?| ->]; [by apply Hd|apply new_id_not_chat].
  - intros s k u Hs Hk. apply Hg. by eapply Hsu.
  - unfold rooms_ok in *. simpl. by rewrite Hc.
  - unfold outbox_ok in *. simpl. by rewrite Hc.
Qed.

Lemma world_inv_on_db {A} (f : Db -> Db * Res A) w :
  world_inv w -> users_frame (db w) (f (db w)).1 ->
  world_inv (on_db f w).1 /\ chats_grow (db w) (db (on_db f w).1).
Proof. unfold on_db. destruct (f (db w)). apply world_inv_frame. Qed.

Section Safety.
Context `{TokenService} `{ObjectIds}.
Variables (bhash : string -> string) (parse_date : string -> option Z).

(** C1: in every state the whole server reaches from a fresh start over a
    store whose user ids and chat ids are distinct, whatever the
    interleaving of HTTP requests (any route, any body) with connections,
    room snapshots, concurrent [sendMessage] handlers and disconnections,
    every [receiveMessage] event went to a socket of a participant of the
    message's chat, and every socket in a room is in its own user's room
    or in the room of a chat its user takes part in. *)
Theorem system_receive_participant d S :
  ids_disjoint d -> rtc (sys_step bhash parse_date) (init_sys d) S ->
  outbox_ok (world S) /\ rooms_ok (world S).
Proof.
  intros Hd Hr.
  cut (sys_inv S); [by intros [(_ & _ & ? & ?) _]|].
  generalize (sys_inv_init d Hd). clear Hd.
  induction Hr as [|S1 S2 S3 Hs _ IH]; [done|]. intros Hinv. apply IH. clear IH.
  destruct Hs as [S1 S2 Hs|S1 rq Hu]; [by eapply sys_inv_step|].
  destruct Hinv as [Hw Ht]. set (w := world S1) in *.
  (* one request keeps the invariant and lets the chats only grow *)
  assert (Hserve : world_inv (serve bhash parse_date oid_ok rq w).1 /\
                   chats_grow (db w) (db (serve bhash parse_date oid_ok rq w).1)).
  { unfold serve.
    destruct (rq_body rq) as [b|]; [|split; [done|by apply chats_grow_same]].
    destruct (dispatch (rq_method rq) (rq_path rq)) as [[r ps]|] eqn:Hdis;
      [|split; [done|by apply chats_grow_same]].
    destruct (dispatch_in_In _ _ _ _ _ Hdis) as (_ & pre & rs & Hm & Hrs).
    assert (Hrun : forall uid, (r_action r ∉ public_actions -> is_Some (users (db w) !! uid)) ->
      world_inv (run_action bhash parse_date oid_ok (r_action r) ps uid b rq w).1 /\
      chats_grow (db w) (db (run_action bhash parse_date oid_ok (r_action r) ps uid b rq w).1)).
    { intros uid Hus. destruct (r_action r) eqn:Ha; simpl;
        try (split; [done|by apply chats_grow_same]);
        try (apply world_inv_on_db; [done|]; eauto using registerUser_frame,
          verifyOtpAndRegister_frame, updateUserProfile_frame, followUser_frame,
          unfollowUser_frame, createPost_frame, updatePost_frame, deletePost_frame,
          togglePostInterest_frame, markAttendance_frame, togglePostAttendance_frame,
          joinInterestGroup_frame, markNotificationAsRead_frame, deleteNotification_frame,
          createComment_frame).
      (* [joinPostGroupChat] also subscribes the user's sockets *)
      destruct (world_inv_join w uid (param ps 0) (rq_now rq)) as [Hw' Hg']; [done| |].
      { apply Hus. decide_by_eval. }
      by destruct (joinPostGroupChat _ _ _ _). }
    destruct (r_protect r) eqn:Hp; [destruct (protect _ _ _) eqn:Hprot|]; simpl;
      try (split; [done|by apply chats_grow_same]);
      destruct (upload_stage (r_upload r) rq); simpl;
      try (split; [done|by apply chats_grow_same]); apply Hrun; [eauto|].
    intros Hpub. by destruct Hpub; apply (mounts_protected pre rs r). }
  destruct Hserve as [Hw' Hg]. split; [done|]. by eapply tasks_ok_grow.
Qed.

End Safety.

Lemma system_receive_participant_witness :
  ids_disjoint gw_db /\ outbox_ok (world http_sys) /\ rooms_ok (world http_sys).
Proof.
  assert (Hd : ids_disjoint gw_db) by (intros x Hx; apply lookup_empty).
  split; [exact Hd|].
  apply (system_receive_participant demo_hash no_date gw_db http_sys Hd).
  apply rtc_once, ss_http. intros c u E. vm_compute in E. injection E as <- <-.
  decide_by_eval.
Defined.
